(** * Habits: streaks and achievements over the SQLite store (db.js)

    A shallow embedding of the data-access module of the habit tracker:
    the three tables it reads and writes, the day view, the completion
    toggle, the streak calculator and the achievement engine (award pass
    [checkAchievements], invalidation pass [removeInvalidAchievements]).

    Dates are the strings the program stores ([YYYY-MM-DD]); they are
    compared as SQLite and JavaScript compare text, byte by byte.

    The rest of the module follows: the habit and to-do functions, the
    display of the achievements and the export data; with them the CSV
    route of server.js and the migration of migrate.js. *)

From Stdlib Require Import ZArith List String Ascii Bool Lia.
From Stdlib Require Import DecimalString DecimalPos DecimalZ Finite.
From Stdlib Require Import Permutation Sorted.
Import ListNotations.

Open Scope string_scope.
Open Scope list_scope.
Open Scope Z_scope.

Set Implicit Arguments.

(* ================================================================= *)
(** ** Text comparison *)

(** [BINARY] collation in SQLite and [<], [<=], [===] on JS strings. *)
Infix "=s?" := String.eqb (at level 70, no associativity).
Infix "<=s?" := String.leb (at level 70, no associativity).
Infix "<s?" := String.ltb (at level 70, no associativity).

(** JS [+] on strings. *)
Infix "+++" := String.append (at level 60, right associativity).

(* ================================================================= *)
(** ** SQL three-valued logic

    A [WHERE] clause keeps a row only when its condition is true; a
    comparison with [NULL] is [NULL], and [NOT NULL] is [NULL]. *)

Definition sql_bool := option bool.

Definition sql_and (a b : sql_bool) : sql_bool :=
  match a, b with
  | Some false, _ => Some false
  | _, Some false => Some false
  | Some true, Some true => Some true
  | _, _ => None
  end.

Definition sql_not (a : sql_bool) : sql_bool := option_map negb a.

(** [col <= ?] on a nullable text column. *)
Definition sql_le (col : option string) (arg : string) : sql_bool :=
  option_map (fun v => v <=s? arg) col.

Definition sql_where (c : sql_bool) : bool :=
  match c with Some true => true | _ => false end.

(* ================================================================= *)
(** ** The tables *)

(** [habits]: [id TEXT PRIMARY KEY], [deleted INTEGER] used as a flag,
    [deleted_date TEXT] nullable. *)
Record Habit := mkHabit {
  id : string;
  name : string;
  created_date : string;
  deleted : bool;
  deleted_date : option string;
  sort_order : Z
}.

(** [achievements]: [habit_id] is [NULL] ([None]) for a global award. *)
Record Achievement := mkAchievement {
  type : string;
  habit_id : option string;
  earned_date : string
}.

(** The database: each table is the list of its rows.  A row of
    [completions] is the pair [(date, habit_id)]. *)
Record Db := mkDb {
  habits : list Habit;
  completions : list (string * string);
  achievements : list Achievement
}.

Definition set_completions (db : Db) (c : list (string * string)) : Db :=
  mkDb (habits db) c (achievements db).

Definition set_achievements (db : Db) (a : list Achievement) : Db :=
  mkDb (habits db) (completions db) a.

(** [ORDER BY key]: a stable insertion sort, ascending. *)
Fixpoint insert_by (A : Type) (key : A -> Z) (x : A) (l : list A) : list A :=
  match l with
  | [] => [x]
  | y :: l' => if key x <=? key y then x :: y :: l'
               else y :: insert_by key x l'
  end.

Definition order_by (A : Type) (key : A -> Z) (l : list A) : list A :=
  fold_right (insert_by key) [] l.

(* ================================================================= *)
(** ** Day view and completions *)

(** [SELECT 1 FROM completions WHERE date = ? AND habit_id = ?],
    read as a truth value. *)
Definition checkCompletion (db : Db) (date habitId : string) : bool :=
  existsb (fun c => (fst c =s? date) && (snd c =s? habitId)) (completions db).

(** [NOT (deleted = 1 AND deleted_date <= ?)] *)
Definition notDeletedAsOf (h : Habit) (date : string) : sql_bool :=
  sql_not (sql_and (Some (deleted h)) (sql_le (deleted_date h) date)).

Record DayRow := mkDayRow {
  row_id : string;
  row_name : string;
  row_completed : bool;
  row_deleted : bool
}.

Definition getDayView (date : string) (db : Db) : list DayRow :=
  let rows :=
    order_by sort_order
      (filter (fun h => sql_where (notDeletedAsOf h date)) (habits db)) in
  map (fun h => mkDayRow (id h) (name h) (checkCompletion db date (id h))
                         (deleted h)) rows.

(** [INSERT OR IGNORE] under [PRIMARY KEY (date, habit_id)], and
    [DELETE ... WHERE date = ? AND habit_id = ?]. *)
Definition toggleCompletion (date habitId : string) (completed : bool)
    (db : Db) : Db :=
  if completed then
    if checkCompletion db date habitId then db
    else set_completions db (completions db ++ [(date, habitId)])
  else
    set_completions db
      (filter (fun c => negb ((fst c =s? date) && (snd c =s? habitId)))
              (completions db)).

(* ================================================================= *)
(** ** Calendar

    What the program asks of the JavaScript [Date]: read a [YYYY-MM-DD]
    day, move it by whole days, print it back, and the length of a
    month.  A day is the triple (year, month 1..12, day of month) of
    the proleptic Gregorian calendar. *)

Definition Day : Type := Z * Z * Z.

Definition isLeap (y : Z) : bool :=
  ((y mod 4 =? 0) && negb (y mod 100 =? 0)) || (y mod 400 =? 0).

Definition monthLength (y m : Z) : Z :=
  if m =? 2 then (if isLeap y then 29 else 28)
  else if (m =? 4) || (m =? 6) || (m =? 9) || (m =? 11) then 30
  else 31.

Definition nextDay (c : Day) : Day :=
  let '(y, m, d) := c in
  if d <? monthLength y m then (y, m, d + 1)
  else if m <? 12 then (y, m + 1, 1)
  else (y + 1, 1, 1).

Definition prevDay (c : Day) : Day :=
  let '(y, m, d) := c in
  if 1 <? d then (y, m, d - 1)
  else if 1 <? m then (y, m - 1, monthLength y (m - 1))
  else (y - 1, 12, 31).

(** [d.setDate(d.getDate() + days)]: the day [days] later (earlier when
    negative). *)
Definition addDays (c : Day) (days : Z) : Day :=
  if 0 <=? days then Nat.iter (Z.to_nat days) nextDay c
  else Nat.iter (Z.to_nat (- days)) prevDay c.

(** JS [String(n)] and the implicit conversion in [n + '-'], for an
    integer [n]: decimal digits, a leading [-] when negative. *)
Definition numberToString (n : Z) : string :=
  NilZero.string_of_int (Z.to_int n).

(** [s.padStart(targetLength, pad)] for a one-character [pad]. *)
Definition padStart (targetLength : nat) (pad : ascii) (s : string) : string :=
  string_of_list_ascii (repeat pad (targetLength - String.length s)) +++ s.

Definition digitVal (c : ascii) : option Z :=
  let n := Z.of_N (N_of_ascii c) in
  if (48 <=? n) && (n <=? 57) then Some (n - 48) else None.

Definition isDash (c : ascii) : bool := Ascii.eqb c "-".

(** Reading a date string: exactly [YYYY-MM-DD], a day that exists. *)
Definition parseISO (s : string) : option Day :=
  match list_ascii_of_string s with
  | [y1; y2; y3; y4; s1; m1; m2; s2; d1; d2] =>
      match digitVal y1, digitVal y2, digitVal y3, digitVal y4,
            digitVal m1, digitVal m2, digitVal d1, digitVal d2 with
      | Some a, Some b, Some c, Some d, Some e, Some f, Some g, Some h =>
          let y := 1000 * a + 100 * b + 10 * c + d in
          let m := 10 * e + f in
          let dd := 10 * g + h in
          if isDash s1 && isDash s2 && (1 <=? m) && (m <=? 12)
             && (1 <=? dd) && (dd <=? monthLength y m)
          then Some (y, m, dd) else None
      | _, _, _, _, _, _, _, _ => None
      end
  | _ => None
  end.

(** The result of a run that may not come back with a value: [None]
    when a loop never ends, or when the JS [Date] is handed text that is
    not a [YYYY-MM-DD] day (what an engine makes of such text is its own
    business and is not modelled). *)
Notation "x <- c ;; k" := (match c with Some x => k | None => None end)
  (at level 61, c at next level, right associativity).
Notation "' p <- c ;; k" := (match c with Some p => k | None => None end)
  (at level 61, p pattern, c at next level, right associativity).

(** How the program prints a [Date]: the year as a plain number, month
    and day padded to two digits. *)
Definition printDate (c : Day) : string :=
  let '(y, m, d) := c in
  numberToString y +++ "-" +++
    padStart 2 "0" (numberToString m) +++ "-" +++
    padStart 2 "0" (numberToString d).

Definition shiftDateStr (dateStr : string) (days : Z) : option string :=
  d <- parseISO dateStr ;;
  Some (printDate (addDays d days)).

(** [new Date(year, month, 0).getDate()].  The [Date] constructor reads
    a year from 0 to 99 as 1900 + year, and wraps the month index. *)
Definition daysInMonth (year month : Z) : Z :=
  let year := if (0 <=? year) && (year <=? 99) then 1900 + year else year in
  monthLength (year + (month - 1) / 12) ((month - 1) mod 12 + 1).

(** [for (const x of xs) body(x)] over a database that each step may
    change, stopping when a step does not return. *)
Fixpoint forEach (A : Type) (body : A -> Db -> option Db) (xs : list A)
    (db : Db) : option Db :=
  match xs with
  | [] => Some db
  | x :: xs' => db' <- body x db ;; forEach body xs' db'
  end.

(** The values [from, from + 1, ..., from + count - 1] of a counting
    [for] loop. *)
Definition countFrom (from : Z) (count : Z) : list Z :=
  map (fun k => from + Z.of_nat k) (seq 0 (Z.to_nat count)).

(* ================================================================= *)
(** ** Streaks *)

(** [while (checkCompletion.get(checkDay, id)) { streak++;
    checkDay = shiftDateStr(checkDay, -1); }]

    The loop reads one row of [completions] per turn, so it is run with
    one more unit of fuel than the table has rows; running out of fuel
    means the walk came back to a day it had seen and never ends. *)
Fixpoint countBack (fuel : nat) (db : Db) (habitId checkDay : string)
    (streak : Z) : option Z :=
  match fuel with
  | O => None
  | S fuel' =>
      if checkCompletion db checkDay habitId then
        checkDay' <- shiftDateStr checkDay (-1) ;;
        countBack fuel' db habitId checkDay' (streak + 1)
      else Some streak
  end.

Definition walkFuel (db : Db) : nat := S (List.length (completions db)).

Record StreakRow := mkStreakRow {
  streak_id : string;
  streak_name : string;
  streak : Z
}.

(** The copy of [shiftDateStr] local to [getStreaks]. *)
Definition shiftDate (dateStr : string) (days : Z) : option string :=
  shiftDateStr dateStr days.

(** The body of the loop over the habits in [getStreaks]: the row it
    pushes, if any. *)
Definition habitStreak (today date : string) (db : Db) (habit : Habit)
    : option (option StreakRow) :=
  let isToday := date =s? today in
  let doneOnDate := checkCompletion db date (id habit) in
  if doneOnDate || isToday then
    checkDay <- (if doneOnDate then Some date else shiftDate date (-1)) ;;
    streak <- countBack (walkFuel db) db (id habit) checkDay 0 ;;
    Some (if 0 <? streak
          then Some (mkStreakRow (id habit) (name habit) streak)
          else None)
  else Some None.

Fixpoint streakRows (today date : string) (db : Db) (hs : list Habit)
    : option (list StreakRow) :=
  match hs with
  | [] => Some []
  | habit :: rest =>
      row <- habitStreak today date db habit ;;
      rows <- streakRows today date db rest ;;
      Some (match row with Some r => r :: rows | None => rows end)
  end.

(** [getStreaks(date)], with the clock's [today] as an argument.
    [results.sort((a, b) => b.streak - a.streak)] is a stable sort,
    longest streak first. *)
Definition getStreaks (today date : string) (db : Db)
    : option (list StreakRow) :=
  let habits :=
    order_by sort_order
      (filter (fun h => sql_where (notDeletedAsOf h date)) (habits db)) in
  results <- streakRows today date db habits ;;
  Some (order_by (fun r => - streak r) results).

(* ================================================================= *)
(** ** Achievements *)

(** [a = b] in SQL on nullable text: [NULL] as soon as one side is. *)
Definition sql_eq (a b : option string) : sql_bool :=
  match a, b with
  | Some x, Some y => Some (x =s? y)
  | _, _ => None
  end.

Definition isNull (A : Type) (v : option A) : bool :=
  match v with None => true | Some _ => false end.

(** [INSERT OR IGNORE INTO achievements] under
    [UNIQUE(type, habit_id, earned_date)].  SQLite holds two [NULL]s in
    a unique column to be distinct, so a row with a [NULL] [habit_id]
    meets no conflict. *)
Definition insertAchievement (ty : string) (habitId : option string)
    (earnedDate : string) (db : Db) : Db :=
  let conflict :=
    existsb (fun a => (type a =s? ty)
                      && sql_where (sql_eq (habit_id a) habitId)
                      && (earned_date a =s? earnedDate))
            (achievements db) in
  if conflict then db
  else set_achievements db
         (achievements db ++ [mkAchievement ty habitId earnedDate]).

(** [DELETE FROM achievements WHERE cond]. *)
Definition deleteAchievements (cond : Achievement -> bool) (db : Db) : Db :=
  set_achievements db (filter (fun a => negb (cond a)) (achievements db)).

(** Conditions of the [DELETE] statements of the invalidation pass. *)
Definition habitIs (habitId : string) (a : Achievement) : bool :=
  sql_where (sql_eq (habit_id a) (Some habitId)).

Definition earnedBetween (from to : string) (a : Achievement) : bool :=
  (from <=s? earned_date a) && (earned_date a <=s? to).

Definition streakTypes : list (string * Z) :=
  [("streak_7", 7); ("streak_14", 14); ("streak_21", 21)].

Definition removeInvalidAchievements (date habitId : string) (db : Db)
    : option Db :=
  let db :=
    deleteAchievements
      (fun a => (type a =s? "perfect_day") && isNull (habit_id a)
                && (earned_date a =s? date)) db in
  db <- forEach (fun '(ty, n) db =>
           endDate <- shiftDateStr date (n - 1) ;;
           Some (deleteAchievements
                   (fun a => (type a =s? ty) && habitIs habitId a
                             && earnedBetween date endDate a) db))
          streakTypes db ;;
  db <- forEach (fun '(ty, n) db =>
           endDate <- shiftDateStr date (n - 1) ;;
           Some (deleteAchievements
                   (fun a => (type a =s? ty) && isNull (habit_id a)
                             && earnedBetween date endDate a) db))
          streakTypes db ;;
  let monthStr := substring 0 7 date +++ "-01" in
  let db :=
    deleteAchievements
      (fun a => (type a =s? "perfect_month") && habitIs habitId a
                && (earned_date a =s? monthStr)) db in
  Some (deleteAchievements
          (fun a => (type a =s? "perfect_month") && isNull (habit_id a)
                    && (earned_date a =s? monthStr)) db).

(** [SELECT id FROM habits WHERE created_date <= ? AND
    NOT (deleted = 1 AND deleted_date <= ?)] *)
Definition activeHabits (date : string) (db : Db) : list Habit :=
  filter (fun h => sql_where (sql_and (Some (created_date h <=s? date))
                                      (notDeletedAsOf h date)))
         (habits db).

(** Every habit active on [day] has a completion on [day], and there
    is at least one. *)
Definition dayComplete (db : Db) (day : string) : bool :=
  let dayHabits := activeHabits day db in
  negb (List.length dayHabits =? 0)%nat
  && forallb (fun h => checkCompletion db day (id h)) dayHabits.

(** The inner loop of the global streaks, from turn [i] for [turns]
    more turns: [false] at the first day that is not complete. *)
Fixpoint allStreak (db : Db) (date : string) (i : Z) (turns : nat)
    : option bool :=
  match turns with
  | O => Some true
  | S turns' =>
      checkDay <- shiftDateStr date (- i) ;;
      if dayComplete db checkDay then allStreak db date (i + 1) turns'
      else Some false
  end.

Definition perHabitStreaks (date : string) (habitId : string) (db : Db)
    : option Db :=
  streak <- countBack (walkFuel db) db habitId date 0 ;;
  let db := if 7 <=? streak
            then insertAchievement "streak_7" (Some habitId) date db else db in
  let db := if 14 <=? streak
            then insertAchievement "streak_14" (Some habitId) date db else db in
  let db := if 21 <=? streak
            then insertAchievement "streak_21" (Some habitId) date db else db in
  Some db.

Definition globalStreaks (date : string) (threshold : Z) (db : Db)
    : option Db :=
  ok <- allStreak db date 0 (Z.to_nat threshold) ;;
  Some (if ok
        then insertAchievement ("streak_" +++ numberToString threshold)
                               None date db
        else db).

(** [SELECT created_date FROM habits WHERE id = ?], first row. *)
Definition habitRow (db : Db) (habitId : string) : option Habit :=
  find (fun h => id h =s? habitId) (habits db).

Definition dayOfMonthStr (monthStr : string) (d : Z) : string :=
  monthStr +++ "-" +++ padStart 2 "0" (numberToString d).

Definition perHabitMonth (monthStr firstOfMonth : string) (days : Z)
    (habitId : string) (db : Db) : option Db :=
  row <- habitRow db habitId ;;
  if firstOfMonth <s? created_date row then Some db
  else
    let perfect :=
      forallb (fun d => checkCompletion db (dayOfMonthStr monthStr d) habitId)
              (countFrom 1 days) in
    Some (if perfect
          then insertAchievement "perfect_month" (Some habitId) firstOfMonth db
          else db).

Definition checkAchievements (date : string) (db : Db) : option Db :=
  let habits := activeHabits date db in
  if (List.length habits =? 0)%nat then Some db
  else
    let habitIds := map id habits in
    (* Perfect day *)
    let allDone := forallb (fun i => checkCompletion db date i) habitIds in
    let db := if allDone then insertAchievement "perfect_day" None date db
              else db in
    (* Per-habit streaks *)
    db <- forEach (perHabitStreaks date) habitIds db ;;
    (* Global streaks *)
    db <- forEach (globalStreaks date) [7; 14; 21] db ;;
    (* Perfect month: the month before the one of [date] *)
    '(year, month, _) <- parseISO date ;;
    let checkYear := if month =? 1 then year - 1 else year in
    let checkMonth := if month =? 1 then 12 else month - 1 in
    let days := daysInMonth checkYear checkMonth in
    let monthStr :=
      numberToString checkYear +++ "-"
        +++ padStart 2 "0" (numberToString checkMonth) in
    let firstOfMonth := monthStr +++ "-01" in
    db <- forEach (perHabitMonth monthStr firstOfMonth days) habitIds db ;;
    let globalPerfect :=
      forallb (fun d => dayComplete db (dayOfMonthStr monthStr d))
              (countFrom 1 days) in
    Some (if globalPerfect
          then insertAchievement "perfect_month" None firstOfMonth db
          else db).

(* ================================================================= *)
(** ** Habits *)

(** What the program hands out for a habit: the row without its
    [sort_order], [deleted] as a boolean. *)
Record HabitInfo := mkHabitInfo {
  info_id : string;
  info_name : string;
  info_createdDate : string;
  info_deleted : bool;
  info_deletedDate : option string
}.

Definition habitInfo (h : Habit) : HabitInfo :=
  mkHabitInfo (id h) (name h) (created_date h) (deleted h) (deleted_date h).

Definition set_habits (db : Db) (hs : list Habit) : Db :=
  mkDb hs (completions db) (achievements db).

Definition getHabits (db : Db) : list HabitInfo :=
  map habitInfo (order_by sort_order (habits db)).

(** [MAX(sort_order)]: [NULL] on an empty table. *)
Definition maxSortOrder (db : Db) : option Z :=
  match habits db with
  | [] => None
  | h :: hs => Some (fold_left Z.max (map sort_order hs) (sort_order h))
  end.

Definition coalesce (v : option Z) (default : Z) : Z :=
  match v with Some x => x | None => default end.

(** [addHabit(name)], with the random [id] and the clock's date as
    arguments.  The plain [INSERT] fails on an [id] that is already a
    primary key, and the function throws: [None]. *)
Definition addHabit (newId createdDate name : string) (db : Db)
    : option (HabitInfo * Db) :=
  let maxOrder := coalesce (maxSortOrder db) (-1) in
  if existsb (fun h => id h =s? newId) (habits db) then None
  else Some (mkHabitInfo newId name createdDate false None,
             set_habits db
               (habits db
                ++ [mkHabit newId name createdDate false None (maxOrder + 1)])).

(** [UPDATE habits SET ... WHERE id = ?]: the number of rows changed
    and the new table. *)
Definition updateHabit (set : Habit -> Habit) (habitId : string) (db : Db)
    : nat * Db :=
  (List.length (filter (fun h => id h =s? habitId) (habits db)),
   set_habits db
     (map (fun h => if id h =s? habitId then set h else h) (habits db))).

(** [SELECT ... FROM habits WHERE id = ?], first row, as handed out. *)
Definition selectHabit (db : Db) (habitId : string) : option HabitInfo :=
  option_map habitInfo (habitRow db habitId).

Definition renameHabit (habitId newName : string) (db : Db)
    : option HabitInfo * Db :=
  let '(changes, db') :=
    updateHabit (fun h => mkHabit (id h) newName (created_date h) (deleted h)
                                  (deleted_date h) (sort_order h))
                habitId db in
  if (changes =? 0)%nat then (None, db')
  else (selectHabit db' habitId, db').

(** [deleteHabit(id)], with the clock's date as an argument. *)
Definition deleteHabit (date habitId : string) (db : Db)
    : option HabitInfo * Db :=
  let '(changes, db') :=
    updateHabit (fun h => mkHabit (id h) (name h) (created_date h) true
                                  (Some date) (sort_order h))
                habitId db in
  if (changes =? 0)%nat then (None, db')
  else (selectHabit db' habitId, db').

(** [ids.forEach((id, i) => update.run(i, id))], from index [i] on. *)
Fixpoint reorderFrom (i : Z) (ids : list string) (db : Db) : Db :=
  match ids with
  | [] => db
  | habitId :: rest =>
      reorderFrom (i + 1) rest
        (snd (updateHabit
                (fun h => mkHabit (id h) (name h) (created_date h) (deleted h)
                                  (deleted_date h) i)
                habitId db))
  end.

Definition reorderHabits (ids : list string) (db : Db) : Db :=
  reorderFrom 0 ids db.

(* ================================================================= *)
(** ** To-dos

    The [todos] table stands apart from the three others; it is the
    list of its rows. *)

Record Todo := mkTodo {
  todo_id : string;
  todo_list : string;
  todo_name : string;
  todo_created_date : string
}.

Record TodoInfo := mkTodoInfo {
  tinfo_id : string;
  tinfo_name : string;
  tinfo_createdDate : string
}.

(** [SELECT ... FROM todos WHERE list = ?]: the rows come as the scan
    of the table meets them, oldest first. *)
Definition getTodos (listName : string) (todos : list Todo)
    : list TodoInfo :=
  map (fun t => mkTodoInfo (todo_id t) (todo_name t) (todo_created_date t))
      (filter (fun t => todo_list t =s? listName) todos).

(** [CHECK (list IN ('work', 'home'))] *)
Definition listAllowed (listName : string) : bool :=
  (listName =s? "work") || (listName =s? "home").

(** [addTodo(list, name)], with the random [id] and the clock's date as
    arguments; [None] when the [INSERT] fails (the check on [list], or
    an [id] already there) and the function throws. *)
Definition addTodo (newId createdDate listName name : string)
    (todos : list Todo) : option (TodoInfo * list Todo) :=
  if negb (listAllowed listName)
     || existsb (fun t => todo_id t =s? newId) todos
  then None
  else Some (mkTodoInfo newId name createdDate,
             todos ++ [mkTodo newId listName name createdDate]).

(** [DELETE FROM todos WHERE id = ? AND list = ?]; [changes > 0]. *)
Definition removeTodo (listName todoId : string) (todos : list Todo)
    : bool * list Todo :=
  let hit := fun t => (todo_id t =s? todoId) && (todo_list t =s? listName) in
  (negb (List.length (filter hit todos) =? 0)%nat,
   filter (fun t => negb (hit t)) todos).

(* ================================================================= *)
(** ** Vocabulary of the properties *)

(** The rows the invalidation pass for [(date, habitId)] deletes, the
    three window ends being [e7], [e14] and [e21]: the disjunction of
    the conditions of its [DELETE] statements, in their order. *)
Definition invalidated (date habitId e7 e14 e21 : string) (a : Achievement)
    : bool :=
  ((type a =s? "perfect_day") && isNull (habit_id a)
     && (earned_date a =s? date))
  || ((type a =s? "streak_7") && habitIs habitId a
        && earnedBetween date e7 a)
  || ((type a =s? "streak_14") && habitIs habitId a
        && earnedBetween date e14 a)
  || ((type a =s? "streak_21") && habitIs habitId a
        && earnedBetween date e21 a)
  || ((type a =s? "streak_7") && isNull (habit_id a)
        && earnedBetween date e7 a)
  || ((type a =s? "streak_14") && isNull (habit_id a)
        && earnedBetween date e14 a)
  || ((type a =s? "streak_21") && isNull (habit_id a)
        && earnedBetween date e21 a)
  || ((type a =s? "perfect_month") && habitIs habitId a
        && (earned_date a =s? substring 0 7 date +++ "-01"))
  || ((type a =s? "perfect_month") && isNull (habit_id a)
        && (earned_date a =s? substring 0 7 date +++ "-01")).

(** The window of [n] days that starts on [D], as the DELETE statements
    read it: [e] is, in the order of text, at or after [D] and at or
    before the date the program prints for the day [n - 1] days after
    [D].  This is a range of text, not of the calendar: it holds the
    calendar days [D] to [D + (n - 1)] only where the dates have
    years of four digits ([calendar_days_inWindow],
    [calendar_days_outside]); below the year 1000 and past the year
    9999 the printed end has another width and the range of text is
    another set of dates. *)
Definition inWindow (D : string) (n : Z) (e : string) : Prop :=
  exists endDate,
    shiftDateStr D (n - 1) = Some endDate
    /\ (D <=s? e) = true /\ (e <=s? endDate) = true.

Definition Achievement_eq_dec (a b : Achievement) : {a = b} + {a <> b}.
Proof.
  decide equality; try apply string_dec.
  decide equality; apply string_dec.
Defined.

(** [db'] is [db] with rows appended to [achievements], each of them
    satisfying [P], and nothing else changed. *)
Definition Awards (P : Achievement -> Prop) (db db' : Db) : Prop :=
  habits db' = habits db /\ completions db' = completions db
  /\ exists added,
       achievements db' = achievements db ++ added /\ Forall P added.

(** The [monthStr] the award pass builds for a date of year [y] and
    month [m]: the month before. *)
Definition prevMonthStr (y m : Z) : string :=
  numberToString (if m =? 1 then y - 1 else y) +++ "-"
    +++ padStart 2 "0" (numberToString (if m =? 1 then 12 else m - 1)).

(** The rows the award pass of [date] can write on [db]. *)
Definition awardable (date : string) (db : Db) (a : Achievement) : Prop :=
  a = mkAchievement "perfect_day" None date
  \/ (exists habitId N,
        In habitId (map id (activeHabits date db)) /\ In N [7; 14; 21]
        /\ a = mkAchievement ("streak_" +++ numberToString N)
                             (Some habitId) date)
  \/ (exists N,
        In N [7; 14; 21]
        /\ a = mkAchievement ("streak_" +++ numberToString N) None date)
  \/ (exists y m d,
        parseISO date = Some (y, m, d)
        /\ (a = mkAchievement "perfect_month" None (prevMonthStr y m +++ "-01")
            \/ exists habitId row,
                 In habitId (map id (activeHabits date db))
                 /\ habitRow db habitId = Some row
                 /\ (prevMonthStr y m +++ "-01" <s? created_date row) = false
                 /\ a = mkAchievement "perfect_month" (Some habitId)
                                      (prevMonthStr y m +++ "-01"))).

(** The award pass as a list of insertions: the rows it hands to
    [insertAchievement], in the order of the program, and the
    insertion of them all. *)
Definition insertAll (rows : list Achievement) (db : Db) : Db :=
  fold_left (fun d a =>
               insertAchievement (type a) (habit_id a) (earned_date a) d)
            rows db.

Fixpoint collect (A : Type) (f : A -> option (list Achievement))
    (xs : list A) : option (list Achievement) :=
  match xs with
  | [] => Some []
  | x :: xs' => r <- f x ;; rs <- collect f xs' ;; Some (r ++ rs)
  end.

Definition streakAttempts (date habitId : string) (streak : Z)
    : list Achievement :=
  (if 7 <=? streak
   then [mkAchievement "streak_7" (Some habitId) date] else [])
  ++ (if 14 <=? streak
      then [mkAchievement "streak_14" (Some habitId) date] else [])
  ++ (if 21 <=? streak
      then [mkAchievement "streak_21" (Some habitId) date] else []).

Definition monthAttempts (db : Db) (monthStr : string) (days : Z)
    (habitId : string) : option (list Achievement) :=
  row <- habitRow db habitId ;;
  Some (if monthStr +++ "-01" <s? created_date row then []
        else if forallb (fun d => checkCompletion db
                                    (dayOfMonthStr monthStr d) habitId)
                        (countFrom 1 days)
             then [mkAchievement "perfect_month" (Some habitId)
                                 (monthStr +++ "-01")]
             else []).

Definition awardAttempts (date : string) (db : Db)
    : option (list Achievement) :=
  let habits := activeHabits date db in
  if (List.length habits =? 0)%nat then Some []
  else
    let habitIds := map id habits in
    let day :=
      if forallb (fun i => checkCompletion db date i) habitIds
      then [mkAchievement "perfect_day" None date] else [] in
    perHabit <-
      collect (fun habitId =>
                 streak <- countBack (walkFuel db) db habitId date 0 ;;
                 Some (streakAttempts date habitId streak)) habitIds ;;
    global <-
      collect (fun threshold =>
                 ok <- allStreak db date 0 (Z.to_nat threshold) ;;
                 Some (if ok
                       then [mkAchievement
                               ("streak_" +++ numberToString threshold)
                               None date]
                       else [])) [7; 14; 21] ;;
    '(year, month, _) <- parseISO date ;;
    let days := daysInMonth (if month =? 1 then year - 1 else year)
                            (if month =? 1 then 12 else month - 1) in
    let monthStr := prevMonthStr year month in
    months <- collect (monthAttempts db monthStr days) habitIds ;;
    Some (day ++ perHabit ++ global ++ months
          ++ (if forallb (fun d => dayComplete db (dayOfMonthStr monthStr d))
                         (countFrom 1 days)
              then [mkAchievement "perfect_month" None (monthStr +++ "-01")]
              else [])).

(** An earned date that is the first day of a month, as the program
    prints dates. *)
Definition firstOfMonthDate (e : string) : Prop :=
  exists y m, 1 <= m <= 12 /\ e = printDate (y, m, 1).

Definition perfectMonthInvariant (db : Db) : Prop :=
  forall a, In a (achievements db) -> type a = "perfect_month" ->
            firstOfMonthDate (earned_date a).

(** A day of the calendar, and the order of days: for valid days the
    key grows with (year, month, day) taken in that order. *)
Definition validDay (c : Day) : Prop :=
  let '(y, m, d) := c in 1 <= m <= 12 /\ 1 <= d <= monthLength y m.

Definition dayKey (c : Day) : Z :=
  let '(y, m, d) := c in (y * 16 + m) * 32 + d.

(** Decimal digits and fixed-width numbers, as [YYYY-MM-DD] has them. *)
Definition digitChar (k : Z) : ascii := ascii_of_N (Z.to_N (48 + k)).

Definition twoDigits (n : Z) : string :=
  String (digitChar (n / 10)) (String (digitChar (n mod 10)) EmptyString).

Definition fourDigits (n : Z) : string :=
  String (digitChar (n / 1000))
    (String (digitChar (n / 100 mod 10)) (twoDigits (n mod 100))).

(** Reading back what [numberToString] prints. *)
Definition parseNumber (s : string) : option Z :=
  option_map Z.of_int (NilZero.int_of_string s).

(** Every row of [completions] is dated by a calendar day: what the
    callers are to check before a date reaches the store. *)
Definition wfCompletions (db : Db) : Prop :=
  forall d h, In (d, h) (completions db) -> parseISO d <> None.

(* ================================================================= *)
(** ** Sample databases *)

(** One habit, deleted on 2024-01-05. *)
Definition deletedHabitDb : Db :=
  mkDb [mkHabit "a" "Read" "2024-01-01" true (Some "2024-01-05") 0] [] [].

(** The scenario of the specification: habits A and B, created on
    2024-01-01 and both completed on each of the seven days up to
    2024-01-07. *)
Definition habitA : Habit := mkHabit "A" "Run" "2024-01-01" false None 0.
Definition habitB : Habit := mkHabit "B" "Read" "2024-01-01" false None 1.

Definition firstWeek : list string :=
  ["2024-01-01"; "2024-01-02"; "2024-01-03"; "2024-01-04"; "2024-01-05";
   "2024-01-06"; "2024-01-07"].

Definition weekDb : Db :=
  mkDb [habitA; habitB]
       (flat_map (fun d => [(d, "A"); (d, "B")]) firstWeek) [].

(** The achievements the award pass of 2024-01-07 leaves on [weekDb]. *)
Definition weekAwards : list Achievement :=
  [mkAchievement "perfect_day" None "2024-01-07";
   mkAchievement "streak_7" (Some "A") "2024-01-07";
   mkAchievement "streak_7" (Some "B") "2024-01-07";
   mkAchievement "streak_7" None "2024-01-07"].

(** ... and the state after A is then un-completed on 2024-01-03. *)
Definition editedWeekDb : Db :=
  toggleCompletion "2024-01-03" "A" false
    (set_achievements weekDb weekAwards).

(** Habit A alone, with a single completion on 2024-01-07. *)
Definition oneDayDb : Db := mkDb [habitA] [("2024-01-07", "A")] [].

(** A habit created on 2024-01-05 and completed on every day from
    then to the end of January. *)
Definition lateHabit : Habit := mkHabit "L" "Swim" "2024-01-05" false None 0.

Definition lateHabitDb : Db :=
  mkDb [lateHabit]
       (map (fun d => (dayOfMonthStr "2024-01" d, "L")) (countFrom 5 27)) [].

(** Habit A, completed on each of the 31 days of January 2024. *)
Definition januaryDb : Db :=
  mkDb [habitA]
       (map (fun d => (dayOfMonthStr "2024-01" d, "A")) (countFrom 1 31)) [].

(** Habit A, completed on 2024-01-06 and 2024-01-07 only. *)
Definition twoDayDb : Db :=
  mkDb [habitA] [("2024-01-06", "A"); ("2024-01-07", "A")] [].

(** The place of [x] in [ids], counted from 0: its first one. *)
Fixpoint posOf (x : string) (ids : list string) : option nat :=
  match ids with
  | [] => None
  | y :: rest => if y =s? x then Some O else option_map S (posOf x rest)
  end.

(** A habit carries a deletion date exactly when it is flagged
    deleted. *)
Definition tombstones (db : Db) : Prop :=
  forall h, In h (habits db) ->
            (deleted h = true <-> deleted_date h <> None).

(** Habit [h] with another [sort_order]. *)
Definition withOrder (h : Habit) (i : Z) : Habit :=
  mkHabit (id h) (name h) (created_date h) (deleted h) (deleted_date h) i.

(** The day [k] days before [day], by [k] steps of one day as the
    backward walks take them. *)
Fixpoint backFrom (k : nat) (day : string) : option string :=
  match k with
  | O => Some day
  | S k' => d <- shiftDateStr day (-1) ;; backFrom k' d
  end.

(** Habit [habitId] has a completion on each of the [k] days that end
    on [day]. *)
Definition completedRun (db : Db) (habitId day : string) (k : nat) : Prop :=
  forall j, (j < k)%nat ->
            exists d, backFrom j day = Some d
                      /\ checkCompletion db d habitId = true.

(** Each of the [N] days that end on [date] is complete. *)
Definition perfectDays (db : Db) (date : string) (N : Z) : Prop :=
  forall j, 0 <= j < N ->
            exists d, shiftDateStr date (- j) = Some d
                      /\ dayComplete db d = true.

(** The number of days of the month before month [m] of year [y], as
    the award pass computes it. *)
Definition prevMonthDays (y m : Z) : Z :=
  daysInMonth (if m =? 1 then y - 1 else y) (if m =? 1 then 12 else m - 1).

(** Habit [habitId] has a completion on each day of the month before
    month [m] of year [y]. *)
Definition habitMonthDone (db : Db) (y m : Z) (habitId : string) : Prop :=
  forall k, 1 <= k <= prevMonthDays y m ->
            checkCompletion db (dayOfMonthStr (prevMonthStr y m) k) habitId
            = true.

(** Each day of the month before month [m] of year [y] is complete. *)
Definition monthComplete (db : Db) (y m : Z) : Prop :=
  forall k, 1 <= k <= prevMonthDays y m ->
            dayComplete db (dayOfMonthStr (prevMonthStr y m) k) = true.

(** What the schema keeps true of the [todos] table: the primary key
    and the check on [list]. *)
Definition todosOk (todos : list Todo) : Prop :=
  NoDup (map todo_id todos)
  /\ forall t, In t todos -> listAllowed (todo_list t) = true.

Definition sampleTodos : list Todo :=
  [mkTodo "t1" "work" "Report" "2024-01-02";
   mkTodo "t2" "home" "Laundry" "2024-01-02";
   mkTodo "t3" "work" "Slides" "2024-01-03"].

(* ================================================================= *)
(** ** Migration from the JSON file (migrate.js) *)

(** The data of the JSON file: habits in their order, the completions
    as the dates and, per date, the keys of its object, and the to-dos,
    either one array (all of them for [work]) or an object of lists. *)
Record OldHabit := mkOldHabit {
  old_id : string;
  old_name : string;
  old_createdDate : string;
  old_deleted : bool;
  old_deletedDate : option string
}.

Record OldTodo := mkOldTodo {
  otodo_id : string;
  otodo_name : string;
  otodo_createdDate : string
}.

Inductive OldTodos :=
| TodoArray (items : list OldTodo)
| TodoLists (lists : list (string * list OldTodo)).

Record Data := mkData {
  data_habits : list OldHabit;
  data_completions : list (string * list string);
  data_todos : OldTodos
}.

(** [h.deletedDate || null]: an empty text is no date either. *)
Definition orNull (v : option string) : option string :=
  match v with
  | Some EmptyString => None
  | _ => v
  end.

(** The rows the migration hands to its three [INSERT OR IGNORE]
    statements, in the order of the program. *)
Inductive MigrationRow :=
| HabitRow (i : Z) (h : OldHabit)
| CompletionRow (date habitId : string)
| TodoRow (listName : string) (t : OldTodo).

Definition migrationRows (data : Data) : list MigrationRow :=
  map (fun ih => HabitRow (Z.of_nat (fst ih)) (snd ih))
      (combine (seq 0 (List.length (data_habits data))) (data_habits data))
  ++ flat_map (fun e => map (CompletionRow (fst e)) (snd e))
              (data_completions data)
  ++ match data_todos data with
     | TodoArray items => map (TodoRow "work") items
     | TodoLists lists =>
         flat_map (fun e => map (TodoRow (fst e)) (snd e)) lists
     end.

(** [INSERT OR IGNORE] of a row: nothing happens when the primary key
    is taken or, for a to-do, when the check on [list] fails. *)
Definition insertRow (r : MigrationRow) (store : Db * list Todo)
    : Db * list Todo :=
  let '(db, todos) := store in
  match r with
  | HabitRow i h =>
      (if existsb (fun x => id x =s? old_id h) (habits db) then db
       else set_habits db
              (habits db
               ++ [mkHabit (old_id h) (old_name h) (old_createdDate h)
                           (old_deleted h) (orNull (old_deletedDate h)) i]),
       todos)
  | CompletionRow date habitId => (toggleCompletion date habitId true db, todos)
  | TodoRow listName t =>
      (db,
       if negb (listAllowed listName)
          || existsb (fun x => todo_id x =s? otodo_id t) todos
       then todos
       else todos ++ [mkTodo (otodo_id t) listName (otodo_name t)
                             (otodo_createdDate t)])
  end.

Definition migrate (data : Data) (store : Db * list Todo) : Db * list Todo :=
  fold_left (fun s r => insertRow r s) (migrationRows data) store.

(* ================================================================= *)
(** ** JS objects used as maps *)

(** The names every JS object inherits from [Object.prototype].
    Reading one of them from an object gives a value that counts as
    true, whether the object has the key as its own or not. *)
Definition protoNames : list string :=
  ["constructor"; "__defineGetter__"; "__defineSetter__"; "hasOwnProperty";
   "__lookupGetter__"; "__lookupSetter__"; "isPrototypeOf";
   "propertyIsEnumerable"; "toString"; "valueOf"; "__proto__";
   "toLocaleString"].

(** A JS object that is written and read by key: the assignments in
    their order, the latest one to a key being the value read.  Only
    keys that are none of [protoNames] are read this way. *)
Definition assign (V : Type) (key : string) (v : V) (obj : list (string * V))
    : list (string * V) :=
  obj ++ [(key, v)].

Definition own (V : Type) (obj : list (string * V)) (key : string) : option V :=
  option_map snd (find (fun e => fst e =s? key) (rev obj)).

(* ================================================================= *)
(** ** The achievements on display (getAchievements in db.js) *)

(** A row of the display: a type, how many times it was earned and
    the latest date. *)
Record Tally := mkTally {
  tally_type : string;
  tally_count : Z;
  tally_latestDate : option string
}.

(** [MAX(earned_date)]: [NULL] over no row. *)
Definition maxText (l : list string) : option string :=
  match l with
  | [] => None
  | x :: rest => Some (fold_left (fun m y => if m <=s? y then y else m) rest x)
  end.

(** [COUNT( * )] and [MAX(earned_date)] over the rows of a group. *)
Definition tallyOf (ty : string) (group : list Achievement) : Tally :=
  mkTally ty (Z.of_nat (List.length group)) (maxText (map earned_date group)).

Definition globalTypes : list string :=
  ["perfect_day"; "streak_7"; "streak_14"; "streak_21"; "perfect_month"].

Definition perHabitTypes : list string :=
  ["streak_7"; "streak_14"; "streak_21"; "perfect_month"].

(** [SELECT type, COUNT( * ), MAX(earned_date) FROM achievements
    WHERE habit_id IS NULL GROUP BY type]: one row per type. *)
Definition globalRows (db : Db) : list Tally :=
  let rows := filter (fun a => isNull (habit_id a)) (achievements db) in
  map (fun ty => tallyOf ty (filter (fun a => type a =s? ty) rows))
      (nodup string_dec (map type rows)).

(** A row of the per-habit query. *)
Record HabitTally := mkHabitTally {
  ht_habit_id : string;
  ht_name : string;
  ht_tally : Tally
}.

Definition pair_eq_dec (x y : string * string) : {x = y} + {x <> y}.
Proof. decide equality; apply string_dec. Defined.

(** [FROM achievements a JOIN habits h ON h.id = a.habit_id
    WHERE a.habit_id IS NOT NULL GROUP BY a.type, a.habit_id]: an
    achievement joins the habit that has its id, one at most by the
    primary key, and there is one row per type and habit. *)
Definition perHabitRows (db : Db) : list HabitTally :=
  let joined :=
    flat_map (fun a => match habit_id a with
                       | Some habitId =>
                           match habitRow db habitId with
                           | Some h => [(a, h)]
                           | None => []
                           end
                       | None => []
                       end) (achievements db) in
  map (fun key =>
         let group :=
           filter (fun ah => (type (fst ah) =s? fst key)
                             && (id (snd ah) =s? snd key)) joined in
         mkHabitTally (snd key)
           (match group with
            | ah :: _ => name (snd ah)
            | [] => EmptyString
            end)
           (tallyOf (fst key) (map fst group)))
      (nodup pair_eq_dec (map (fun ah => (type (fst ah), id (snd ah))) joined)).

Definition noTally (ty : string) : Tally := mkTally ty 0 None.

Definition orElse (A : Type) (v : option A) (default : A) : A :=
  match v with Some x => x | None => default end.

(** The loop that files the per-habit rows under their habit.  For an
    id among [protoNames] the entry read is an inherited value without
    [achievements], and the assignment throws: [None]. *)
Fixpoint fileRows (rows : list HabitTally)
    (perHabit : list (string * (string * list (string * Tally))))
    : option (list (string * (string * list (string * Tally)))) :=
  match rows with
  | [] => Some perHabit
  | r :: rest =>
      if existsb (fun k => k =s? ht_habit_id r) protoNames then None
      else
        let entry := orElse (own perHabit (ht_habit_id r)) (ht_name r, []) in
        fileRows rest
          (assign (ht_habit_id r)
                  (fst entry,
                   assign (tally_type (ht_tally r)) (ht_tally r) (snd entry))
                  perHabit)
  end.

(** The loop over the habits that are not deleted; it throws as the
    one before on an id among [protoNames]. *)
Fixpoint listHabits (habits : list Habit)
    (perHabit : list (string * (string * list (string * Tally))))
    (result : list (string * (string * list Tally)))
    : option (list (string * (string * list Tally))) :=
  match habits with
  | [] => Some result
  | h :: rest =>
      if existsb (fun k => k =s? id h) protoNames then None
      else
        let existing := orElse (own perHabit (id h)) (name h, []) in
        listHabits rest perHabit
          (assign (id h)
                  (name h,
                   map (fun t => orElse (own (snd existing) t) (noTally t))
                       perHabitTypes)
                  result)
  end.

(** [getAchievements()]: the global tallies, an array, and per habit
    its name and its tallies.  The second is a JS object keyed by the
    ids of the habits; it is returned as what is read from it by key,
    its own properties.  The order in which a JS object lists its keys
    is not part of this value. *)
Definition getAchievements (db : Db)
    : option (list Tally * (string -> option (string * list Tally))) :=
  let globalMap :=
    fold_left (fun obj r => assign (tally_type r) r obj) (globalRows db) [] in
  let global :=
    map (fun t => orElse (own globalMap t) (noTally t)) globalTypes in
  perHabit <- fileRows (perHabitRows db) [] ;;
  let habits :=
    order_by sort_order (filter (fun h => negb (deleted h)) (habits db)) in
  result <- listHabits habits perHabit [] ;;
  Some (global, own result).

(* ================================================================= *)
(** ** Export (getExportData in db.js, the CSV route of server.js) *)

(** The object [completions] of [getExportData]: for each date in the
    order in which the dates were first met, the keys its inner object
    holds as its own, each with the value [true]. *)
Definition DayMarks := list (string * list string).

(** [obj[habitId] = true] on an inner object.  An assignment of [true]
    to [__proto__] is without effect. *)
Definition markHabit (habitId : string) (keys : list string) : list string :=
  if habitId =s? "__proto__" then keys
  else if existsb (fun k => k =s? habitId) keys then keys
  else keys ++ [habitId].

(** [if (!completions[date]) completions[date] = {};
    completions[date][habitId] = true;] for a [date] that is not one
    of [protoNames]. *)
Fixpoint markDay (date habitId : string) (obj : DayMarks) : DayMarks :=
  match obj with
  | [] => [(date, markHabit habitId [])]
  | (d, keys) :: rest =>
      if d =s? date then (d, markHabit habitId keys) :: rest
      else (d, keys) :: markDay date habitId rest
  end.

(** [getExportData()]: the habits in their order, all of them, and the
    object of the completions.  The dates of the completions are the
    keys of that object and are then handed to [Date]: [None] when one
    of them is not a [YYYY-MM-DD] day. *)
Definition getExportData (db : Db)
    : option (list (string * string) * DayMarks) :=
  if forallb (fun c => match parseISO (fst c) with
                       | Some _ => true
                       | None => false
                       end) (completions db)
  then Some (map (fun h => (id h, name h)) (order_by sort_order (habits db)),
             fold_left (fun obj c => markDay (fst c) (snd c) obj)
                       (completions db) [])
  else None.

(** [completions[date] && completions[date][habitId]], read as a truth
    value, for a [date] that is not one of [protoNames]. *)
Definition isMarked (obj : DayMarks) (date habitId : string) : bool :=
  match find (fun e => fst e =s? date) obj with
  | None => false
  | Some (_, keys) =>
      existsb (fun k => k =s? habitId) keys
      || existsb (fun k => k =s? habitId) protoNames
  end.

(** [Array.prototype.sort()] on strings that differ: ascending, by code
    units. *)
Fixpoint insertString (x : string) (l : list string) : list string :=
  match l with
  | [] => [x]
  | y :: l' => if x <=s? y then x :: y :: l' else y :: insertString x l'
  end.

Definition sortStrings (l : list string) : list string :=
  fold_right insertString [] l.

(** [while (d <= end) { allDates.push(...); d.setDate(d.getDate() + 1); }]
    with at most [fuel] turns. *)
Fixpoint fillDates (fuel : nat) (d endDay : Day) : list string :=
  match fuel with
  | O => []
  | S fuel' =>
      if dayKey d <=? dayKey endDay
      then printDate d :: fillDates fuel' (nextDay d) endDay
      else []
  end.

(** Enough turns for the loop to end by its condition: each turn moves
    [d] on by a day. *)
Definition fillFuel (d endDay : Day) : nat :=
  Z.to_nat (dayKey endDay - dayKey d + 1).

Definition quoteChar : ascii := ascii_of_nat 34.
Definition newlineChar : ascii := ascii_of_nat 10.

(** [str.includes(c)] for a one-character [c]. *)
Fixpoint includes (c : ascii) (str : string) : bool :=
  match str with
  | EmptyString => false
  | String x rest => Ascii.eqb x c || includes c rest
  end.

(** [str.replace] of every double quote by two of them. *)
Fixpoint doubleQuotes (str : string) : string :=
  match str with
  | EmptyString => EmptyString
  | String x rest =>
      if Ascii.eqb x quoteChar
      then String quoteChar (String quoteChar (doubleQuotes rest))
      else String x (doubleQuotes rest)
  end.

Definition csvEscape (str : string) : string :=
  if includes "," str || includes quoteChar str || includes newlineChar str
  then String quoteChar (doubleQuotes str +++ String quoteChar EmptyString)
  else str.

(** [cells.join(sep)] *)
Definition join (sep : string) (cells : list string) : string :=
  String.concat sep cells.

(** The dates of the header: every day from the first date with a
    completion to the last. *)
Definition exportDates (obj : DayMarks) : option (list string) :=
  let dates := sortStrings (map fst obj) in
  d <- parseISO (hd EmptyString dates) ;;
  endDay <- parseISO (last dates EmptyString) ;;
  Some (fillDates (fillFuel d endDay) d endDay).

Definition exportRow (obj : DayMarks) (allDates : list string)
    (h : string * string) : string :=
  join "," (csvEscape (snd h)
            :: map (fun date => if isMarked obj date (fst h)
                                then "X" else EmptyString) allDates).

(** The body the route [GET /api/export/csv] sends. *)
Definition exportCsv (db : Db) : option string :=
  '(habits, obj) <- getExportData db ;;
  let dates := sortStrings (map fst obj) in
  if (List.length habits =? 0)%nat || (List.length dates =? 0)%nat
  then Some "No data to export"
  else
    allDates <- exportDates obj ;;
    let header := join "," (map csvEscape ("Habit" :: allDates)) in
    let rows := map (exportRow obj allDates) habits in
    Some (join (String newlineChar EmptyString) (header :: rows)).

(* ================================================================= *)
(** ** Vocabulary of the further properties *)

(** Reading CSV text back, as a reader of RFC 4180 that takes any of
    the usual line ends does: fields are split at commas; outside a
    quoted field a line feed, a carriage return, or a carriage return
    with the line feed after it ends the record; inside a field that
    opens with a double quote every character is kept, two double
    quotes stand for one and a single one closes the field. *)
Definition returnChar : ascii := ascii_of_nat 13.

Inductive CsvMode := AtStart | InPlain | InQuoted | AfterQuote | AfterReturn.

Fixpoint readCsv (mode : CsvMode) (field : string) (record : list string)
    (text : string) : list (list string) :=
  match text with
  | EmptyString => [record ++ [field]]
  | String c rest =>
      match mode with
      | InQuoted =>
          if Ascii.eqb c quoteChar then readCsv AfterQuote field record rest
          else readCsv InQuoted (field +++ String c EmptyString) record rest
      | _ =>
          if Ascii.eqb c quoteChar then
            match mode with
            | AtStart | AfterReturn => readCsv InQuoted field record rest
            | AfterQuote =>
                readCsv InQuoted (field +++ String c EmptyString) record rest
            | _ => readCsv InPlain (field +++ String c EmptyString) record rest
            end
          else if Ascii.eqb c "," then
            readCsv AtStart EmptyString (record ++ [field]) rest
          else if Ascii.eqb c newlineChar then
            match mode with
            | AfterReturn => readCsv AtStart EmptyString [] rest
            | _ => (record ++ [field]) :: readCsv AtStart EmptyString [] rest
            end
          else if Ascii.eqb c returnChar then
            (record ++ [field]) :: readCsv AfterReturn EmptyString [] rest
          else readCsv InPlain (field +++ String c EmptyString) record rest
      end
  end.

(** A string that [csvEscape] writes without quotes although it holds
    a carriage return. *)
Definition bareReturn (str : string) : bool :=
  includes returnChar str
  && negb (includes "," str || includes quoteChar str
           || includes newlineChar str).

Definition parseCsv (text : string) : list (list string) :=
  readCsv AtStart EmptyString [] text.

(** The grid the export writes: the header, then one record per habit
    with its name and a mark per date. *)
Definition exportGrid (habits : list (string * string)) (obj : DayMarks)
    (allDates : list string) : list (list string) :=
  ("Habit" :: allDates)
  :: map (fun h => snd h
                   :: map (fun date => if isMarked obj date (fst h)
                                       then "X" else EmptyString) allDates)
         habits.

(** A habit whose name holds a comma, completed on two days with a gap
    between them. *)
Definition commaNameDb : Db :=
  mkDb [mkHabit "A" "Run, fast" "2024-01-01" false None 0]
       [("2024-01-03", "A"); ("2024-01-01", "A")] [].

(** A habit whose name holds a carriage return and nothing else that
    [csvEscape] looks for. *)
Definition returnNameDb : Db :=
  mkDb [mkHabit "A" ("Run" +++ String returnChar "fast") "2024-01-01"
                false None 0]
       [("2024-01-01", "A")] [].

(** The dates on which achievements of type [ty] were earned, by habit
    [who] or, for [None], globally, one per row of the table. *)
Definition earnedDates (db : Db) (ty : string) (who : option string)
    : list string :=
  map earned_date
      (filter (fun a => (type a =s? ty)
                        && match who with
                           | None => isNull (habit_id a)
                           | Some habitId => habitIs habitId a
                           end) (achievements db)).

(** What is on display for a type earned on [dates]. *)
Definition display (ty : string) (dates : list string) : Tally :=
  mkTally ty (Z.of_nat (List.length dates)) (maxText dates).

(** The key of a row is taken, or the row fails the check: the row
    will be ignored. *)
Definition ignored (r : MigrationRow) (store : Db * list Todo) : Prop :=
  match r with
  | HabitRow _ h => In (old_id h) (map id (habits (fst store)))
  | CompletionRow date habitId => In (date, habitId) (completions (fst store))
  | TodoRow listName t =>
      listAllowed listName = false
      \/ In (otodo_id t) (map todo_id (snd store))
  end.

(** The row a habit of the file becomes, at its place in the file. *)
Definition migratedHabit (ih : nat * OldHabit) : Habit :=
  mkHabit (old_id (snd ih)) (old_name (snd ih)) (old_createdDate (snd ih))
          (old_deleted (snd ih)) (orNull (old_deletedDate (snd ih)))
          (Z.of_nat (fst ih)).

(** Habit [habitId] has a completion on each of the [n] days that
    start [from] days before day [c] and go back from there, each
    looked up under the date the program prints for it. *)
Definition completedOnDays (db : Db) (habitId : string) (c : Day)
    (from n : Z) : Prop :=
  forall j, from <= j < from + n ->
            checkCompletion db (printDate (addDays c (- j))) habitId = true.

(** Each of the [N] days that end on day [c] is complete. *)
Definition daysComplete (db : Db) (c : Day) (N : Z) : Prop :=
  forall j, 0 <= j < N ->
            dayComplete db (printDate (addDays c (- j))) = true.

(** Habit [habitId] has a completion on each day of month [pm] of year
    [py]. *)
Definition habitMonthCompleted (db : Db) (py pm : Z) (habitId : string)
    : Prop :=
  forall k, 1 <= k <= monthLength py pm ->
            checkCompletion db (printDate (py, pm, k)) habitId = true.

(** Each day of month [pm] of year [py] is complete. *)
Definition monthDaysComplete (db : Db) (py pm : Z) : Prop :=
  forall k, 1 <= k <= monthLength py pm ->
            dayComplete db (printDate (py, pm, k)) = true.

(** The last week of the year 9999: A's [streak_7] and a global
    [streak_7], both earned within the week that starts on 9999-12-28. *)
Definition lastWeekDb : Db :=
  mkDb [habitA] []
       [mkAchievement "streak_7" (Some "A") "9999-12-30";
        mkAchievement "streak_7" None "9999-12-31"].

(** Awards of the years 2024 and 9000, in a store where a day of the
    year 999 is then un-completed. *)
Definition farAwardsDb : Db :=
  mkDb [habitA] []
       [mkAchievement "streak_7" (Some "A") "2024-01-07";
        mkAchievement "streak_21" None "9000-12-31"].

(* ================================================================= *)
(** * Properties *)

Unset Implicit Arguments.

(* ----------------------------------------------------------------- *)
(** ** Text order *)

Lemma leb_false_ltb (a b : string) : (a <=s? b) = false <-> (b <s? a) = true.
Proof.
  unfold String.leb, String.ltb.
  rewrite (String.compare_antisym b a).
  destruct (String.compare a b); simpl; split; congruence.
Qed.

Lemma ltb_false_leb (a b : string) : (a <s? b) = false <-> (b <=s? a) = true.
Proof.
  unfold String.leb, String.ltb.
  rewrite (String.compare_antisym a b).
  destruct (String.compare b a); simpl; split; congruence.
Qed.

(* ----------------------------------------------------------------- *)
(** ** Lists and tables *)

Lemma Db_eta (db : Db) :
  mkDb (habits db) (completions db) (achievements db) = db.
Proof. now destruct db. Qed.

Lemma filter_all (A : Type) (f : A -> bool) (l : list A) :
  (forall x, In x l -> f x = true) -> filter f l = l.
Proof.
  induction l as [|x l IH]; simpl; intros H; [reflexivity|].
  rewrite (H x (or_introl eq_refl)). f_equal. apply IH. intros; apply H; now right.
Qed.

Lemma filter_filter (A : Type) (f g : A -> bool) (l : list A) :
  filter f (filter g l) = filter (fun x => g x && f x) l.
Proof.
  induction l as [|x l IH]; simpl; [reflexivity|].
  destruct (g x); simpl; [destruct (f x)|]; now rewrite IH.
Qed.

Lemma insert_by_In (A : Type) (key : A -> Z) (x y : A) (l : list A) :
  In y (insert_by key x l) <-> y = x \/ In y l.
Proof.
  induction l as [|z l IH]; simpl.
  - intuition.
  - destruct (key x <=? key z); simpl; rewrite ?IH; intuition.
Qed.

Lemma order_by_In (A : Type) (key : A -> Z) (y : A) (l : list A) :
  In y (order_by key l) <-> In y l.
Proof.
  induction l as [|x l IH]; simpl; [tauto|].
  rewrite insert_by_In, IH. intuition.
Qed.

Lemma checkCompletion_In (db : Db) (date habitId : string) :
  checkCompletion db date habitId = true <-> In (date, habitId) (completions db).
Proof.
  unfold checkCompletion. rewrite existsb_exists. split.
  - intros [[d h] [Hin Hc]]. simpl in Hc.
    apply andb_true_iff in Hc as [Hd Hh].
    apply String.eqb_eq in Hd, Hh. now subst.
  - intros Hin. exists (date, habitId). split; [assumption|].
    simpl. now rewrite !String.eqb_refl.
Qed.

Lemma find_by_id (l : list Habit) (h : Habit) :
  NoDup (map id l) -> In h l ->
  find (fun x => id x =s? id h) l = Some h.
Proof.
  induction l as [|x l IH]; simpl; intros Hnd Hin; [contradiction|].
  inversion Hnd as [|? ? Hx Hnd']; subst.
  destruct Hin as [->|Hin].
  - now rewrite String.eqb_refl.
  - destruct (String.eqb_spec (id x) (id h)) as [E|_].
    + exfalso. apply Hx. rewrite E. now apply in_map.
    + now apply IH.
Qed.

(* ----------------------------------------------------------------- *)
(** ** Reading dates *)

Lemma digitVal_range (c : ascii) (v : Z) :
  digitVal c = Some v -> 0 <= v <= 9.
Proof.
  unfold digitVal.
  destruct ((48 <=? _) && (_ <=? 57)) eqn:E; [|discriminate].
  intros [= <-]. apply andb_true_iff in E as [E1 E2]. lia.
Qed.

Lemma parseISO_valid (s : string) (y m d : Z) :
  parseISO s = Some (y, m, d) ->
  0 <= y <= 9999 /\ 1 <= m <= 12 /\ 1 <= d <= monthLength y m.
Proof.
  unfold parseISO.
  destruct (list_ascii_of_string s)
    as [|y1 [|y2 [|y3 [|y4 [|s1 [|m1 [|m2 [|s2 [|d1 [|d2 [|]]]]]]]]]]];
    try discriminate.
  destruct (digitVal y1) as [a|] eqn:Ea; [|discriminate].
  destruct (digitVal y2) as [b|] eqn:Eb; [|discriminate].
  destruct (digitVal y3) as [c|] eqn:Ec; [|discriminate].
  destruct (digitVal y4) as [e|] eqn:Ee; [|discriminate].
  destruct (digitVal m1) as [f|] eqn:Ef; [|discriminate].
  destruct (digitVal m2) as [g|] eqn:Eg; [|discriminate].
  destruct (digitVal d1) as [i|] eqn:Ei; [|discriminate].
  destruct (digitVal d2) as [j|] eqn:Ej; [|discriminate].
  apply digitVal_range in Ea, Eb, Ec, Ee.
  cbv zeta.
  set (Y := 1000 * a + 100 * b + 10 * c + e).
  set (M := 10 * f + g). set (DD := 10 * i + j).
  destruct (_ && _) eqn:E; [|discriminate].
  intros Heq. assert (Y = y /\ M = m /\ DD = d) as (<- & <- & <-)
    by (repeat split; congruence).
  repeat (apply andb_true_iff in E; destruct E as [E ?]).
  subst Y. lia.
Qed.

Lemma append_assoc (a b c : string) : (a +++ b) +++ c = a +++ (b +++ c).
Proof. induction a as [|x a IH]; simpl; [reflexivity | now rewrite IH]. Qed.

Lemma shiftDateStr_total (dateStr : string) (days : Z) (c : Day) :
  parseISO dateStr = Some c ->
  shiftDateStr dateStr days = Some (printDate (addDays c days)).
Proof. unfold shiftDateStr. now intros ->. Qed.

(* ----------------------------------------------------------------- *)
(** ** Printing and reading dates back *)

Lemma countFrom_In (from count z : Z) :
  In z (countFrom from count) <-> from <= z < from + count.
Proof.
  unfold countFrom. rewrite in_map_iff. split.
  - intros [k [<- Hk]]. apply in_seq in Hk. lia.
  - intros Hz. exists (Z.to_nat (z - from)). split; [lia|].
    apply in_seq. lia.
Qed.

Lemma forall_countFrom (P : Z -> bool) (from count : Z) :
  forallb P (countFrom from count) = true ->
  forall z, from <= z < from + count -> P z = true.
Proof.
  intros H z Hz. rewrite forallb_forall in H. apply H.
  now apply countFrom_In.
Qed.

Lemma padStart_twoDigits (n : Z) :
  0 <= n <= 99 -> padStart 2 "0" (numberToString n) = twoDigits n.
Proof.
  intros Hn. apply String.eqb_eq.
  apply (forall_countFrom
           (fun n => padStart 2 "0" (numberToString n) =s? twoDigits n) 0 100);
    [vm_compute; reflexivity | lia].
Qed.

Lemma parseNumber_fourDigits (n : Z) :
  0 <= n <= 9999 -> parseNumber (fourDigits n) = Some n.
Proof.
  intros Hn.
  assert (H : (match parseNumber (fourDigits n) with
               | Some v => v =? n | None => false end) = true).
  { apply (forall_countFrom
             (fun n => match parseNumber (fourDigits n) with
                       | Some v => v =? n | None => false end) 0 10000);
      [vm_compute; reflexivity | lia]. }
  destruct (parseNumber (fourDigits n)) as [v|]; [|discriminate].
  apply Z.eqb_eq in H. now subst.
Qed.

Lemma parseNumber_numberToString (n : Z) :
  parseNumber (numberToString n) = Some n.
Proof.
  unfold parseNumber, numberToString.
  rewrite NilZero.isi.
  - simpl. now rewrite DecimalZ.of_to.
  - destruct n; simpl; try discriminate.
    intros [= H]. now apply DecimalPos.Unsigned.to_uint_nonnil in H.
  - destruct n; simpl; try discriminate.
    intros [= H]. now apply DecimalPos.Unsigned.to_uint_nonnil in H.
Qed.

Lemma digitVal_digitChar (k : Z) :
  0 <= k <= 9 -> digitVal (digitChar k) = Some k.
Proof.
  intros Hk.
  assert (H : k = 0 \/ k = 1 \/ k = 2 \/ k = 3 \/ k = 4 \/ k = 5 \/ k = 6
              \/ k = 7 \/ k = 8 \/ k = 9) by lia.
  repeat (destruct H as [->|H]; [reflexivity|]). now subst.
Qed.

Lemma digitVal_inv (c : ascii) (k : Z) :
  digitVal c = Some k -> c = digitChar k.
Proof.
  unfold digitVal, digitChar.
  destruct ((48 <=? _) && (_ <=? 57)) eqn:E; [|discriminate].
  intros [= <-].
  replace (48 + (Z.of_N (N_of_ascii c) - 48)) with (Z.of_N (N_of_ascii c))
    by lia.
  now rewrite N2Z.id, ascii_N_embedding.
Qed.

Lemma length_append (a b : string) :
  String.length (a +++ b) = (String.length a + String.length b)%nat.
Proof. induction a as [|x a IH]; simpl; [reflexivity | now rewrite IH]. Qed.

Lemma length_list_ascii (s : string) :
  List.length (list_ascii_of_string s) = String.length s.
Proof. induction s as [|x s IH]; simpl; [reflexivity | now rewrite IH]. Qed.

Lemma parseISO_length (s : string) (c : Day) :
  parseISO s = Some c -> String.length s = 10%nat.
Proof.
  unfold parseISO. rewrite <- length_list_ascii.
  destruct (list_ascii_of_string s)
    as [|y1 [|y2 [|y3 [|y4 [|s1 [|m1 [|m2 [|s2 [|d1 [|d2 [|]]]]]]]]]]];
    try discriminate.
  reflexivity.
Qed.

(** A four-character numeral made of digits is the numeral of the
    number its digits spell. *)
Lemma numberToString_four (y : Z) (y1 y2 y3 y4 : ascii) (a b c e : Z) :
  numberToString y = String y1 (String y2 (String y3 (String y4 EmptyString))) ->
  digitVal y1 = Some a -> digitVal y2 = Some b ->
  digitVal y3 = Some c -> digitVal y4 = Some e ->
  1000 * a + 100 * b + 10 * c + e = y.
Proof.
  intros Ey Ha Hb Hc He.
  pose proof (digitVal_range _ _ Ha). pose proof (digitVal_range _ _ Hb).
  pose proof (digitVal_range _ _ Hc). pose proof (digitVal_range _ _ He).
  apply digitVal_inv in Ha, Hb, Hc, He. subst y1 y2 y3 y4.
  set (v := 1000 * a + 100 * b + 10 * c + e).
  assert (Ev : numberToString y = fourDigits v).
  { rewrite Ey. unfold fourDigits, twoDigits.
    replace (v / 1000) with a by (subst v; Z.div_mod_to_equations; lia).
    replace (v / 100 mod 10) with b by (subst v; Z.div_mod_to_equations; lia).
    replace (v mod 100 / 10) with c by (subst v; Z.div_mod_to_equations; lia).
    replace (v mod 100 mod 10) with e by (subst v; Z.div_mod_to_equations; lia).
    reflexivity. }
  pose proof (parseNumber_numberToString y) as P1.
  rewrite Ev, parseNumber_fourDigits in P1 by (subst v; lia).
  congruence.
Qed.

(** Reading back a printed day gives that day, or fails (when the year
    does not print as four digits). *)
Lemma parseISO_printDate (y m d : Z) (c' : Day) :
  1 <= m <= 12 -> 1 <= d <= 31 ->
  parseISO (printDate (y, m, d)) = Some c' -> c' = (y, m, d).
Proof.
  intros Hm Hd Hp.
  pose proof (parseISO_length _ _ Hp) as Hlen.
  revert Hp Hlen. unfold printDate.
  rewrite !padStart_twoDigits by lia.
  rewrite length_append.
  destruct (numberToString y) as [|y1 [|y2 [|y3 [|y4 [|y5 r]]]]] eqn:Ey;
    simpl String.length; try (intros _ Hlen; simpl in Hlen; lia).
  intros Hp _. revert Hp.
  unfold parseISO, twoDigits. simpl list_ascii_of_string. cbv beta iota.
  destruct (digitVal y1) as [a|] eqn:Ea; [|discriminate].
  destruct (digitVal y2) as [b|] eqn:Eb; [|discriminate].
  destruct (digitVal y3) as [c|] eqn:Ec; [|discriminate].
  destruct (digitVal y4) as [e|] eqn:Ee; [|discriminate].
  rewrite !digitVal_digitChar by (Z.div_mod_to_equations; lia).
  cbv zeta.
  rewrite (numberToString_four y y1 y2 y3 y4 a b c e Ey Ea Eb Ec Ee).
  replace (10 * (m / 10) + m mod 10) with m by (Z.div_mod_to_equations; lia).
  replace (10 * (d / 10) + d mod 10) with d by (Z.div_mod_to_equations; lia).
  destruct (_ && _); [|discriminate]. now intros [= <-].
Qed.

(* ----------------------------------------------------------------- *)
(** ** The backward walk ends *)

Lemma monthLength_range (y m : Z) : 28 <= monthLength y m <= 31.
Proof.
  unfold monthLength.
  destruct (m =? 2); [destruct (isLeap y); lia|].
  destruct ((m =? 4) || (m =? 6) || (m =? 9) || (m =? 11)); lia.
Qed.

Lemma prevDay_valid (c : Day) : validDay c -> validDay (prevDay c).
Proof.
  destruct c as [[y m] d]. unfold validDay, prevDay. intros [Hm Hd].
  destruct (Z.ltb_spec 1 d); [lia|].
  destruct (Z.ltb_spec 1 m).
  - pose proof (monthLength_range y (m - 1)). lia.
  - unfold monthLength. simpl. lia.
Qed.

Lemma prevDay_key (c : Day) : validDay c -> dayKey (prevDay c) < dayKey c.
Proof.
  destruct c as [[y m] d]. unfold validDay, prevDay, dayKey. intros [Hm Hd].
  destruct (Z.ltb_spec 1 d); [lia|].
  destruct (Z.ltb_spec 1 m).
  - pose proof (monthLength_range y (m - 1)). lia.
  - lia.
Qed.

Lemma parseISO_validDay (s : string) (c : Day) :
  parseISO s = Some c -> validDay c.
Proof.
  destruct c as [[y m] d]. intros H.
  apply parseISO_valid in H. unfold validDay. tauto.
Qed.

Lemma shiftDateStr_back (s : string) (c : Day) :
  parseISO s = Some c ->
  shiftDateStr s (-1) = Some (printDate (prevDay c)).
Proof. intros H. now rewrite (shiftDateStr_total s (-1) c H). Qed.

(** One step back from a calendar day is a string that reads, if it
    reads at all, as an earlier day. *)
Lemma shiftDateStr_back_key (s s' : string) (c c' : Day) :
  parseISO s = Some c -> shiftDateStr s (-1) = Some s' ->
  parseISO s' = Some c' -> dayKey c' < dayKey c.
Proof.
  intros Hs Hshift Hs'.
  rewrite (shiftDateStr_back s c Hs) in Hshift. injection Hshift as <-.
  pose proof (parseISO_validDay s c Hs) as Hv.
  pose proof (prevDay_valid c Hv) as Hv'.
  pose proof (prevDay_key c Hv) as Hk.
  destruct (prevDay c) as [[y m] d] eqn:E.
  destruct Hv' as [Hm Hd]. pose proof (monthLength_range y m).
  rewrite (parseISO_printDate y m d c') in * by (assumption || lia).
  exact Hk.
Qed.

(** A walk that uses up its fuel has read that many different rows of
    [completions], all dated no later than its starting day. *)
Lemma countBack_exhausted (db : Db) (habitId : string) :
  wfCompletions db ->
  forall fuel checkDay acc,
    countBack fuel db habitId checkDay acc = None ->
    exists trail,
      List.length trail = fuel /\ NoDup trail
      /\ forall d, In d trail ->
           In (d, habitId) (completions db)
           /\ exists k kc, parseISO d = Some k /\ parseISO checkDay = Some kc
                           /\ dayKey k <= dayKey kc.
Proof.
  intros Hwf. induction fuel as [|fuel IH]; intros checkDay acc Hrun.
  - exists []. split; [reflexivity|]. split; [constructor|]. intros d [].
  - simpl in Hrun.
    destruct (checkCompletion db checkDay habitId) eqn:Hdone; [|discriminate].
    apply checkCompletion_In in Hdone.
    destruct (parseISO checkDay) as [kc|] eqn:Hkc;
      [|now apply Hwf in Hdone].
    rewrite (shiftDateStr_back checkDay kc Hkc) in Hrun.
    apply IH in Hrun as (trail & Hlen & Hnd & Htrail).
    assert (Hbelow : forall d, In d trail ->
              exists k, parseISO d = Some k /\ dayKey k < dayKey kc).
    { intros d Hd. apply Htrail in Hd as (_ & k & k1 & Hk & Hk1 & Hle).
      exists k. split; [exact Hk|].
      pose proof (shiftDateStr_back_key checkDay _ kc k1 Hkc
                    (shiftDateStr_back checkDay kc Hkc) Hk1).
      lia. }
    exists (checkDay :: trail). split; [simpl; congruence|]. split.
    + constructor; [|exact Hnd].
      intros Hin. apply Hbelow in Hin as (k & Hk & Hlt).
      rewrite Hkc in Hk. injection Hk as <-. lia.
    + intros d [<-|Hd].
      * split; [exact Hdone|]. exists kc, kc. repeat split; auto. lia.
      * split; [now apply Htrail|].
        apply Hbelow in Hd as (k & Hk & Hlt).
        exists k, kc. repeat split; auto. lia.
Qed.

(** With every completion dated by a calendar day, the walk returns. *)
Lemma countBack_returns (db : Db) (habitId checkDay : string) (acc : Z) :
  wfCompletions db ->
  exists n, countBack (walkFuel db) db habitId checkDay acc = Some n.
Proof.
  intros Hwf.
  destruct (countBack (walkFuel db) db habitId checkDay acc) as [n|] eqn:E;
    [now exists n|].
  exfalso.
  apply (countBack_exhausted db habitId Hwf) in E
    as (trail & Hlen & Hnd & Htrail).
  assert (Hle : (List.length (map (fun d => (d, habitId)) trail)
                 <= List.length (completions db))%nat).
  { apply NoDup_incl_length.
    - apply Finite.Injective_map_NoDup; [|exact Hnd].
      intros a b [= ->]. reflexivity.
    - intros p Hp. apply in_map_iff in Hp as (d & <- & Hd).
      now apply Htrail. }
  rewrite length_map, Hlen in Hle. unfold walkFuel in Hle. lia.
Qed.

(* ----------------------------------------------------------------- *)
(** ** Text order and calendar order

    For years of four digits the program prints a day as [YYYY-MM-DD],
    and on such strings the order of text is the order of days.  A year
    from 10000 on prints with five digits and sorts before them. *)

Lemma numberToString_fourDigits (y : Z) :
  1000 <= y <= 9999 -> numberToString y = fourDigits y.
Proof.
  intros Hy. apply String.eqb_eq.
  apply (forall_countFrom (fun y => numberToString y =s? fourDigits y)
                          1000 9000);
    [vm_compute; reflexivity | lia].
Qed.

Lemma printDate_iso (y m d : Z) :
  1000 <= y <= 9999 -> 1 <= m <= 12 -> 1 <= d <= 31 ->
  printDate (y, m, d)
  = fourDigits y +++ "-" +++ twoDigits m +++ "-" +++ twoDigits d.
Proof.
  intros Hy Hm Hd. unfold printDate.
  now rewrite numberToString_fourDigits, !padStart_twoDigits by lia.
Qed.

Lemma compare_digitChar (i j : Z) :
  0 <= i <= 9 -> 0 <= j <= 9 ->
  Ascii.compare (digitChar i) (digitChar j) = (i ?= j).
Proof.
  intros Hi Hj.
  assert (Ei : i = 0 \/ i = 1 \/ i = 2 \/ i = 3 \/ i = 4 \/ i = 5 \/ i = 6
               \/ i = 7 \/ i = 8 \/ i = 9) by lia.
  assert (Ej : j = 0 \/ j = 1 \/ j = 2 \/ j = 3 \/ j = 4 \/ j = 5 \/ j = 6
               \/ j = 7 \/ j = 8 \/ j = 9) by lia.
  repeat (destruct Ei as [->|Ei]);
    repeat (destruct Ej as [->|Ej]); subst; reflexivity.
Qed.

(** A number below 10000 and its four digits. *)
Lemma four_digits_of (y : Z) :
  0 <= y <= 9999 ->
  exists a b c e,
    0 <= a <= 9 /\ 0 <= b <= 9 /\ 0 <= c <= 9 /\ 0 <= e <= 9
    /\ y = 1000 * a + 100 * b + 10 * c + e
    /\ fourDigits y
       = String (digitChar a) (String (digitChar b)
           (String (digitChar c) (String (digitChar e) EmptyString))).
Proof.
  intros Hy.
  exists (y / 1000), (y / 100 mod 10), (y mod 100 / 10), (y mod 100 mod 10).
  repeat split; try reflexivity; Z.div_mod_to_equations; lia.
Qed.

Lemma two_digits_of (n : Z) :
  0 <= n <= 99 ->
  exists a b,
    0 <= a <= 9 /\ 0 <= b <= 9 /\ n = 10 * a + b
    /\ twoDigits n = String (digitChar a) (String (digitChar b) EmptyString).
Proof.
  intros Hn. exists (n / 10), (n mod 10).
  repeat split; try reflexivity; Z.div_mod_to_equations; lia.
Qed.

Ltac by_digit :=
  match goal with
  | |- context [Ascii.compare (digitChar ?i) (digitChar ?j)] =>
      rewrite (compare_digitChar i j) by lia;
      destruct (Z.compare_spec i j);
      [subst | symmetry; apply Z.compare_lt_iff; lia
             | symmetry; apply Z.compare_gt_iff; lia]
  end.

Lemma compare_printDate (c1 c2 : Day) :
  validDay c1 -> validDay c2 ->
  1000 <= fst (fst c1) <= 9999 -> 1000 <= fst (fst c2) <= 9999 ->
  String.compare (printDate c1) (printDate c2) = (dayKey c1 ?= dayKey c2).
Proof.
  destruct c1 as [[y1 m1] d1], c2 as [[y2 m2] d2]. simpl fst.
  intros [Hm1 Hd1] [Hm2 Hd2] Hy1 Hy2.
  pose proof (monthLength_range y1 m1). pose proof (monthLength_range y2 m2).
  rewrite !printDate_iso by lia.
  destruct (four_digits_of y1) as (a1 & b1 & c1 & e1 & ? & ? & ? & ? & -> & ->);
    [lia|].
  destruct (four_digits_of y2) as (a2 & b2 & c2 & e2 & ? & ? & ? & ? & -> & ->);
    [lia|].
  destruct (two_digits_of m1) as (f1 & g1 & ? & ? & -> & ->); [lia|].
  destruct (two_digits_of m2) as (f2 & g2 & ? & ? & -> & ->); [lia|].
  destruct (two_digits_of d1) as (i1 & j1 & ? & ? & -> & ->); [lia|].
  destruct (two_digits_of d2) as (i2 & j2 & ? & ? & -> & ->); [lia|].
  unfold dayKey. simpl String.append. cbn [String.compare].
  do 4 by_digit.
  change (Ascii.compare "-" "-") with Eq. cbv iota.
  do 2 by_digit.
  change (Ascii.compare "-" "-") with Eq. cbv iota.
  do 2 by_digit.
  symmetry. apply Z.compare_eq_iff. reflexivity.
Qed.

Lemma parseISO_sound (s : string) (y m d : Z) :
  parseISO s = Some (y, m, d) ->
  s = fourDigits y +++ "-" +++ twoDigits m +++ "-" +++ twoDigits d.
Proof.
  intros Hp. rewrite <- (string_of_list_ascii_of_string s).
  revert Hp. unfold parseISO.
  destruct (list_ascii_of_string s)
    as [|y1 [|y2 [|y3 [|y4 [|s1 [|m1 [|m2 [|s2 [|d1 [|d2 [|]]]]]]]]]]];
    try discriminate.
  destruct (digitVal y1) as [a|] eqn:Ea; [|discriminate].
  destruct (digitVal y2) as [b|] eqn:Eb; [|discriminate].
  destruct (digitVal y3) as [c|] eqn:Ec; [|discriminate].
  destruct (digitVal y4) as [e|] eqn:Ee; [|discriminate].
  destruct (digitVal m1) as [f|] eqn:Ef; [|discriminate].
  destruct (digitVal m2) as [g|] eqn:Eg; [|discriminate].
  destruct (digitVal d1) as [i|] eqn:Ei; [|discriminate].
  destruct (digitVal d2) as [j|] eqn:Ej; [|discriminate].
  pose proof (digitVal_range _ _ Ea). pose proof (digitVal_range _ _ Eb).
  pose proof (digitVal_range _ _ Ec). pose proof (digitVal_range _ _ Ee).
  pose proof (digitVal_range _ _ Ef). pose proof (digitVal_range _ _ Eg).
  pose proof (digitVal_range _ _ Ei). pose proof (digitVal_range _ _ Ej).
  apply digitVal_inv in Ea, Eb, Ec, Ee, Ef, Eg, Ei, Ej. subst.
  cbv zeta.
  set (Y := 1000 * a + 100 * b + 10 * c + e).
  set (M := 10 * f + g). set (DD := 10 * i + j).
  destruct (_ && _) eqn:E; [|discriminate].
  intros Heq. assert (Y = y /\ M = m /\ DD = d) as (<- & <- & <-)
    by (repeat split; congruence).
  repeat (apply andb_true_iff in E; destruct E as [E ?]).
  apply Ascii.eqb_eq in E. unfold isDash in *.
  match goal with H : Ascii.eqb s2 _ = true |- _ => apply Ascii.eqb_eq in H end.
  subst s1 s2. unfold fourDigits, twoDigits. simpl.
  replace (Y / 1000) with a by (subst Y; Z.div_mod_to_equations; lia).
  replace (Y / 100 mod 10) with b by (subst Y; Z.div_mod_to_equations; lia).
  replace (Y mod 100 / 10) with c by (subst Y; Z.div_mod_to_equations; lia).
  replace (Y mod 100 mod 10) with e by (subst Y; Z.div_mod_to_equations; lia).
  replace (M / 10) with f by (subst M; Z.div_mod_to_equations; lia).
  replace (M mod 10) with g by (subst M; Z.div_mod_to_equations; lia).
  replace (DD / 10) with i by (subst DD; Z.div_mod_to_equations; lia).
  replace (DD mod 10) with j by (subst DD; Z.div_mod_to_equations; lia).
  reflexivity.
Qed.

(** From year 1000 on, a date string is what the program prints for
    the day it reads as. *)
Lemma parseISO_printed (s : string) (c : Day) :
  parseISO s = Some c -> 1000 <= fst (fst c) -> s = printDate c.
Proof.
  destruct c as [[y m] d]. cbn [fst]. intros Hp Hy.
  pose proof (parseISO_valid _ _ _ _ Hp) as (Hy' & Hm & Hd).
  pose proof (monthLength_range y m).
  rewrite printDate_iso by lia. now apply parseISO_sound.
Qed.

Lemma nextDay_valid (c : Day) : validDay c -> validDay (nextDay c).
Proof.
  destruct c as [[y m] d]. unfold validDay, nextDay. intros [Hm Hd].
  destruct (Z.ltb_spec d (monthLength y m)); [lia|].
  destruct (Z.ltb_spec m 12).
  - pose proof (monthLength_range y (m + 1)). lia.
  - pose proof (monthLength_range (y + 1) 1). lia.
Qed.

Lemma nextDay_key (c : Day) :
  validDay c ->
  dayKey c < dayKey (nextDay c) /\ fst (fst c) <= fst (fst (nextDay c)).
Proof.
  destruct c as [[y m] d]. unfold validDay, nextDay, dayKey. intros [Hm Hd].
  pose proof (monthLength_range y m).
  destruct (Z.ltb_spec d (monthLength y m)); [simpl; lia|].
  destruct (Z.ltb_spec m 12); simpl; lia.
Qed.

Lemma iter_nextDay (n : nat) (c : Day) :
  validDay c ->
  validDay (Nat.iter n nextDay c)
  /\ dayKey c <= dayKey (Nat.iter n nextDay c)
  /\ fst (fst c) <= fst (fst (Nat.iter n nextDay c)).
Proof.
  intros Hv. induction n as [|n (Hv' & Hk & Hy)]; simpl.
  - repeat split; [assumption | lia | lia].
  - pose proof (nextDay_key _ Hv') as [Hk' Hy'].
    split; [now apply nextDay_valid|]. lia.
Qed.

Lemma addDays_later (c : Day) (k n : Z) :
  validDay c -> 0 <= k <= n ->
  validDay (addDays c k)
  /\ dayKey c <= dayKey (addDays c k) <= dayKey (addDays c n)
  /\ fst (fst c) <= fst (fst (addDays c k)) <= fst (fst (addDays c n)).
Proof.
  intros Hv Hk. unfold addDays.
  destruct (Z.leb_spec 0 k); [|lia]. destruct (Z.leb_spec 0 n); [|lia].
  replace (Z.to_nat n) with ((Z.to_nat n - Z.to_nat k) + Z.to_nat k)%nat
    by lia.
  rewrite Nat.iter_add.
  destruct (iter_nextDay (Z.to_nat k) c Hv) as (Hvk & Hkk & Hyk).
  destruct (iter_nextDay (Z.to_nat n - Z.to_nat k) _ Hvk) as (_ & Hkn & Hyn).
  repeat split; assumption.
Qed.

Lemma leb_printDate (c1 c2 : Day) :
  validDay c1 -> validDay c2 ->
  1000 <= fst (fst c1) <= 9999 -> 1000 <= fst (fst c2) <= 9999 ->
  (printDate c1 <=s? printDate c2) = (dayKey c1 <=? dayKey c2).
Proof.
  intros V1 V2 Y1 Y2. unfold String.leb, Z.leb.
  now rewrite compare_printDate.
Qed.

(** From year 1000 on and as long as the years keep four digits, the
    window of [n] days that starts on [D] holds the days [D],
    [D + 1], ..., [D + (n - 1)] of the calendar, ... *)
Lemma calendar_days_inWindow (D : string) (c : Day) (n k : Z) :
  parseISO D = Some c ->
  1000 <= fst (fst c) -> fst (fst (addDays c (n - 1))) <= 9999 ->
  0 <= k <= n - 1 ->
  inWindow D n (printDate (addDays c k)).
Proof.
  intros Hp Hlo Hhi Hk.
  pose proof (parseISO_validDay _ _ Hp) as Hv.
  destruct (addDays_later c k (n - 1) Hv Hk) as (Vk & Kk & Yk).
  destruct (addDays_later c (n - 1) (n - 1) Hv) as (Vn & _ & _); [lia|].
  exists (printDate (addDays c (n - 1))).
  split; [now apply shiftDateStr_total|].
  rewrite (parseISO_printed D c Hp Hlo) at 1.
  rewrite !leb_printDate by (assumption || lia).
  split; apply Z.leb_le; lia.
Qed.

(** ... and no day before [D] or after [D + (n - 1)]. *)
Lemma calendar_days_outside (D : string) (c e : Day) (n : Z) :
  parseISO D = Some c ->
  1000 <= fst (fst c) -> fst (fst (addDays c (n - 1))) <= 9999 ->
  1 <= n ->
  validDay e -> 1000 <= fst (fst e) <= 9999 ->
  dayKey e < dayKey c \/ dayKey (addDays c (n - 1)) < dayKey e ->
  ~ inWindow D n (printDate e).
Proof.
  intros Hp Hlo Hhi Hn Ve Ye Hout (endDate & Hend & H1 & H2).
  pose proof (parseISO_validDay _ _ Hp) as Hv.
  destruct (addDays_later c (n - 1) (n - 1) Hv) as (Vn & _ & Yn); [lia|].
  rewrite (shiftDateStr_total D (n - 1) c Hp) in Hend.
  injection Hend as <-.
  rewrite (parseISO_printed D c Hp Hlo) in H1.
  rewrite leb_printDate in H1, H2 by (assumption || lia).
  apply Z.leb_le in H1, H2. lia.
Qed.

(** The week that starts on 2024-02-26 runs over the leap day into
    March: 2024-03-03 is its last day, 2024-03-04 is outside. *)
Example window_over_leap_day :
  inWindow "2024-02-26" 7 "2024-02-29"
  /\ inWindow "2024-02-26" 7 "2024-03-03"
  /\ ~ inWindow "2024-02-26" 7 "2024-03-04".
Proof.
  split; [|split].
  - apply (calendar_days_inWindow "2024-02-26" (2024, 2, 26) 7 3);
      [reflexivity | now vm_compute | now vm_compute | lia].
  - apply (calendar_days_inWindow "2024-02-26" (2024, 2, 26) 7 6);
      [reflexivity | now vm_compute | now vm_compute | lia].
  - apply (calendar_days_outside "2024-02-26" (2024, 2, 26) (2024, 3, 4) 7);
      [reflexivity | now vm_compute | now vm_compute | lia
      | now vm_compute | now vm_compute | right; now vm_compute].
Qed.

(* ----------------------------------------------------------------- *)
(** ** The completion toggle *)

Lemma toggle_off_absent (date habitId : string) (db : Db) :
  checkCompletion db date habitId = false ->
  toggleCompletion date habitId false db = db.
Proof.
  intros Hno. unfold toggleCompletion, set_completions.
  rewrite filter_all; [apply Db_eta|].
  intros [d h] Hin. simpl.
  destruct (String.eqb_spec d date) as [->|]; [|reflexivity].
  destruct (String.eqb_spec h habitId) as [->|]; [|reflexivity].
  apply checkCompletion_In in Hin. congruence.
Qed.

(** C10. Toggling on twice is toggling on once; toggling off where no
    record exists changes nothing; from a state without the record,
    on followed by off gives the state back; and whatever the call,
    the records of every other (date, habit) pair, the habits and the
    achievements stay as they were. *)
Theorem toggleCompletion_algebra (date habitId : string) (db : Db) :
  toggleCompletion date habitId true (toggleCompletion date habitId true db)
    = toggleCompletion date habitId true db
  /\ (checkCompletion db date habitId = false ->
      toggleCompletion date habitId false db = db)
  /\ (checkCompletion db date habitId = false ->
      toggleCompletion date habitId false
        (toggleCompletion date habitId true db) = db)
  /\ (forall completed d h, (d, h) <> (date, habitId) ->
      let db' := toggleCompletion date habitId completed db in
      (In (d, h) (completions db') <-> In (d, h) (completions db))
      /\ habits db' = habits db /\ achievements db' = achievements db).
Proof.
  split; [|split; [|split]].
  - unfold toggleCompletion at 2.
    destruct (checkCompletion db date habitId) eqn:E.
    + unfold toggleCompletion. now rewrite E.
    + unfold toggleCompletion.
      assert (H : checkCompletion
                    (set_completions db (completions db ++ [(date, habitId)]))
                    date habitId = true).
      { apply checkCompletion_In. simpl. apply in_or_app. right. now left. }
      now rewrite H, E.
  - apply toggle_off_absent.
  - intros Hno. unfold toggleCompletion at 2. rewrite Hno.
    unfold toggleCompletion, set_completions. simpl.
    rewrite filter_app. simpl. rewrite !String.eqb_refl. simpl.
    rewrite app_nil_r.
    pose proof (toggle_off_absent date habitId db Hno) as H.
    unfold toggleCompletion, set_completions in H.
    exact H.
  - intros completed d h Hne db'. subst db'. unfold toggleCompletion.
    destruct completed.
    + destruct (checkCompletion db date habitId); simpl.
      * tauto.
      * split; [|tauto]. rewrite in_app_iff. simpl.
        split; [intros [H|[H|[]]]; [assumption|congruence]|tauto].
    + simpl. split; [|tauto]. rewrite filter_In. simpl.
      split; [tauto|]. intros Hin. split; [assumption|].
      destruct (String.eqb_spec d date) as [->|]; [|reflexivity].
      destruct (String.eqb_spec h habitId) as [->|]; [|reflexivity].
      congruence.
Qed.

Lemma toggleCompletion_algebra_witness :
  let db := mkDb [] [("2024-01-02", "a")] [] in
  checkCompletion db "2024-01-03" "a" = false
  /\ toggleCompletion "2024-01-03" "a" false
       (toggleCompletion "2024-01-03" "a" true db) = db
  /\ (In ("2024-01-02", "a")
         (completions (toggleCompletion "2024-01-03" "a" true db))
      <-> In ("2024-01-02", "a") (completions db)).
Proof.
  intro db.
  destruct (toggleCompletion_algebra "2024-01-03" "a" db)
    as (_ & _ & Honoff & Hframe).
  split; [reflexivity|]. split.
  - apply Honoff. reflexivity.
  - apply (Hframe true "2024-01-02" "a"). intros H. discriminate H.
Defined.

(* ----------------------------------------------------------------- *)
(** ** The day view *)

Lemma notDeletedAsOf_deleted (h : Habit) (D date : string) :
  deleted h = true -> deleted_date h = Some D ->
  sql_where (notDeletedAsOf h date) = (date <s? D).
Proof.
  intros Hd HD. unfold notDeletedAsOf, sql_le. rewrite Hd, HD. simpl.
  destruct (D <=s? date) eqn:E; simpl.
  - symmetry. apply ltb_false_leb. exact E.
  - symmetry. apply leb_false_ltb. exact E.
Qed.

Lemma getDayView_In (date : string) (db : Db) (r : DayRow) :
  In r (getDayView date db) <->
  exists h, In h (habits db) /\ sql_where (notDeletedAsOf h date) = true
            /\ r = mkDayRow (id h) (name h) (checkCompletion db date (id h))
                            (deleted h).
Proof.
  unfold getDayView. rewrite in_map_iff. split.
  - intros [h [<- Hin]]. apply order_by_In, filter_In in Hin. now exists h.
  - intros [h (Hin & Hv & ->)]. exists h. split; [reflexivity|].
    apply order_by_In, filter_In. now split.
Qed.

(** C2, on the sample database: the habit deleted on 2024-01-05 is
    not in the day view of every date up to and including that day. *)
Lemma getDayView_deletion_day_hidden :
  ~ (forall date, (date <=s? "2024-01-05") = true ->
       exists r, In r (getDayView date deletedHabitDb) /\ row_id r = "a").
Proof.
  intros H. destruct (H "2024-01-05" eq_refl) as [r [Hin _]].
  vm_compute in Hin. exact Hin.
Qed.

(** C2, as the code has it.  A habit that is deleted with deletion date
    [D] has a row in the day view of [date] exactly when [date] is
    strictly before [D]: it is shown on every earlier day, and hidden
    on [D] itself and on every later day. *)
Theorem getDayView_deleted_habit (D date : string) (db : Db) (h : Habit) :
  NoDup (map id (habits db)) ->
  In h (habits db) -> deleted h = true -> deleted_date h = Some D ->
  ((exists r, In r (getDayView date db) /\ row_id r = id h)
   <-> (date <s? D) = true).
Proof.
  intros Hnd Hin Hd HD. split.
  - intros [r [Hr Hid]]. apply getDayView_In in Hr as [h' (Hin' & Hv & ->)].
    simpl in Hid.
    assert (h' = h) as ->.
    { pose proof (find_by_id _ _ Hnd Hin) as F1.
      pose proof (find_by_id _ _ Hnd Hin') as F2.
      rewrite Hid in F2. congruence. }
    now rewrite (notDeletedAsOf_deleted h D date Hd HD) in Hv.
  - intros Hlt.
    exists (mkDayRow (id h) (name h) (checkCompletion db date (id h)) (deleted h)).
    split; [|reflexivity]. apply getDayView_In. exists h.
    split; [assumption|]. split; [|reflexivity].
    now rewrite (notDeletedAsOf_deleted h D date Hd HD).
Qed.

Lemma getDayView_deleted_habit_witness :
  ((exists r, In r (getDayView "2024-01-04" deletedHabitDb) /\ row_id r = "a")
   <-> ("2024-01-04" <s? "2024-01-05") = true)
  /\ ((exists r, In r (getDayView "2024-01-05" deletedHabitDb) /\ row_id r = "a")
      <-> ("2024-01-05" <s? "2024-01-05") = true).
Proof.
  split.
  - apply (getDayView_deleted_habit "2024-01-05" "2024-01-04" deletedHabitDb
             (mkHabit "a" "Read" "2024-01-01" true (Some "2024-01-05") 0)).
    + simpl. constructor; [simpl; tauto | constructor].
    + simpl. now left.
    + reflexivity.
    + reflexivity.
  - apply (getDayView_deleted_habit "2024-01-05" "2024-01-05" deletedHabitDb
             (mkHabit "a" "Read" "2024-01-01" true (Some "2024-01-05") 0)).
    + simpl. constructor; [simpl; tauto | constructor].
    + simpl. now left.
    + reflexivity.
    + reflexivity.
Defined.

(* ----------------------------------------------------------------- *)
(** ** The streak calculator *)

Lemma habitStreak_returns (today date : string) (db : Db) (habit : Habit)
    (c : Day) :
  wfCompletions db -> parseISO date = Some c ->
  exists row, habitStreak today date db habit = Some row.
Proof.
  intros Hwf Hp. unfold habitStreak, shiftDate.
  destruct (checkCompletion db date (id habit) || (date =s? today));
    [|now eexists].
  assert (Hstart : exists checkDay,
            (if checkCompletion db date (id habit) then Some date
             else shiftDateStr date (-1)) = Some checkDay).
  { destruct (checkCompletion db date (id habit)); [now eexists|].
    rewrite (shiftDateStr_back date c Hp). now eexists. }
  destruct Hstart as [checkDay ->].
  destruct (countBack_returns db (id habit) checkDay 0 Hwf) as [n ->].
  now eexists.
Qed.

Lemma streakRows_returns (today date : string) (db : Db) (hs : list Habit) :
  (forall h, In h hs -> exists row, habitStreak today date db h = Some row) ->
  exists rows, streakRows today date db hs = Some rows.
Proof.
  induction hs as [|h hs IH]; intros Hall; simpl; [now eexists|].
  destruct (Hall h (or_introl eq_refl)) as [row ->].
  destruct IH as [rows ->]; [intros; apply Hall; now right|].
  now eexists.
Qed.

Lemma streakRows_In (today date : string) (db : Db) (hs : list Habit)
    (rows : list StreakRow) (r : StreakRow) :
  streakRows today date db hs = Some rows ->
  (In r rows <->
   exists h, In h hs /\ habitStreak today date db h = Some (Some r)).
Proof.
  revert rows. induction hs as [|h hs IH]; simpl; intros rows Hrun.
  - injection Hrun as <-. split; [intros [] | intros (? & [] & _)].
  - destruct (habitStreak today date db h) as [row|] eqn:Eh; [|discriminate].
    destruct (streakRows today date db hs) as [rows'|]; [|discriminate].
    injection Hrun as <-. specialize (IH rows' eq_refl).
    destruct row as [r0|]; simpl; rewrite IH; split.
    + intros [<-|(h' & Hin & Hh')]; [exists h; auto | exists h'; auto].
    + intros (h' & [<-|Hin] & Hh'); [left; congruence | right; eauto].
    + intros (h' & Hin & Hh'). exists h'; auto.
    + intros (h' & [<-|Hin] & Hh'); [congruence | eauto].
Qed.

(** The walk of a habit completed on [y1] and on the day before it,
    [y2], but not on [y3], the day before [y2], counts two days. *)
Lemma countBack_two (db : Db) (habitId y1 y2 y3 : string) :
  wfCompletions db ->
  shiftDateStr y1 (-1) = Some y2 -> shiftDateStr y2 (-1) = Some y3 ->
  checkCompletion db y1 habitId = true ->
  checkCompletion db y2 habitId = true ->
  checkCompletion db y3 habitId = false ->
  countBack (walkFuel db) db habitId y1 0 = Some 2.
Proof.
  intros Hwf H12 H23 D1 D2 D3.
  destruct (countBack_returns db habitId y1 0 Hwf) as [n Hn].
  rewrite Hn. revert Hn.
  destruct (walkFuel db) as [|[|[|fuel]]]; simpl;
    rewrite ?D1, ?H12, ?D2, ?H23, ?D3; simpl;
    rewrite ?D1, ?H12, ?D2, ?H23, ?D3; congruence.
Qed.

(** C5. Viewing today, a habit shown today that has no completion
    today, has one yesterday and one the day before, and none on the
    day before that, is reported with a streak of 2: [getStreaks]
    returns, the habit's row is in its result with streak 2, and it is
    the habit's only row. *)
Theorem getStreaks_today_shift (today y1 y2 y3 : string) (db : Db)
    (h : Habit) :
  wfCompletions db -> NoDup (map id (habits db)) ->
  In h (habits db) -> sql_where (notDeletedAsOf h today) = true ->
  shiftDate today (-1) = Some y1 ->
  shiftDate y1 (-1) = Some y2 ->
  shiftDate y2 (-1) = Some y3 ->
  checkCompletion db today (id h) = false ->
  checkCompletion db y1 (id h) = true ->
  checkCompletion db y2 (id h) = true ->
  checkCompletion db y3 (id h) = false ->
  exists rows,
    getStreaks today today db = Some rows
    /\ In (mkStreakRow (id h) (name h) 2) rows
    /\ forall r, In r rows -> streak_id r = id h -> streak r = 2.
Proof.
  intros Hwf Hnd Hin Hvis H01 H12 H23 D0 D1 D2 D3.
  unfold shiftDate in *.
  assert (Hp : exists c, parseISO today = Some c).
  { unfold shiftDateStr in H01.
    destruct (parseISO today) as [c|]; [now exists c | discriminate]. }
  destruct Hp as [c Hp].
  assert (Hh : habitStreak today today db h
               = Some (Some (mkStreakRow (id h) (name h) 2))).
  { unfold habitStreak, shiftDate.
    rewrite D0, String.eqb_refl, H01. cbn [orb].
    now rewrite (countBack_two db (id h) y1 y2 y3 Hwf H12 H23 D1 D2 D3). }
  unfold getStreaks.
  set (shown := order_by sort_order
                  (filter (fun h => sql_where (notDeletedAsOf h today))
                          (habits db))).
  assert (Hshown : forall x, In x shown <->
            In x (habits db) /\ sql_where (notDeletedAsOf x today) = true).
  { intros x. unfold shown. now rewrite order_by_In, filter_In. }
  destruct (streakRows_returns today today db shown) as [results Hres].
  { intros x _. now apply (habitStreak_returns today today db x c). }
  rewrite Hres. eexists. split; [reflexivity|]. split.
  - apply order_by_In. apply (streakRows_In _ _ _ _ _ _ Hres).
    exists h. split; [now apply Hshown | exact Hh].
  - intros r Hr Hid. apply order_by_In in Hr.
    apply (streakRows_In _ _ _ _ _ _ Hres) in Hr as (h' & Hin' & Hh').
    assert (Hid' : id h' = streak_id r).
    { revert Hh'. unfold habitStreak.
      destruct (_ || _); [|discriminate].
      destruct (if checkCompletion db today (id h') then _ else _);
        [|discriminate].
      destruct (countBack _ _ _ _ _); [|discriminate].
      destruct (0 <? _); [|discriminate]. now intros [= <-]. }
    assert (h' = h) as ->.
    { apply Hshown in Hin' as [Hin' _].
      pose proof (find_by_id _ _ Hnd Hin) as F1.
      pose proof (find_by_id _ _ Hnd Hin') as F2.
      rewrite Hid', Hid in F2. congruence. }
    rewrite Hh in Hh'. now injection Hh' as <-.
Qed.

Lemma getStreaks_today_shift_witness :
  exists rows,
    getStreaks "2024-01-08" "2024-01-08" twoDayDb = Some rows
    /\ In (mkStreakRow "A" "Run" 2) rows
    /\ forall r, In r rows -> streak_id r = "A" -> streak r = 2.
Proof.
  apply (getStreaks_today_shift
           "2024-01-08" "2024-01-07" "2024-01-06" "2024-01-05"
           twoDayDb habitA).
  - intros d h [E|[E|[]]]; injection E as <- _; vm_compute; discriminate.
  - simpl. constructor; [simpl; tauto | constructor].
  - simpl. now left.
  - reflexivity.
  - reflexivity.
  - reflexivity.
  - reflexivity.
  - reflexivity.
  - reflexivity.
  - reflexivity.
  - reflexivity.
Defined.

(** On any other day than today, a habit without a completion on the
    viewing day is left out: the same database viewed on 2024-01-08
    when today is 2024-01-09 gives no row. *)
Example getStreaks_past_day_no_shift :
  getStreaks "2024-01-09" "2024-01-08" twoDayDb = Some [].
Proof. reflexivity. Qed.

(* ----------------------------------------------------------------- *)
(** ** The invalidation pass *)

Lemma deleteAchievements_twice (c1 c2 : Achievement -> bool) (db : Db) :
  deleteAchievements c2 (deleteAchievements c1 db)
  = deleteAchievements (fun a => c1 a || c2 a) db.
Proof.
  unfold deleteAchievements, set_achievements. simpl. f_equal.
  rewrite filter_filter. apply filter_ext. intros a.
  now rewrite negb_orb.
Qed.

(** The whole pass is one [DELETE] with the disjunction of the nine
    conditions. *)
Lemma removeInvalidAchievements_spec (date habitId : string) (db db' : Db) :
  removeInvalidAchievements date habitId db = Some db' <->
  exists e7 e14 e21,
    shiftDateStr date 6 = Some e7 /\ shiftDateStr date 13 = Some e14
    /\ shiftDateStr date 20 = Some e21
    /\ db' = deleteAchievements (invalidated date habitId e7 e14 e21) db.
Proof.
  unfold removeInvalidAchievements, streakTypes, forEach.
  change (7 - 1) with 6. change (14 - 1) with 13. change (21 - 1) with 20.
  destruct (shiftDateStr date 6) as [e7|];
    [|split; [discriminate | intros (?&?&?&H&_); discriminate H]].
  destruct (shiftDateStr date 13) as [e14|];
    [|split; [discriminate | intros (?&?&?&_&H&_); discriminate H]].
  destruct (shiftDateStr date 20) as [e21|];
    [|split; [discriminate | intros (?&?&?&_&_&H&_); discriminate H]].
  rewrite !deleteAchievements_twice.
  match goal with |- Some ?x = _ <-> _ =>
    assert (E : x = deleteAchievements (invalidated date habitId e7 e14 e21) db)
  end.
  { unfold deleteAchievements. f_equal. apply filter_ext. intros a.
    unfold invalidated. now rewrite !orb_assoc. }
  rewrite E. split.
  - intros [= <-]. exists e7, e14, e21. repeat split.
  - intros (x7 & x14 & x21 & [= <-] & [= <-] & [= <-] & ->). reflexivity.
Qed.

Lemma removeInvalidAchievements_total (date habitId : string) (db : Db)
    (c : Day) :
  parseISO date = Some c ->
  exists db', removeInvalidAchievements date habitId db = Some db'.
Proof.
  intros Hp. eexists. apply removeInvalidAchievements_spec.
  exists (printDate (addDays c 6)), (printDate (addDays c 13)),
         (printDate (addDays c 20)).
  repeat split; now apply shiftDateStr_total.
Qed.

Lemma count_occ_filter (f : Achievement -> bool) (l : list Achievement)
    (a : Achievement) :
  count_occ Achievement_eq_dec (filter f l) a
  = if f a then count_occ Achievement_eq_dec l a else 0%nat.
Proof.
  induction l as [|x l IH]; simpl.
  - now destruct (f a).
  - destruct (f x) eqn:Fx; simpl;
      destruct (Achievement_eq_dec x a) as [->|Hne]; rewrite IH;
      try rewrite Fx; try reflexivity;
      destruct (f a); reflexivity.
Qed.

(** For a date [D] that is a calendar day, the invalidation pass for
    [(D, H)] comes back, and in its result no row is left whose type is
    [streak_N] for an [N] among 7, 14, 21, whose habit is [H] or none
    (global), and whose earned date lies in the window as the DELETE
    reads it: in the order of text, from [D] to the date printed for
    [D + (N - 1)] days. *)
Lemma removeInvalidAchievements_clears_windows (D H : string) (db : Db)
    (c : Day) :
  parseISO D = Some c ->
  exists db',
    removeInvalidAchievements D H db = Some db'
    /\ forall (N : Z) (a : Achievement),
         In N [7; 14; 21] ->
         type a = "streak_" +++ numberToString N ->
         habit_id a = Some H \/ habit_id a = None ->
         inWindow D N (earned_date a) ->
         ~ In a (achievements db').
Proof.
  intros Hp.
  destruct (removeInvalidAchievements_total D H db c Hp) as [db' Hrun].
  exists db'. split; [exact Hrun|].
  apply removeInvalidAchievements_spec in Hrun
    as (e7 & e14 & e21 & H7 & H14 & H21 & ->).
  intros N a HN Hty Hhab (endDate & Hend & Hlo & Hhi) Hin.
  unfold deleteAchievements in Hin. simpl in Hin.
  apply filter_In in Hin as [_ Hkeep].
  apply negb_true_iff in Hkeep.
  assert (Hb : earnedBetween D endDate a = true)
    by (unfold earnedBetween; now rewrite Hlo, Hhi).
  assert (HhabB : habitIs H a = true \/ isNull (habit_id a) = true).
  { unfold habitIs, sql_eq, sql_where, isNull.
    destruct Hhab as [E|E]; rewrite E; [left|right]; [|reflexivity].
    now rewrite String.eqb_refl. }
  unfold invalidated in Hkeep.
  repeat (apply orb_false_iff in Hkeep; destruct Hkeep as [Hkeep ?]).
  simpl in HN.
  destruct HN as [<-|[<-|[<-|[]]]];
    change (7 - 1) with 6 in Hend; change (14 - 1) with 13 in Hend;
    change (21 - 1) with 20 in Hend;
    assert (E : endDate = e7 \/ endDate = e14 \/ endDate = e21)
      by (first [left; congruence | right; left; congruence
                | right; right; congruence]);
    rewrite Hty in *; simpl in *;
    destruct HhabB as [Hh|Hh]; rewrite Hh in *; simpl in *;
    destruct E as [E|[E|E]]; subst endDate;
    try congruence.
Qed.

Lemma removeInvalidAchievements_clears_windows_witness :
  exists db',
    removeInvalidAchievements "2024-01-03" "A" editedWeekDb = Some db'
    /\ ~ In (mkAchievement "streak_7" (Some "A") "2024-01-07")
            (achievements db')
    /\ ~ In (mkAchievement "streak_7" None "2024-01-07") (achievements db').
Proof.
  destruct (removeInvalidAchievements_clears_windows
              "2024-01-03" "A" editedWeekDb (2024, 1, 3) eq_refl)
    as [db' [Hrun Hall]].
  exists db'. split; [exact Hrun|].
  split; apply (Hall 7); simpl; auto;
    exists "2024-01-09"; repeat split; reflexivity.
Defined.

(** The scenario, run: the award pass of 2024-01-07 grants the perfect
    day, the two per-habit [streak_7] and the global [streak_7]; after
    A is un-completed on 2024-01-03 the invalidation pass leaves the
    perfect day and B's [streak_7]. *)
Example scenario_award_then_invalidate :
  option_map achievements (checkAchievements "2024-01-07" weekDb)
    = Some weekAwards
  /\ option_map achievements
       (removeInvalidAchievements "2024-01-03" "A" editedWeekDb)
     = Some [mkAchievement "perfect_day" None "2024-01-07";
             mkAchievement "streak_7" (Some "B") "2024-01-07"].
Proof. split; vm_compute; reflexivity. Qed.

(** The invalidation pass for [(D, A)] keeps, each as many times as it
    was there: a [perfect_day] row earned on another date than [D]; a
    row of another habit than [A]; a [streak_N] row earned outside the
    window as the DELETE reads it, in the order of text; a
    [perfect_month] row earned on another date than the first of [D]'s
    month. *)
Lemma removeInvalidAchievements_frame (D A : string) (db db' : Db)
    (a : Achievement) :
  removeInvalidAchievements D A db = Some db' ->
  (type a = "perfect_day" /\ earned_date a <> D)
  \/ (exists B, habit_id a = Some B /\ B <> A)
  \/ (exists N,
        In N [7; 14; 21] /\ type a = "streak_" +++ numberToString N
        /\ ~ inWindow D N (earned_date a))
  \/ (type a = "perfect_month"
      /\ earned_date a <> substring 0 7 D +++ "-01") ->
  count_occ Achievement_eq_dec (achievements db') a
  = count_occ Achievement_eq_dec (achievements db) a.
Proof.
  intros Hrun Hframe.
  apply removeInvalidAchievements_spec in Hrun
    as (e7 & e14 & e21 & H7 & H14 & H21 & ->).
  unfold deleteAchievements. simpl. rewrite count_occ_filter.
  assert (E : invalidated D A e7 e14 e21 a = false); [|now rewrite E].
  unfold invalidated, earnedBetween, habitIs, sql_eq, sql_where, isNull.
  destruct Hframe as [[Hty Hne]|[(B & HB & Hne)|[(N & HN & Hty & Hout)
                                                |[Hty Hne]]]].
  - rewrite Hty. apply String.eqb_neq in Hne. rewrite Hne. simpl.
    now rewrite !andb_false_r.
  - rewrite HB. apply String.eqb_neq in Hne. rewrite Hne.
    now rewrite !andb_false_r.
  - assert (Hb : forall x, shiftDateStr D (N - 1) = Some x ->
                (D <=s? earned_date a) && (earned_date a <=s? x) = false).
    { intros x Hx.
      destruct (D <=s? earned_date a) eqn:Hlo; [|reflexivity].
      destruct (earned_date a <=s? x) eqn:Hhi; [|reflexivity].
      exfalso. apply Hout. now exists x. }
    simpl in HN.
    destruct HN as [<-|[<-|[<-|[]]]]; rewrite Hty; simpl.
    + rewrite (Hb e7 H7). now rewrite !andb_false_r.
    + rewrite (Hb e14 H14). now rewrite !andb_false_r.
    + rewrite (Hb e21 H21). now rewrite !andb_false_r.
  - rewrite Hty. apply String.eqb_neq in Hne. rewrite Hne. simpl.
    now rewrite !andb_false_r.
Qed.

Lemma removeInvalidAchievements_frame_witness :
  exists db',
    removeInvalidAchievements "2024-01-03" "A" editedWeekDb = Some db'
    /\ count_occ Achievement_eq_dec (achievements db')
         (mkAchievement "perfect_day" None "2024-01-07") = 1%nat
    /\ count_occ Achievement_eq_dec (achievements db')
         (mkAchievement "streak_7" (Some "B") "2024-01-07") = 1%nat.
Proof.
  destruct (removeInvalidAchievements "2024-01-03" "A" editedWeekDb)
    as [db'|] eqn:Hrun; [|vm_compute in Hrun; discriminate Hrun].
  exists db'. split; [reflexivity|]. split.
  - rewrite (removeInvalidAchievements_frame "2024-01-03" "A" editedWeekDb db'
               _ Hrun); [reflexivity|].
    left. split; [reflexivity|discriminate].
  - rewrite (removeInvalidAchievements_frame "2024-01-03" "A" editedWeekDb db'
               _ Hrun); [reflexivity|].
    right; left. exists "B". split; [reflexivity|discriminate].
Defined.

(** In years of four digits the window is the one of the calendar: the
    pass removes the [streak_N] rows of [H] and the global ones earned
    on the days [D] to [D + (N - 1)] ... *)
Lemma removeInvalidAchievements_clears_days (D H : string) (db : Db)
    (c : Day) :
  parseISO D = Some c -> 1000 <= fst (fst c) ->
  exists db',
    removeInvalidAchievements D H db = Some db'
    /\ forall (N k : Z) (a : Achievement),
         In N [7; 14; 21] ->
         fst (fst (addDays c (N - 1))) <= 9999 ->
         type a = "streak_" +++ numberToString N ->
         habit_id a = Some H \/ habit_id a = None ->
         0 <= k <= N - 1 ->
         earned_date a = printDate (addDays c k) ->
         ~ In a (achievements db').
Proof.
  intros Hp Hlo.
  destruct (removeInvalidAchievements_clears_windows D H db c Hp)
    as (db' & Hrun & Hall).
  exists db'. split; [exact Hrun|].
  intros N k a HN Hhi Hty Hhab Hk He. apply (Hall N a HN Hty Hhab).
  rewrite He. now apply calendar_days_inWindow.
Qed.

(** ... and keeps those earned on a day before [D] or after
    [D + (N - 1)]. *)
Lemma removeInvalidAchievements_keeps_days (D A : string) (db db' : Db)
    (c e : Day) (N : Z) (a : Achievement) :
  parseISO D = Some c -> 1000 <= fst (fst c) ->
  fst (fst (addDays c (N - 1))) <= 9999 ->
  removeInvalidAchievements D A db = Some db' ->
  In N [7; 14; 21] ->
  type a = "streak_" +++ numberToString N ->
  validDay e -> 1000 <= fst (fst e) <= 9999 ->
  earned_date a = printDate e ->
  dayKey e < dayKey c \/ dayKey (addDays c (N - 1)) < dayKey e ->
  count_occ Achievement_eq_dec (achievements db') a
  = count_occ Achievement_eq_dec (achievements db) a.
Proof.
  intros Hp Hlo Hhi Hrun HN Hty Ve Ye He Hout.
  apply (removeInvalidAchievements_frame D A db db' a Hrun).
  right; right; left. exists N. split; [exact HN|]. split; [exact Hty|].
  rewrite He. apply (calendar_days_outside D c e N Hp Hlo Hhi);
    [simpl in HN; lia | exact Ve | exact Ye | exact Hout].
Qed.

(** C3, at the end of the year 9999.  For [D = 9999-12-28] the end of
    the window of 7 days is printed with a year of five digits,
    [10000-01-03], which comes before [D] in the order of text: the
    DELETE matches no row, and the pass for [(D, A)] leaves the store
    as it was, with A's [streak_7] earned on 9999-12-30 and the global
    [streak_7] earned on 9999-12-31, two and three days after [D]. *)
Theorem removeInvalidAchievements_past_9999 :
  parseISO "9999-12-28" = Some (9999, 12, 28)
  /\ printDate (addDays (9999, 12, 28) 2) = "9999-12-30"
  /\ printDate (addDays (9999, 12, 28) 3) = "9999-12-31"
  /\ shiftDateStr "9999-12-28" (7 - 1) = Some "10000-01-03"
  /\ removeInvalidAchievements "9999-12-28" "A" lastWeekDb = Some lastWeekDb
  /\ In (mkAchievement "streak_7" (Some "A") "9999-12-30")
        (achievements lastWeekDb)
  /\ In (mkAchievement "streak_7" None "9999-12-31")
        (achievements lastWeekDb).
Proof. repeat split; try (vm_compute; reflexivity); simpl; tauto. Qed.

(** C4, below the year 1000.  For [D = 0999-06-01] the ends of the
    windows are printed with a year of three digits, [999-06-07] and
    [999-06-21], which come after every date of four digits that
    starts with a digit below 9: the pass for [(D, A)] removes A's
    [streak_7] earned on 2024-01-07 and the global [streak_21] earned
    on 9000-12-31, a thousand years and more after the window. *)
Theorem removeInvalidAchievements_below_1000 :
  parseISO "0999-06-01" = Some (999, 6, 1)
  /\ shiftDateStr "0999-06-01" (7 - 1) = Some "999-06-07"
  /\ shiftDateStr "0999-06-01" (21 - 1) = Some "999-06-21"
  /\ achievements farAwardsDb
     = [mkAchievement "streak_7" (Some "A") "2024-01-07";
        mkAchievement "streak_21" None "9000-12-31"]
  /\ option_map achievements
       (removeInvalidAchievements "0999-06-01" "A" farAwardsDb)
     = Some [].
Proof. repeat split; vm_compute; reflexivity. Qed.

(* ----------------------------------------------------------------- *)
(** ** The award pass *)

Lemma Awards_refl (P : Achievement -> Prop) (db : Db) : Awards P db db.
Proof.
  repeat split. exists []. split; [now rewrite app_nil_r | constructor].
Qed.

Lemma Awards_trans (P : Achievement -> Prop) (db1 db2 db3 : Db) :
  Awards P db1 db2 -> Awards P db2 db3 -> Awards P db1 db3.
Proof.
  intros (Hh & Hc & l & Hl & HP) (Hh' & Hc' & l' & Hl' & HP').
  split; [congruence|]. split; [congruence|].
  exists (l ++ l'). split.
  - now rewrite Hl', Hl, app_assoc.
  - apply Forall_app. now split.
Qed.

Lemma Awards_insert (P : Achievement -> Prop) (ty : string)
    (habitId : option string) (earnedDate : string) (db : Db) :
  P (mkAchievement ty habitId earnedDate) ->
  Awards P db (insertAchievement ty habitId earnedDate db).
Proof.
  intros HP. unfold insertAchievement.
  destruct (existsb _ _).
  - apply Awards_refl.
  - repeat split. eexists. split; [reflexivity|]. now constructor.
Qed.

Lemma Awards_insert_if (P : Achievement -> Prop) (b : bool) (ty : string)
    (habitId : option string) (earnedDate : string) (db : Db) :
  P (mkAchievement ty habitId earnedDate) ->
  Awards P db (if b then insertAchievement ty habitId earnedDate db else db).
Proof.
  intros HP. destruct b; [now apply Awards_insert | apply Awards_refl].
Qed.

Lemma forEach_Awards (A : Type) (P : Achievement -> Prop)
    (body : A -> Db -> option Db) (xs : list A) (db0 : Db) :
  (forall x db1 db2, In x xs ->
     habits db1 = habits db0 -> completions db1 = completions db0 ->
     body x db1 = Some db2 -> Awards P db1 db2) ->
  forall db1 db2,
    habits db1 = habits db0 -> completions db1 = completions db0 ->
    forEach body xs db1 = Some db2 -> Awards P db1 db2.
Proof.
  induction xs as [|x xs IH]; simpl; intros Hbody db1 db2 Hh Hc Hrun.
  - injection Hrun as <-. apply Awards_refl.
  - destruct (body x db1) as [dbx|] eqn:Ex; [|discriminate].
    assert (Hx : Awards P db1 dbx) by (apply (Hbody x); auto).
    apply Awards_trans with dbx; [exact Hx|].
    destruct Hx as (Hh' & Hc' & _).
    apply IH; [intros; apply (Hbody x0); auto | congruence | congruence
              | exact Hrun].
Qed.

Lemma habitRow_same_table (habitId : string) (db db' : Db) :
  habits db' = habits db -> habitRow db' habitId = habitRow db habitId.
Proof. unfold habitRow. now intros ->. Qed.

(** Every row the award pass writes is one of [awardable], and the pass
    writes nowhere else. *)
Lemma checkAchievements_Awards (date : string) (db db' : Db) :
  checkAchievements date db = Some db' -> Awards (awardable date db) db db'.
Proof.
  unfold checkAchievements.
  destruct (List.length (activeHabits date db) =? 0)%nat;
    [intros [= <-]; apply Awards_refl|].
  set (habitIds := map id (activeHabits date db)).
  set (db1 := if forallb _ habitIds then _ else db).
  assert (A1 : Awards (awardable date db) db db1).
  { apply Awards_insert_if. now left. }
  destruct (forEach (perHabitStreaks date) habitIds db1) as [db2|] eqn:E2;
    [|discriminate].
  assert (A2 : Awards (awardable date db) db1 db2).
  { destruct A1 as (Hh & Hc & _).
    refine (forEach_Awards _ _ _ habitIds db1 _ db1 db2 eq_refl eq_refl E2).
    intros x dbx dby Hx _ _. unfold perHabitStreaks.
    destruct (countBack _ _ _ _ _) as [n|]; [|discriminate].
    intros [= <-].
    assert (HP : forall N, In N [7; 14; 21] ->
              awardable date db
                (mkAchievement ("streak_" +++ numberToString N) (Some x) date)).
    { intros N HN. right; left. exists x, N. auto. }
    eapply Awards_trans; [|eapply Awards_trans];
      [ apply Awards_insert_if; apply (HP 7); simpl; auto
      | apply Awards_insert_if; apply (HP 14); simpl; auto
      | apply Awards_insert_if; apply (HP 21); simpl; auto ]. }
  destruct (forEach (globalStreaks date) [7; 14; 21] db2) as [db3|] eqn:E3;
    [|discriminate].
  assert (A3 : Awards (awardable date db) db2 db3).
  { refine (forEach_Awards _ _ _ _ db2 _ db2 db3 eq_refl eq_refl E3).
    intros N dbx dby HN _ _. unfold globalStreaks.
    destruct (allStreak _ _ _ _) as [ok|]; [|discriminate].
    intros [= <-]. apply Awards_insert_if.
    right; right; left. now exists N. }
  destruct (parseISO date) as [[[y m] d]|] eqn:Ep; [|discriminate].
  fold (prevMonthStr y m).
  destruct (forEach _ habitIds db3) as [db4|] eqn:E4; [|discriminate].
  assert (A03 : Awards (awardable date db) db db3).
  { eapply Awards_trans; [exact A1|]. eapply Awards_trans; eassumption. }
  assert (A4 : Awards (awardable date db) db3 db4).
  { destruct A03 as (Hh & Hc & _).
    refine (forEach_Awards _ _ _ habitIds db3 _ db3 db4 eq_refl eq_refl E4).
    intros x dbx dby Hx Hhx _. unfold perHabitMonth.
    rewrite (habitRow_same_table x db dbx) by congruence.
    destruct (habitRow db x) as [row|] eqn:Erow; [|discriminate].
    destruct (_ <s? created_date row) eqn:Ecr;
      [intros [= <-]; apply Awards_refl|].
    intros [= <-]. apply Awards_insert_if.
    right; right; right. exists y, m, d. split; [exact Ep|].
    right. exists x, row. auto. }
  intros [= <-].
  eapply Awards_trans; [exact A03|]. eapply Awards_trans; [exact A4|].
  apply Awards_insert_if.
  right; right; right. exists y, m, d. split; [exact Ep|]. now left.
Qed.

(** C6. When no habit is active on [date] (created on or before it
    and not deleted as of it), the award pass returns the database as
    it found it: no achievement of any type is written. *)
Theorem checkAchievements_no_active_habit (date : string) (db : Db) :
  activeHabits date db = [] -> checkAchievements date db = Some db.
Proof. unfold checkAchievements. now intros ->. Qed.

Lemma checkAchievements_no_active_habit_witness :
  activeHabits "2023-12-31" weekDb = []
  /\ checkAchievements "2023-12-31" weekDb = Some weekDb.
Proof.
  split; [reflexivity|].
  apply checkAchievements_no_active_habit. reflexivity.
Defined.

(** C9. Neither pass touches [habits] or [completions]: whenever the
    award pass or the invalidation pass returns, both tables are what
    they were. *)
Theorem engine_leaves_habits_and_completions (date habitId : string)
    (db db' : Db) :
  checkAchievements date db = Some db'
  \/ removeInvalidAchievements date habitId db = Some db' ->
  habits db' = habits db /\ completions db' = completions db.
Proof.
  intros [Hrun|Hrun].
  - apply checkAchievements_Awards in Hrun as (Hh & Hc & _). now split.
  - apply removeInvalidAchievements_spec in Hrun as (? & ? & ? & _ & _ & _ & ->).
    now split.
Qed.

Lemma engine_leaves_habits_and_completions_witness :
  exists db1 db2,
    checkAchievements "2024-01-07" weekDb = Some db1
    /\ removeInvalidAchievements "2024-01-03" "A" editedWeekDb = Some db2
    /\ (habits db1 = habits weekDb /\ completions db1 = completions weekDb)
    /\ (habits db2 = habits editedWeekDb
        /\ completions db2 = completions editedWeekDb).
Proof.
  destruct (checkAchievements "2024-01-07" weekDb) as [db1|] eqn:E1;
    [|vm_compute in E1; discriminate E1].
  destruct (removeInvalidAchievements "2024-01-03" "A" editedWeekDb)
    as [db2|] eqn:E2; [|vm_compute in E2; discriminate E2].
  exists db1, db2. repeat apply conj; try reflexivity.
  - apply (engine_leaves_habits_and_completions "2024-01-07" "A" weekDb db1).
    now left.
  - apply (engine_leaves_habits_and_completions "2024-01-07" "A" weekDb db1).
    now left.
  - apply (engine_leaves_habits_and_completions
             "2024-01-03" "A" editedWeekDb db2). now right.
  - apply (engine_leaves_habits_and_completions
             "2024-01-03" "A" editedWeekDb db2). now right.
Defined.

Lemma streak_type_names (N : Z) :
  In N [7; 14; 21] ->
  "streak_" +++ numberToString N = "streak_7"
  \/ "streak_" +++ numberToString N = "streak_14"
  \/ "streak_" +++ numberToString N = "streak_21".
Proof.
  simpl. intros [<-|[<-|[<-|[]]]]; vm_compute; auto.
Qed.

(** C7. A habit created strictly after the first day [fm] of a month
    gets no per-habit [perfect_month] row at [fm] from the award pass,
    whatever the date of the pass and whatever the completions. *)
Theorem perfect_month_needs_whole_month (date fm : string) (db db' : Db)
    (h : Habit) :
  NoDup (map id (habits db)) -> In h (habits db) ->
  (fm <s? created_date h) = true ->
  checkAchievements date db = Some db' ->
  count_occ Achievement_eq_dec (achievements db')
            (mkAchievement "perfect_month" (Some (id h)) fm)
  = count_occ Achievement_eq_dec (achievements db)
              (mkAchievement "perfect_month" (Some (id h)) fm).
Proof.
  intros Hnd Hin Hlate Hrun.
  apply checkAchievements_Awards in Hrun as (_ & _ & added & -> & Hadd).
  rewrite count_occ_app.
  rewrite (proj1 (count_occ_not_In Achievement_eq_dec added _));
    [apply Nat.add_0_r|].
  intros Ha. rewrite Forall_forall in Hadd. apply Hadd in Ha.
  destruct Ha as [E|[(x & N & _ & HN & E)|[(N & HN & E)|(y & m & d & _ & [E|E])]]].
  - discriminate E.
  - apply streak_type_names in HN.
    pose proof (f_equal type E) as Ety. cbn [type] in Ety.
    destruct HN as [HN|[HN|HN]]; rewrite HN in Ety; discriminate Ety.
  - discriminate E.
  - discriminate E.
  - destruct E as (x & row & _ & Hrow & Hcr & E).
    injection E as Ex Efm. subst x fm.
    unfold habitRow in Hrow. rewrite (find_by_id _ _ Hnd Hin) in Hrow.
    injection Hrow as <-. congruence.
Qed.

Lemma perfect_month_needs_whole_month_witness :
  exists db',
    checkAchievements "2024-02-03" lateHabitDb = Some db'
    /\ count_occ Achievement_eq_dec (achievements db')
         (mkAchievement "perfect_month" (Some "L") "2024-01-01") = 0%nat.
Proof.
  destruct (checkAchievements "2024-02-03" lateHabitDb) as [db'|] eqn:Hrun;
    [|vm_compute in Hrun; discriminate Hrun].
  exists db'. split; [reflexivity|].
  change (Some "L") with (Some (id lateHabit)).
  rewrite (perfect_month_needs_whole_month
             "2024-02-03" "2024-01-01" lateHabitDb db' lateHabit).
  - reflexivity.
  - simpl. constructor; [simpl; tauto | constructor].
  - simpl. now left.
  - reflexivity.
  - exact Hrun.
Defined.

Lemma awardable_perfect_month (date : string) (db : Db) (a : Achievement) :
  awardable date db a -> type a = "perfect_month" ->
  firstOfMonthDate (earned_date a).
Proof.
  intros [E|[(x & N & _ & HN & E)|[(N & HN & E)|(y & m & d & Hp & E)]]] Hty.
  - subst a. discriminate Hty.
  - subst a. cbn [type] in Hty. apply streak_type_names in HN.
    destruct HN as [HN|[HN|HN]]; rewrite HN in Hty; discriminate Hty.
  - subst a. cbn [type] in Hty. apply streak_type_names in HN.
    destruct HN as [HN|[HN|HN]]; rewrite HN in Hty; discriminate Hty.
  - apply parseISO_valid in Hp as (_ & Hm & _).
    assert (Ee : earned_date a = prevMonthStr y m +++ "-01").
    { destruct E as [->|(x & row & _ & _ & _ & ->)]; reflexivity. }
    rewrite Ee.
    exists (if m =? 1 then y - 1 else y), (if m =? 1 then 12 else m - 1).
    split.
    + destruct (Z.eqb_spec m 1); lia.
    + unfold prevMonthStr, printDate.
      now rewrite !append_assoc.
Qed.

Lemma perfectMonthInvariant_initial (db : Db) :
  achievements db = [] -> perfectMonthInvariant db.
Proof. intros E a Hin. rewrite E in Hin. destruct Hin. Qed.

(** C8. The invariant "every [perfect_month] row is earned on the first
    day of some month" is kept by the award pass and by the
    invalidation pass, whenever they return. *)
Theorem perfectMonthInvariant_preserved (date habitId : string)
    (db db' : Db) :
  perfectMonthInvariant db ->
  checkAchievements date db = Some db'
  \/ removeInvalidAchievements date habitId db = Some db' ->
  perfectMonthInvariant db'.
Proof.
  intros Hinv [Hrun|Hrun] a Hin Hty.
  - apply checkAchievements_Awards in Hrun as (_ & _ & added & Hall & Hadd).
    rewrite Hall in Hin. apply in_app_or in Hin as [Hin|Hin].
    + now apply Hinv.
    + rewrite Forall_forall in Hadd.
      apply (awardable_perfect_month date db a); auto.
  - apply removeInvalidAchievements_spec in Hrun as (? & ? & ? & _ & _ & _ & ->).
    unfold deleteAchievements in Hin. simpl in Hin.
    apply filter_In in Hin as [Hin _]. now apply Hinv.
Qed.

Lemma perfectMonthInvariant_preserved_witness :
  exists db',
    checkAchievements "2024-02-03" januaryDb = Some db'
    /\ In (mkAchievement "perfect_month" (Some "A") "2024-01-01")
          (achievements db')
    /\ perfectMonthInvariant db'.
Proof.
  destruct (checkAchievements "2024-02-03" januaryDb) as [db'|] eqn:Hrun;
    [|vm_compute in Hrun; discriminate Hrun].
  exists db'. split; [reflexivity|]. split.
  - pose proof Hrun as Hval. vm_compute in Hval. injection Hval as <-.
    simpl. now left.
  - apply (perfectMonthInvariant_preserved "2024-02-03" "A" januaryDb db').
    + intros a [].
    + now left.
Defined.

(* ----------------------------------------------------------------- *)
(** ** The passes return *)

Lemma wfCompletions_same_table (db db' : Db) :
  completions db' = completions db -> wfCompletions db -> wfCompletions db'.
Proof. unfold wfCompletions. now intros ->. Qed.

Lemma insertAchievement_tables (ty : string) (habitId : option string)
    (earnedDate : string) (db : Db) :
  habits (insertAchievement ty habitId earnedDate db) = habits db
  /\ completions (insertAchievement ty habitId earnedDate db)
     = completions db.
Proof. unfold insertAchievement. destruct (existsb _ _); now split. Qed.

Lemma insert_if_tables (b : bool) (ty : string) (habitId : option string)
    (earnedDate : string) (db : Db) :
  let db' := if b then insertAchievement ty habitId earnedDate db else db in
  habits db' = habits db /\ completions db' = completions db.
Proof. destruct b; [apply insertAchievement_tables | now split]. Qed.

Lemma forEach_returns (A : Type) (body : A -> Db -> option Db)
    (xs : list A) (db0 : Db) :
  (forall x db1, In x xs ->
     habits db1 = habits db0 -> completions db1 = completions db0 ->
     exists db2, body x db1 = Some db2
                 /\ habits db2 = habits db0
                 /\ completions db2 = completions db0) ->
  forall db1,
    habits db1 = habits db0 -> completions db1 = completions db0 ->
    exists db2, forEach body xs db1 = Some db2
                /\ habits db2 = habits db0
                /\ completions db2 = completions db0.
Proof.
  induction xs as [|x xs IH]; simpl; intros Hbody db1 Hh Hc.
  - now exists db1.
  - destruct (Hbody x db1 (or_introl eq_refl) Hh Hc) as (dbx & -> & Hh' & Hc').
    apply IH; [intros; apply Hbody; auto | assumption | assumption].
Qed.

Lemma allStreak_returns (db : Db) (date : string) (c : Day) (turns : nat) :
  parseISO date = Some c ->
  forall i, exists ok, allStreak db date i turns = Some ok.
Proof.
  intros Hp. induction turns as [|turns IH]; intros i; simpl; [now eexists|].
  rewrite (shiftDateStr_total date (- i) c Hp).
  destruct (dayComplete db _); [apply IH | now eexists].
Qed.

Lemma habitRow_of_active (date : string) (db : Db) (habitId : string) :
  In habitId (map id (activeHabits date db)) ->
  exists row, habitRow db habitId = Some row.
Proof.
  intros Hin. apply in_map_iff in Hin as (h & <- & Hh).
  apply filter_In in Hh as [Hh _]. unfold habitRow.
  destruct (find (fun x => id x =s? id h) (habits db)) as [row|] eqn:E;
    [now exists row|].
  apply (find_none _ _ E) in Hh. now rewrite String.eqb_refl in Hh.
Qed.

(** For a calendar day and a store whose completions are all dated by
    calendar days, the award pass returns. *)
Lemma checkAchievements_returns (date : string) (db : Db) (c : Day) :
  parseISO date = Some c -> wfCompletions db ->
  exists db', checkAchievements date db = Some db'.
Proof.
  intros Hp Hwf. unfold checkAchievements.
  destruct (List.length (activeHabits date db) =? 0)%nat; [now eexists|].
  set (habitIds := map id (activeHabits date db)).
  set (db1 := if forallb _ habitIds then _ else db).
  assert (T1 : habits db1 = habits db /\ completions db1 = completions db)
    by apply insert_if_tables.
  destruct T1 as [Hh1 Hc1].
  destruct (forEach_returns _ (perHabitStreaks date) habitIds db)
    with (db1 := db1) as (db2 & -> & Hh2 & Hc2); [|assumption|assumption|].
  { intros x dbx _ Hh Hc. unfold perHabitStreaks.
    destruct (countBack_returns dbx x date 0) as [n ->];
      [now apply (wfCompletions_same_table db)|].
    eexists. split; [reflexivity|].
    set (d7 := if 7 <=? n then _ else dbx).
    set (d14 := if 14 <=? n then _ else d7).
    destruct (insert_if_tables (7 <=? n) "streak_7" (Some x) date dbx)
      as [T7 T7'].
    destruct (insert_if_tables (14 <=? n) "streak_14" (Some x) date d7)
      as [T14 T14'].
    destruct (insert_if_tables (21 <=? n) "streak_21" (Some x) date d14)
      as [T21 T21'].
    fold d7 in T7, T7'. fold d14 in T14, T14'.
    split; congruence. }
  destruct (forEach_returns _ (globalStreaks date) [7; 14; 21] db)
    with (db1 := db2) as (db3 & -> & Hh3 & Hc3); [|assumption|assumption|].
  { intros N dbx _ Hh Hc. unfold globalStreaks.
    destruct (allStreak_returns dbx date c (Z.to_nat N) Hp 0) as [ok ->].
    eexists. split; [reflexivity|].
    destruct (insert_if_tables ok ("streak_" +++ numberToString N) None
                date dbx) as [? ?].
    split; congruence. }
  rewrite Hp. destruct c as [[y m] d].
  fold (prevMonthStr y m).
  destruct (forEach_returns _
              (perHabitMonth (prevMonthStr y m) (prevMonthStr y m +++ "-01")
                 (daysInMonth (if m =? 1 then y - 1 else y)
                              (if m =? 1 then 12 else m - 1)))
              habitIds db)
    with (db1 := db3) as (db4 & -> & Hh4 & Hc4); [|assumption|assumption|].
  { intros x dbx Hx Hh Hc. unfold perHabitMonth.
    rewrite (habitRow_same_table x db dbx Hh).
    destruct (habitRow_of_active date db x Hx) as [row ->].
    destruct (_ <s? created_date row); [now exists dbx|].
    eexists. split; [reflexivity|].
    match goal with
    | |- context [if ?b then insertAchievement ?t ?i ?e ?d else ?d] =>
        destruct (insert_if_tables b t i e d) as [? ?]
    end.
    split; congruence. }
  now eexists.
Qed.

(* ----------------------------------------------------------------- *)
(** ** Re-awarding *)

(** A per-habit row meets the unique index: inserting it again changes
    nothing. *)
Lemma insertAchievement_habit_again (ty habitId earnedDate : string)
    (db : Db) :
  insertAchievement ty (Some habitId) earnedDate
    (insertAchievement ty (Some habitId) earnedDate db)
  = insertAchievement ty (Some habitId) earnedDate db.
Proof.
  unfold insertAchievement at 2.
  destruct (existsb _ (achievements db)) eqn:E.
  - unfold insertAchievement. now rewrite E.
  - unfold insertAchievement. rewrite E.
    cbn [achievements set_achievements].
    rewrite existsb_app, E.
    cbn [existsb type habit_id earned_date sql_eq sql_where orb].
    now rewrite !String.eqb_refl.
Qed.

(** A global row, whose [habit_id] is [NULL], never meets it: each
    insertion adds a row. *)
Lemma insertAchievement_global_appends (ty earnedDate : string) (db : Db) :
  insertAchievement ty None earnedDate db
  = set_achievements db
      (achievements db ++ [mkAchievement ty None earnedDate]).
Proof.
  unfold insertAchievement.
  replace (existsb _ (achievements db)) with false; [reflexivity|].
  symmetry. induction (achievements db) as [|a l IH]; simpl; [reflexivity|].
  rewrite IH. destruct (type a =s? ty); destruct (habit_id a); reflexivity.
Qed.

(** C1, at [oneDayDb]: the award pass of 2024-01-07 writes the global
    [perfect_day] row, and a second pass on the result writes it once
    more, leaving two rows with the same (type, habit, date). *)
Theorem checkAchievements_twice_repeats_global_row :
  exists db1 db2,
    checkAchievements "2024-01-07" oneDayDb = Some db1
    /\ checkAchievements "2024-01-07" db1 = Some db2
    /\ achievements db1 = [mkAchievement "perfect_day" None "2024-01-07"]
    /\ achievements db2 = [mkAchievement "perfect_day" None "2024-01-07";
                           mkAchievement "perfect_day" None "2024-01-07"].
Proof.
  eexists. eexists.
  split; [vm_compute; reflexivity|].
  split; [vm_compute; reflexivity|].
  split; reflexivity.
Qed.

(** *** The pass as a list of insertions *)

Lemma set_achievements_eta (db : Db) : set_achievements db (achievements db) = db.
Proof. now destruct db. Qed.

Lemma insertAchievement_set (ty : string) (habitId : option string)
    (earnedDate : string) (db : Db) (a : list Achievement) :
  exists a',
    insertAchievement ty habitId earnedDate (set_achievements db a)
    = set_achievements db a'.
Proof.
  unfold insertAchievement. destruct (existsb _ _); eexists; reflexivity.
Qed.

Lemma insertAll_set (rows : list Achievement) (db : Db) (a : list Achievement) :
  exists a', insertAll rows (set_achievements db a) = set_achievements db a'.
Proof.
  revert a. induction rows as [|r rows IH]; intros a; simpl.
  - now exists a.
  - destruct (insertAchievement_set (type r) (habit_id r) (earned_date r) db a)
      as [a' ->].
    apply IH.
Qed.

Lemma insertAll_app (r1 r2 : list Achievement) (db : Db) :
  insertAll (r1 ++ r2) db = insertAll r2 (insertAll r1 db).
Proof. unfold insertAll. apply fold_left_app. Qed.

Lemma countBack_set (fuel : nat) (db : Db) (a : list Achievement)
    (habitId checkDay : string) (acc : Z) :
  countBack fuel (set_achievements db a) habitId checkDay acc
  = countBack fuel db habitId checkDay acc.
Proof.
  revert checkDay acc. induction fuel as [|fuel IH]; intros checkDay acc;
    simpl; [reflexivity|].
  change (checkCompletion (set_achievements db a) checkDay habitId)
    with (checkCompletion db checkDay habitId).
  destruct (checkCompletion db checkDay habitId); [|reflexivity].
  destruct (shiftDateStr checkDay (-1)); [apply IH | reflexivity].
Qed.

Lemma allStreak_set (db : Db) (a : list Achievement) (date : string)
    (i : Z) (turns : nat) :
  allStreak (set_achievements db a) date i turns = allStreak db date i turns.
Proof.
  revert i. induction turns as [|turns IH]; intros i; simpl; [reflexivity|].
  destruct (shiftDateStr date (- i)) as [checkDay|]; [|reflexivity].
  change (dayComplete (set_achievements db a) checkDay)
    with (dayComplete db checkDay).
  destruct (dayComplete db checkDay); [apply IH | reflexivity].
Qed.

Lemma forEach_collect (A : Type) (body : A -> Db -> option Db)
    (f : A -> option (list Achievement)) (xs : list A) (db : Db) :
  (forall x a, body x (set_achievements db a)
               = rows <- f x ;; Some (insertAll rows (set_achievements db a))) ->
  forall a, forEach body xs (set_achievements db a)
            = rows <- collect f xs ;;
              Some (insertAll rows (set_achievements db a)).
Proof.
  intros Hbody. induction xs as [|x xs IH]; intros a; simpl; [reflexivity|].
  rewrite Hbody. destruct (f x) as [r|]; [|reflexivity].
  destruct (insertAll_set r db a) as [a' E]. rewrite E, IH.
  destruct (collect f xs) as [rs|]; [|reflexivity].
  now rewrite insertAll_app, E.
Qed.

Lemma perHabitStreaks_attempts (date habitId : string) (db : Db)
    (a : list Achievement) :
  perHabitStreaks date habitId (set_achievements db a)
  = rows <- (streak <- countBack (walkFuel db) db habitId date 0 ;;
             Some (streakAttempts date habitId streak)) ;;
    Some (insertAll rows (set_achievements db a)).
Proof.
  unfold perHabitStreaks.
  change (walkFuel (set_achievements db a)) with (walkFuel db).
  rewrite countBack_set.
  destruct (countBack (walkFuel db) db habitId date 0) as [n|]; [|reflexivity].
  unfold streakAttempts.
  destruct (7 <=? n), (14 <=? n), (21 <=? n); reflexivity.
Qed.

Lemma globalStreaks_attempts (date : string) (threshold : Z) (db : Db)
    (a : list Achievement) :
  globalStreaks date threshold (set_achievements db a)
  = rows <- (ok <- allStreak db date 0 (Z.to_nat threshold) ;;
             Some (if ok
                   then [mkAchievement ("streak_" +++ numberToString threshold)
                                       None date]
                   else [])) ;;
    Some (insertAll rows (set_achievements db a)).
Proof.
  unfold globalStreaks. rewrite allStreak_set.
  destruct (allStreak db date 0 (Z.to_nat threshold)) as [[|]|]; reflexivity.
Qed.

Lemma perHabitMonth_attempts (monthStr : string) (days : Z)
    (habitId : string) (db : Db) (a : list Achievement) :
  perHabitMonth monthStr (monthStr +++ "-01") days habitId
                (set_achievements db a)
  = rows <- monthAttempts db monthStr days habitId ;;
    Some (insertAll rows (set_achievements db a)).
Proof.
  unfold perHabitMonth, monthAttempts.
  change (habitRow (set_achievements db a) habitId) with (habitRow db habitId).
  destruct (habitRow db habitId) as [row|]; [|reflexivity].
  destruct (_ <s? created_date row); [reflexivity|].
  match goal with
  | |- context [forallb ?f ?l] =>
      change (forallb f l)
        with (forallb (fun d => checkCompletion db (dayOfMonthStr monthStr d)
                                                habitId) l)
  end.
  destruct (forallb _ _); reflexivity.
Qed.

(** The award pass is the insertion, one after the other, of the rows
    of [awardAttempts], which depend on [habits] and [completions]
    only. *)
Lemma checkAchievements_attempts (date : string) (db : Db)
    (a : list Achievement) :
  checkAchievements date (set_achievements db a)
  = rows <- awardAttempts date db ;;
    Some (insertAll rows (set_achievements db a)).
Proof.
  unfold checkAchievements, awardAttempts.
  change (activeHabits date (set_achievements db a))
    with (activeHabits date db).
  destruct (List.length (activeHabits date db) =? 0)%nat; [reflexivity|].
  set (habitIds := map id (activeHabits date db)).
  match goal with
  | |- context [forallb ?f habitIds] =>
      change (forallb f habitIds)
        with (forallb (fun i => checkCompletion db date i) habitIds)
  end.
  set (allDone := forallb _ habitIds).
  assert (E1 : exists a1,
            (if allDone
             then insertAchievement "perfect_day" None date
                    (set_achievements db a)
             else set_achievements db a) = set_achievements db a1
            /\ forall rest,
                 insertAll ((if allDone
                             then [mkAchievement "perfect_day" None date]
                             else []) ++ rest) (set_achievements db a)
                 = insertAll rest (set_achievements db a1)).
  { destruct allDone.
    - destruct (insertAchievement_set "perfect_day" None date db a) as [a1 E].
      exists a1. split; [exact E|]. intros rest. simpl. now rewrite E.
    - exists a. split; reflexivity. }
  destruct E1 as (a1 & -> & Hday).
  rewrite (forEach_collect _ _ _ habitIds db
             (fun x a => perHabitStreaks_attempts date x db a)).
  destruct (collect _ habitIds) as [perHabit|]; [|reflexivity].
  destruct (insertAll_set perHabit db a1) as [a2 E2]. rewrite E2.
  rewrite (forEach_collect _ _ _ [7; 14; 21] db
             (fun x a => globalStreaks_attempts date x db a)).
  destruct (collect _ [7; 14; 21]) as [global|]; [|reflexivity].
  destruct (insertAll_set global db a2) as [a3 E3]. rewrite E3.
  destruct (parseISO date) as [[[y m] d]|]; [|reflexivity].
  fold (prevMonthStr y m).
  rewrite (forEach_collect _ _ _ habitIds db
             (fun x a => perHabitMonth_attempts (prevMonthStr y m) _ x db a)).
  destruct (collect _ habitIds) as [months|]; [|reflexivity].
  destruct (insertAll_set months db a3) as [a4 E4]. rewrite E4.
  rewrite Hday, !insertAll_app, E2, E3, E4.
  match goal with
  | |- context [forallb ?f ?l] =>
      change (forallb f l)
        with (forallb (fun d => dayComplete db
                                  (dayOfMonthStr (prevMonthStr y m) d)) l)
  end.
  match goal with
  | |- context [if ?b then [_] else []] => destruct b
  end; reflexivity.
Qed.

(** *** A second pass *)

Lemma insertAchievement_keeps (ty : string) (habitId : option string)
    (earnedDate : string) (db : Db) (a : Achievement) :
  In a (achievements db) ->
  In a (achievements (insertAchievement ty habitId earnedDate db)).
Proof.
  intros Hin. unfold insertAchievement.
  destruct (existsb _ _); [exact Hin|]. simpl. apply in_or_app. now left.
Qed.

Lemma insertAll_keeps (rows : list Achievement) (db : Db) (a : Achievement) :
  In a (achievements db) -> In a (achievements (insertAll rows db)).
Proof.
  revert db. induction rows as [|r rows IH]; intros db Hin; simpl;
    [exact Hin|].
  apply IH. now apply insertAchievement_keeps.
Qed.

Lemma conflict_habit_row (a : Achievement) (l : list Achievement) :
  habit_id a <> None ->
  existsb (fun x => (type x =s? type a)
                    && sql_where (sql_eq (habit_id x) (habit_id a))
                    && (earned_date x =s? earned_date a)) l = true
  <-> In a l.
Proof.
  intros Hh. rewrite existsb_exists. split.
  - intros (x & Hin & Hx).
    apply andb_true_iff in Hx as [Hx He].
    apply andb_true_iff in Hx as [Ht Hi].
    apply String.eqb_eq in Ht, He.
    destruct x as [tx [hx|] ex], a as [ta [ha|] ea]; simpl in *;
      try discriminate; try contradiction.
    destruct (String.eqb_spec hx ha); [now subst | discriminate].
  - intros Hin. exists a. split; [exact Hin|].
    destruct a as [ta [ha|] ea]; simpl in *; [|contradiction].
    now rewrite !String.eqb_refl.
Qed.

Lemma insertAll_habit_rows (rows : list Achievement) (db : Db)
    (a : Achievement) :
  In a rows -> habit_id a <> None -> In a (achievements (insertAll rows db)).
Proof.
  revert db. induction rows as [|r rows IH]; intros db Hin Hh; simpl;
    [contradiction|].
  destruct Hin as [->|Hin]; [|now apply IH].
  apply insertAll_keeps. unfold insertAchievement.
  destruct (existsb _ (achievements db)) eqn:E.
  - now apply (conflict_habit_row a).
  - simpl. apply in_or_app. right. left. now destruct a.
Qed.

(** Where the per-habit rows of [rows] are already stored, inserting
    [rows] appends its global rows and nothing else. *)
Lemma insertAll_present (rows : list Achievement) (db : Db) :
  (forall a, In a rows -> habit_id a <> None -> In a (achievements db)) ->
  achievements (insertAll rows db)
  = achievements db ++ filter (fun a => isNull (habit_id a)) rows.
Proof.
  revert db. induction rows as [|r rows IH]; intros db Hpres; simpl;
    [now rewrite app_nil_r|].
  destruct (habit_id r) as [h|] eqn:Eh; simpl.
  - assert (Hr : In r (achievements db))
      by (apply Hpres; [now left | congruence]).
    assert (E : insertAchievement (type r) (Some h) (earned_date r) db = db).
    { unfold insertAchievement. rewrite <- Eh.
      rewrite (proj2 (conflict_habit_row r (achievements db)
                        ltac:(congruence)) Hr).
      reflexivity. }
    rewrite E. apply IH. intros a Ha. apply Hpres. now right.
  - rewrite insertAchievement_global_appends.
    rewrite IH.
    + simpl. rewrite <- app_assoc. simpl. do 2 f_equal.
      destruct r; simpl in *; congruence.
    + intros a Ha Hh. simpl. apply in_or_app. left.
      apply Hpres; [now right | exact Hh].
Qed.

(** What a second award pass does, in general: it returns, and it
    appends once more every global row the first pass was handed,
    while no per-habit row is added. *)
Lemma checkAchievements_again (date : string) (db db1 : Db) :
  checkAchievements date db = Some db1 ->
  exists rows db2,
    awardAttempts date db = Some rows
    /\ checkAchievements date db1 = Some db2
    /\ achievements db2
       = achievements db1 ++ filter (fun a => isNull (habit_id a)) rows.
Proof.
  intros Hrun. rewrite <- (set_achievements_eta db) in Hrun.
  rewrite checkAchievements_attempts in Hrun.
  destruct (awardAttempts date db) as [rows|] eqn:Erows; [|discriminate].
  rewrite set_achievements_eta in Hrun. injection Hrun as <-.
  exists rows, (insertAll rows (insertAll rows db)).
  split; [reflexivity|]. split.
  - destruct (insertAll_set rows db (achievements db)) as [a1 E].
    rewrite set_achievements_eta in E. rewrite E.
    now rewrite checkAchievements_attempts, Erows.
  - apply insertAll_present. intros a Ha Hh.
    now apply insertAll_habit_rows.
Qed.

(* ================================================================= *)
(** * Further properties *)

(* ----------------------------------------------------------------- *)
(** ** Sorting *)

Lemma insert_by_snoc (A : Type) (key : A -> Z) (y x : A) (s : list A) :
  key y <= key x ->
  insert_by key y (s ++ [x]) = insert_by key y s ++ [x].
Proof.
  intros Hle. induction s as [|z s IH]; simpl.
  - destruct (Z.leb_spec (key y) (key x)); [reflexivity | lia].
  - destruct (key y <=? key z); [reflexivity | now rewrite IH].
Qed.

Lemma order_by_snoc (A : Type) (key : A -> Z) (x : A) (l : list A) :
  (forall y, In y l -> key y <= key x) ->
  order_by key (l ++ [x]) = order_by key l ++ [x].
Proof.
  induction l as [|y l IH]; intros Hle; simpl; [reflexivity|].
  rewrite IH by (intros; apply Hle; now right).
  apply insert_by_snoc. apply Hle. now left.
Qed.

Lemma insert_by_map (A : Type) (key : A -> Z) (f : A -> A) (x : A)
    (l : list A) :
  (forall y, key (f y) = key y) ->
  insert_by key (f x) (map f l) = map f (insert_by key x l).
Proof.
  intros Hk. induction l as [|y l IH]; simpl; [reflexivity|].
  rewrite !Hk. destruct (key x <=? key y); simpl; [reflexivity|].
  now rewrite IH.
Qed.

Lemma order_by_map (A : Type) (key : A -> Z) (f : A -> A) (l : list A) :
  (forall y, key (f y) = key y) ->
  order_by key (map f l) = map f (order_by key l).
Proof.
  intros Hk. induction l as [|y l IH]; simpl; [reflexivity|].
  rewrite IH. now apply insert_by_map.
Qed.

Lemma insert_by_Permutation (A : Type) (key : A -> Z) (x : A) (l : list A) :
  Permutation (insert_by key x l) (x :: l).
Proof.
  induction l as [|y l IH]; simpl; [reflexivity|].
  destruct (key x <=? key y); [reflexivity|].
  rewrite IH. apply perm_swap.
Qed.

Lemma order_by_Permutation (A : Type) (key : A -> Z) (l : list A) :
  Permutation (order_by key l) l.
Proof.
  induction l as [|y l IH]; simpl; [reflexivity|].
  rewrite insert_by_Permutation. now constructor.
Qed.

Lemma insert_by_sorted (A : Type) (key : A -> Z) (x : A) (l : list A) :
  StronglySorted (fun a b => key a <= key b) l ->
  StronglySorted (fun a b => key a <= key b) (insert_by key x l).
Proof.
  induction l as [|y l IH]; intros Hs; simpl.
  - constructor; constructor.
  - inversion Hs as [|? ? Hs' Hall]; subst.
    destruct (Z.leb_spec (key x) (key y)).
    + constructor; [exact Hs|]. constructor; [assumption|].
      rewrite Forall_forall in *. intros z Hz. specialize (Hall z Hz). lia.
    + constructor; [now apply IH|].
      rewrite Forall_forall in *. intros z Hz.
      apply (Permutation_in _ (insert_by_Permutation _ key x l)) in Hz.
      destruct Hz as [<-|Hz]; [lia | now apply Hall].
Qed.

Lemma order_by_sorted (A : Type) (key : A -> Z) (l : list A) :
  StronglySorted (fun a b => key a <= key b) (order_by key l).
Proof.
  induction l as [|y l IH]; simpl; [constructor|].
  now apply insert_by_sorted.
Qed.

(* ----------------------------------------------------------------- *)
(** ** Managing habits *)

Lemma fold_left_max_ge (l : list Z) (a : Z) :
  a <= fold_left Z.max l a /\ forall x, In x l -> x <= fold_left Z.max l a.
Proof.
  revert a. induction l as [|y l IH]; intros a; simpl.
  - split; [lia | intros x []].
  - destruct (IH (Z.max a y)) as [H1 H2]. split; [lia|].
    intros x [<-|Hx]; [lia | now apply H2].
Qed.

Lemma maxSortOrder_bound (db : Db) (h : Habit) :
  In h (habits db) -> sort_order h <= coalesce (maxSortOrder db) (-1).
Proof.
  unfold maxSortOrder. destruct (habits db) as [|h0 hs]; [intros []|].
  simpl. destruct (fold_left_max_ge (map sort_order hs) (sort_order h0))
    as [H1 H2].
  intros [<-|Hin]; [exact H1|]. apply H2. now apply in_map.
Qed.

Lemma id_taken (l : list Habit) (habitId : string) :
  existsb (fun h => id h =s? habitId) l = true <-> In habitId (map id l).
Proof.
  rewrite existsb_exists, in_map_iff. split.
  - intros (h & Hin & E). apply String.eqb_eq in E. now exists h.
  - intros (h & E & Hin). exists h. split; [exact Hin|].
    now apply String.eqb_eq.
Qed.

(** X1. [addHabit] throws exactly when the id is already a habit's.
    With a fresh id it returns the new habit, lists it last in
    [getHabits] after the habits that were there, in their order, and
    leaves completions and achievements alone. *)
Theorem addHabit_lists_last (newId createdDate name : string) (db : Db) :
  (In newId (map id (habits db)) ->
   addHabit newId createdDate name db = None)
  /\ (~ In newId (map id (habits db)) ->
      exists db',
        addHabit newId createdDate name db
        = Some (mkHabitInfo newId name createdDate false None, db')
        /\ getHabits db'
           = getHabits db ++ [mkHabitInfo newId name createdDate false None]
        /\ completions db' = completions db
        /\ achievements db' = achievements db).
Proof.
  unfold addHabit. split; intros Hid.
  - apply id_taken in Hid. now rewrite Hid.
  - destruct (existsb _ (habits db)) eqn:E;
      [apply id_taken in E; contradiction|].
    eexists. split; [reflexivity|]. split; [|split; reflexivity].
    unfold getHabits. simpl habits.
    rewrite order_by_snoc, map_app; [reflexivity|].
    intros y Hy. simpl. pose proof (maxSortOrder_bound db y Hy). lia.
Qed.

Lemma addHabit_lists_last_witness :
  exists db',
    addHabit "c0ffee00" "2024-01-08" "Walk" weekDb
    = Some (mkHabitInfo "c0ffee00" "Walk" "2024-01-08" false None, db')
    /\ getHabits db'
       = getHabits weekDb
         ++ [mkHabitInfo "c0ffee00" "Walk" "2024-01-08" false None]
    /\ completions db' = completions weekDb
    /\ achievements db' = achievements weekDb.
Proof.
  apply (addHabit_lists_last "c0ffee00" "2024-01-08" "Walk" weekDb).
  simpl. intros [H|[H|[]]]; discriminate H.
Defined.

Lemma map_unless (A : Type) (p : A -> bool) (f : A -> A) (l : list A) :
  (forall x, In x l -> p x = false) ->
  map (fun x => if p x then f x else x) l = l.
Proof.
  induction l as [|x l IH]; intros H; simpl; [reflexivity|].
  rewrite (H x (or_introl eq_refl)). f_equal. apply IH.
  intros; apply H; now right.
Qed.

Lemma filter_nothing (A : Type) (p : A -> bool) (l : list A) :
  (forall x, In x l -> p x = false) -> filter p l = [].
Proof.
  induction l as [|x l IH]; intros H; simpl; [reflexivity|].
  rewrite (H x (or_introl eq_refl)). apply IH. intros; apply H; now right.
Qed.

Lemma set_habits_eta (db : Db) : set_habits db (habits db) = db.
Proof. now destruct db. Qed.

(** An [UPDATE] by an id no habit has changes nothing. *)
Lemma updateHabit_unknown (set : Habit -> Habit) (habitId : string)
    (db : Db) :
  ~ In habitId (map id (habits db)) ->
  updateHabit set habitId db = (0%nat, db).
Proof.
  intros Hno. unfold updateHabit.
  assert (Hf : forall h, In h (habits db) -> (id h =s? habitId) = false).
  { intros h Hin. apply String.eqb_neq. intros E. apply Hno.
    rewrite <- E. now apply in_map. }
  rewrite filter_nothing, map_unless, set_habits_eta; auto.
Qed.

Lemma updateHabit_tables (set : Habit -> Habit) (habitId : string) (db : Db) :
  completions (snd (updateHabit set habitId db)) = completions db
  /\ achievements (snd (updateHabit set habitId db)) = achievements db.
Proof. now split. Qed.

Lemma updateHabit_ids (set : Habit -> Habit) (habitId : string) (db : Db) :
  (forall x, id (set x) = id x) ->
  map id (habits (snd (updateHabit set habitId db))) = map id (habits db).
Proof.
  intros Hid. simpl. rewrite map_map. apply map_ext.
  intros x. destruct (id x =s? habitId); [apply Hid | reflexivity].
Qed.

(** An [UPDATE] by the id of habit [h], ids being unique, changes at
    least one row and leaves [set h] as the row of that id. *)
Lemma updateHabit_known (set : Habit -> Habit) (habitId : string) (db : Db)
    (h : Habit) :
  (forall x, id (set x) = id x) ->
  NoDup (map id (habits db)) -> In h (habits db) -> id h = habitId ->
  fst (updateHabit set habitId db) <> 0%nat
  /\ habitRow (snd (updateHabit set habitId db)) habitId = Some (set h).
Proof.
  intros Hid Hnd Hin E. split.
  - simpl. intros Hlen. apply length_zero_iff_nil in Hlen.
    assert (Hf : In h (filter (fun x => id x =s? habitId) (habits db))).
    { apply filter_In. split; [exact Hin | now apply String.eqb_eq]. }
    rewrite Hlen in Hf. destruct Hf.
  - unfold habitRow.
    assert (Hin' : In (set h) (habits (snd (updateHabit set habitId db)))).
    { simpl. apply in_map_iff. exists h. split; [|exact Hin].
      now rewrite (proj2 (String.eqb_eq (id h) habitId) E). }
    assert (Hnd' : NoDup (map id (habits (snd (updateHabit set habitId db)))))
      by (rewrite (updateHabit_ids set habitId db Hid); exact Hnd).
    pose proof (find_by_id _ (set h) Hnd' Hin') as F.
    rewrite Hid, E in F. exact F.
Qed.

(** X2. [renameHabit] with an id no habit has returns [null] and
    changes nothing.  With the id of a habit it returns that habit
    under its new name, and [getHabits] afterwards is what it was with
    that one name replaced: order, dates and flags stay. *)
Theorem renameHabit_only_the_name (habitId newName : string) (db : Db) :
  (~ In habitId (map id (habits db)) ->
   renameHabit habitId newName db = (None, db))
  /\ (NoDup (map id (habits db)) ->
      forall h, In h (habits db) -> id h = habitId ->
      exists db',
        renameHabit habitId newName db
        = (Some (mkHabitInfo habitId newName (created_date h) (deleted h)
                             (deleted_date h)), db')
        /\ getHabits db'
           = map (fun i => if info_id i =s? habitId
                           then mkHabitInfo (info_id i) newName
                                  (info_createdDate i) (info_deleted i)
                                  (info_deletedDate i)
                           else i) (getHabits db)
        /\ completions db' = completions db
        /\ achievements db' = achievements db).
Proof.
  unfold renameHabit. split.
  - intros Hno. now rewrite updateHabit_unknown.
  - intros Hnd h Hin E.
    set (setName := fun x => mkHabit (id x) newName (created_date x)
                               (deleted x) (deleted_date x) (sort_order x)).
    destruct (updateHabit_known setName habitId db h
                ltac:(reflexivity) Hnd Hin E) as [Hch Hrow].
    destruct (updateHabit setName habitId db) as [changes db'] eqn:Eu.
    simpl in Hch, Hrow.
    destruct (Nat.eqb_spec changes 0); [contradiction|].
    exists db'. split; [|split].
    + unfold selectHabit. rewrite Hrow. unfold habitInfo, setName. simpl.
      now rewrite E.
    + injection Eu as _ <-. unfold getHabits. simpl habits.
      rewrite (order_by_map _ sort_order
                 (fun x => if id x =s? habitId then setName x else x))
        by (intros y; destruct (id y =s? habitId); reflexivity).
      rewrite !map_map. apply map_ext. intros x. simpl.
      destruct (id x =s? habitId); reflexivity.
    + injection Eu as _ <-. now split.
Qed.

Lemma renameHabit_only_the_name_witness :
  renameHabit "Z" "Jog" weekDb = (None, weekDb)
  /\ exists db',
       renameHabit "A" "Jog" weekDb
       = (Some (mkHabitInfo "A" "Jog" "2024-01-01" false None), db')
       /\ map info_name (getHabits db') = ["Jog"; "Read"].
Proof.
  destruct (renameHabit_only_the_name "Z" "Jog" weekDb) as [Hno _].
  destruct (renameHabit_only_the_name "A" "Jog" weekDb) as [_ Hyes].
  split.
  - apply Hno. simpl. intros [H|[H|[]]]; discriminate H.
  - destruct (Hyes ltac:(simpl; repeat constructor; simpl; intuition discriminate)
                habitA ltac:(simpl; now left) eq_refl)
      as (db' & Hr & Hg & _).
    exists db'. split; [exact Hr|]. rewrite Hg. reflexivity.
Defined.

(** X3. [deleteHabit] with an id no habit has returns [null] and
    changes nothing.  With the id of a habit it is a soft delete dated
    [D]: completions and achievements stay, and in the day view of any
    date the other habits' rows are as before while the deleted habit
    has its row, flagged deleted, exactly on the dates strictly before
    [D]; this also moves the deletion date of a habit that was deleted
    before. *)
Theorem deleteHabit_day_view (D habitId : string) (db : Db) :
  (~ In habitId (map id (habits db)) ->
   deleteHabit D habitId db = (None, db))
  /\ (NoDup (map id (habits db)) ->
      forall h, In h (habits db) -> id h = habitId ->
      exists db',
        deleteHabit D habitId db
        = (Some (mkHabitInfo habitId (name h) (created_date h) true
                             (Some D)), db')
        /\ completions db' = completions db
        /\ achievements db' = achievements db
        /\ forall date r,
             In r (getDayView date db') <->
             (In r (getDayView date db) /\ row_id r <> habitId)
             \/ (r = mkDayRow habitId (name h)
                              (checkCompletion db date habitId) true
                 /\ (date <s? D) = true)).
Proof.
  unfold deleteHabit. split.
  - intros Hno. now rewrite updateHabit_unknown.
  - intros Hnd h Hin E.
    set (tomb := fun x => mkHabit (id x) (name x) (created_date x) true
                            (Some D) (sort_order x)).
    destruct (updateHabit_known tomb habitId db h
                ltac:(reflexivity) Hnd Hin E) as [Hch Hrow].
    destruct (updateHabit tomb habitId db) as [changes db'] eqn:Eu.
    simpl in Hch, Hrow.
    destruct (Nat.eqb_spec changes 0); [contradiction|].
    exists db'. injection Eu as _ <-.
    split; [|split; [reflexivity|split; [reflexivity|]]].
    { unfold selectHabit. rewrite Hrow. unfold habitInfo, tomb. simpl.
      now rewrite E. }
    intros date r. rewrite !getDayView_In. simpl habits. split.
    + intros (x' & Hx' & Hv & ->).
      apply in_map_iff in Hx' as (x & <- & Hx).
      destruct (String.eqb_spec (id x) habitId) as [Ex|Ex].
      * right.
        assert (x = h) as ->.
        { pose proof (find_by_id _ _ Hnd Hin) as F1.
          pose proof (find_by_id _ _ Hnd Hx) as F2.
          rewrite Ex, <- E in F2. congruence. }
        rewrite (notDeletedAsOf_deleted (tomb h) D date eq_refl eq_refl)
          in Hv.
        split; [|exact Hv]. simpl. now rewrite E.
      * left. split; [|exact Ex]. exists x. now repeat split.
    + intros [[(x & Hx & Hv & ->) Hne]|[-> Hlt]].
      * simpl in Hne. exists x. split; [|now split].
        apply in_map_iff. exists x. split; [|exact Hx].
        now rewrite (proj2 (String.eqb_neq (id x) habitId) Hne).
      * exists (tomb h). split; [|split].
        -- apply in_map_iff. exists h. split; [|exact Hin].
           now rewrite (proj2 (String.eqb_eq (id h) habitId) E).
        -- now rewrite (notDeletedAsOf_deleted (tomb h) D date eq_refl eq_refl).
        -- simpl. now rewrite E.
Qed.

Lemma deleteHabit_day_view_witness :
  exists db',
    deleteHabit "2024-01-05" "A" weekDb
    = (Some (mkHabitInfo "A" "Run" "2024-01-01" true (Some "2024-01-05")),
       db')
    /\ In (mkDayRow "A" "Run" true true) (getDayView "2024-01-04" db')
    /\ ~ In (mkDayRow "A" "Run" true true) (getDayView "2024-01-05" db').
Proof.
  destruct (deleteHabit_day_view "2024-01-05" "A" weekDb) as [_ Hyes].
  destruct (Hyes ltac:(simpl; repeat constructor; simpl; intuition discriminate)
              habitA ltac:(simpl; now left) eq_refl)
    as (db' & Hr & _ & _ & Hview).
  exists db'. split; [exact Hr|]. split.
  - apply Hview. right. split; reflexivity.
  - intros Hin. apply Hview in Hin as [[_ Hne]|[_ Hlt]].
    + now apply Hne.
    + discriminate Hlt.
Defined.

(* ----------------------------------------------------------------- *)
(** ** Reordering habits *)

Lemma posOf_absent (x : string) (ids : list string) :
  ~ In x ids -> posOf x ids = None.
Proof.
  induction ids as [|y ids IH]; simpl; intros Hno; [reflexivity|].
  destruct (String.eqb_spec y x) as [->|_]; [exfalso; apply Hno; now left|].
  rewrite IH; [reflexivity | intros H; apply Hno; now right].
Qed.

Lemma posOf_nth (x : string) (ids : list string) (k : nat) (d : string) :
  posOf x ids = Some k -> nth k ids d = x.
Proof.
  revert k. induction ids as [|y ids IH]; simpl; intros k; [discriminate|].
  destruct (String.eqb_spec y x) as [->|_].
  - now intros [= <-].
  - destruct (posOf x ids) as [j|]; simpl; [|discriminate].
    intros [= <-]. now apply IH.
Qed.

Lemma posOf_self (ids : list string) :
  NoDup ids ->
  map (fun x => posOf x ids) ids = map Some (seq 0 (List.length ids)).
Proof.
  induction ids as [|y ids IH]; intros Hnd; simpl; [reflexivity|].
  inversion Hnd as [|? ? Hy Hnd']; subst.
  rewrite String.eqb_refl. f_equal.
  rewrite <- seq_shift, map_map, <- (map_map Some (option_map S)).
  rewrite <- IH by assumption. rewrite map_map.
  apply map_ext_in. intros x Hx.
  destruct (String.eqb_spec y x) as [->|_]; [contradiction | reflexivity].
Qed.

Lemma nth_all (ids : list string) (d : string) :
  map (fun k => nth k ids d) (seq 0 (List.length ids)) = ids.
Proof.
  induction ids as [|y ids IH]; simpl; [reflexivity|].
  f_equal. rewrite <- seq_shift, map_map. exact IH.
Qed.

Lemma reorderFrom_tables (ids : list string) (i : Z) (db : Db) :
  completions (reorderFrom i ids db) = completions db
  /\ achievements (reorderFrom i ids db) = achievements db.
Proof.
  revert i db. induction ids as [|x ids IH]; intros i db;
    cbn [reorderFrom]; [now split|].
  destruct (IH (i + 1)
              (snd (updateHabit
                      (fun h => mkHabit (id h) (name h) (created_date h)
                                        (deleted h) (deleted_date h) i)
                      x db))) as [-> ->].
  now split.
Qed.

(** After the loop each listed habit carries its place in the list,
    the others what they had. *)
Lemma reorderFrom_habits (ids : list string) (i : Z) (db : Db) :
  NoDup ids ->
  habits (reorderFrom i ids db)
  = map (fun h => match posOf (id h) ids with
                  | Some k => withOrder h (i + Z.of_nat k)
                  | None => h
                  end) (habits db).
Proof.
  revert i db. induction ids as [|x ids IH]; intros i db Hnd; simpl.
  - symmetry. apply map_id.
  - inversion Hnd as [|? ? Hx Hnd']; subst.
    rewrite IH by assumption. simpl habits. rewrite map_map.
    apply map_ext. intros h. rewrite (String.eqb_sym x (id h)).
    destruct (String.eqb_spec (id h) x) as [E|_].
    + simpl id. rewrite E, (posOf_absent x ids Hx).
      unfold withOrder. rewrite <- E at 1. f_equal. simpl. lia.
    + destruct (posOf (id h) ids) as [k|]; simpl; [|reflexivity].
      unfold withOrder. f_equal. lia.
Qed.

Lemma sorted_perm_eq (l1 l2 : list Z) :
  StronglySorted Z.le l1 -> StronglySorted Z.le l2 ->
  Permutation l1 l2 -> l1 = l2.
Proof.
  revert l2. induction l1 as [|a l1 IH]; intros l2 S1 S2 P.
  - now apply Permutation_nil in P.
  - destruct l2 as [|b l2];
      [apply Permutation_sym, Permutation_nil in P; discriminate|].
    inversion S1 as [|? ? S1' A1]; subst.
    inversion S2 as [|? ? S2' A2]; subst.
    rewrite Forall_forall in A1, A2.
    assert (a = b) as ->.
    { assert (Ha : In a (b :: l2))
        by (apply (Permutation_in _ P); now left).
      assert (Hb : In b (a :: l1))
        by (apply (Permutation_in _ (Permutation_sym P)); now left).
      destruct Ha as [->|Ha]; [reflexivity|].
      destruct Hb as [->|Hb]; [reflexivity|].
      apply A2 in Ha. apply A1 in Hb. lia. }
    f_equal. apply IH; auto. now apply Permutation_cons_inv in P.
Qed.

Lemma sorted_map (A : Type) (key : A -> Z) (l : list A) :
  StronglySorted (fun a b => key a <= key b) l ->
  StronglySorted Z.le (map key l).
Proof.
  induction 1 as [|a l S IH Hall]; simpl; constructor; [exact IH|].
  rewrite Forall_forall in *. intros k Hk.
  apply in_map_iff in Hk as (b & <- & Hb). now apply Hall.
Qed.

Lemma sorted_places (n : nat) :
  StronglySorted Z.le (map Z.of_nat (seq 0 n)).
Proof.
  generalize 0%nat. induction n as [|n IH]; intros s; simpl; constructor.
  - apply IH.
  - rewrite Forall_forall. intros k Hk.
    apply in_map_iff in Hk as (j & <- & Hj). apply in_seq in Hj. lia.
Qed.

(** X4. When [ids] names every habit exactly once, [reorderHabits]
    makes [getHabits] list the habits in the order of [ids]; the
    habits themselves, the completions and the achievements are what
    they were. *)
Theorem reorderHabits_order (ids : list string) (db : Db) :
  NoDup ids -> Permutation ids (map id (habits db)) ->
  map info_id (getHabits (reorderHabits ids db)) = ids
  /\ Permutation (getHabits (reorderHabits ids db)) (getHabits db)
  /\ completions (reorderHabits ids db) = completions db
  /\ achievements (reorderHabits ids db) = achievements db.
Proof.
  intros Hnd Hperm. unfold reorderHabits.
  pose proof (reorderFrom_habits ids 0 db Hnd) as Hhs.
  set (place := fun h => match posOf (id h) ids with
                         | Some k => withOrder h (0 + Z.of_nat k)
                         | None => h
                         end) in Hhs.
  assert (Hinfo : forall h, habitInfo (place h) = habitInfo h)
    by (intros h; unfold place; destruct (posOf (id h) ids); reflexivity).
  assert (Hpos : forall h, In h (habits db) ->
            posOf (id h) ids = Some (Z.to_nat (sort_order (place h)))
            /\ 0 <= sort_order (place h)).
  { intros h Hin. unfold place.
    destruct (posOf (id h) ids) as [k|] eqn:Ek.
    - simpl. split; [f_equal; lia | lia].
    - exfalso. revert Ek.
      assert (Hid : In (id h) ids).
      { apply (Permutation_in _ (Permutation_sym Hperm)). now apply in_map. }
      clear - Hid. induction ids as [|y ids IH]; simpl; [destruct Hid|].
      destruct (String.eqb_spec y (id h)); [discriminate|].
      destruct Hid as [E|Hid]; [congruence|].
      destruct (posOf (id h) ids); [discriminate | now apply IH]. }
  split; [|split; [|apply reorderFrom_tables]].
  - unfold getHabits. rewrite Hhs.
    set (L := order_by sort_order (map place (habits db))).
    assert (PL : Permutation L (map place (habits db)))
      by apply order_by_Permutation.
    assert (HK : map sort_order L
                 = map Z.of_nat (seq 0 (List.length ids))).
    { apply sorted_perm_eq.
      - apply sorted_map, order_by_sorted.
      - apply sorted_places.
      - rewrite (Permutation_map sort_order PL), map_map.
        assert (E : map (fun h => sort_order (place h)) (habits db)
                    = map (fun x => match posOf x ids with
                                    | Some k => Z.of_nat k
                                    | None => -1
                                    end) (map id (habits db))).
        { rewrite map_map. apply map_ext_in. intros h Hin.
          destruct (Hpos h Hin) as [-> ?]. lia. }
        rewrite E, <- (Permutation_map _ Hperm).
        rewrite <- (map_map (fun x => posOf x ids)
                            (fun o => match o with
                                      | Some k => Z.of_nat k
                                      | None => -1
                                      end)).
        rewrite (posOf_self ids Hnd), map_map. reflexivity. }
    rewrite map_map.
    assert (E : map (fun h => info_id (habitInfo h)) L
                = map (fun k => nth (Z.to_nat k) ids EmptyString)
                      (map sort_order L)).
    { rewrite map_map. apply map_ext_in. intros h' Hin'.
      apply (Permutation_in _ PL) in Hin'.
      apply in_map_iff in Hin' as (h & <- & Hin).
      destruct (Hpos h Hin) as [Hp _].
      apply (posOf_nth _ _ _ EmptyString) in Hp. rewrite Hp.
      unfold place. destruct (posOf (id h) ids); reflexivity. }
    rewrite E, HK, map_map.
    rewrite <- (nth_all ids EmptyString) at 2.
    apply map_ext. intros k. now rewrite Nat2Z.id.
  - unfold getHabits. rewrite Hhs.
    rewrite (Permutation_map habitInfo (order_by_Permutation _ sort_order _)).
    rewrite (Permutation_map habitInfo
               (order_by_Permutation _ sort_order (habits db))).
    rewrite map_map. rewrite (map_ext _ _ Hinfo). reflexivity.
Qed.

Lemma reorderHabits_order_witness :
  map info_id (getHabits (reorderHabits ["B"; "A"] weekDb)) = ["B"; "A"].
Proof.
  apply (reorderHabits_order ["B"; "A"] weekDb).
  - repeat constructor; simpl; intuition discriminate.
  - simpl. apply perm_swap.
Defined.

(* ----------------------------------------------------------------- *)
(** ** Tombstones *)

Lemma updateHabit_tombstones (set : Habit -> Habit) (habitId : string)
    (db : Db) :
  (forall h, (deleted h = true <-> deleted_date h <> None) ->
             (deleted (set h) = true <-> deleted_date (set h) <> None)) ->
  tombstones db -> tombstones (snd (updateHabit set habitId db)).
Proof.
  intros Hset Hdb h' Hin. simpl in Hin.
  apply in_map_iff in Hin as (h & <- & Hin).
  destruct (id h =s? habitId); [apply Hset|]; now apply Hdb.
Qed.

Lemma reorderFrom_tombstones (ids : list string) (i : Z) (db : Db) :
  tombstones db -> tombstones (reorderFrom i ids db).
Proof.
  revert i db. induction ids as [|x ids IH]; intros i db Hdb;
    cbn [reorderFrom]; [exact Hdb|].
  apply IH. apply updateHabit_tombstones; [|exact Hdb].
  intros h Hh. exact Hh.
Qed.

(** X5. A store in which every habit has a deletion date exactly when
    it is flagged deleted stays so under [addHabit], [renameHabit],
    [deleteHabit] and [reorderHabits]. *)
Theorem tombstones_kept (db : Db) :
  tombstones db ->
  (forall newId createdDate name info db',
      addHabit newId createdDate name db = Some (info, db') ->
      tombstones db')
  /\ (forall habitId newName,
         tombstones (snd (renameHabit habitId newName db)))
  /\ (forall date habitId, tombstones (snd (deleteHabit date habitId db)))
  /\ (forall ids, tombstones (reorderHabits ids db)).
Proof.
  intros Hdb. split; [|split; [|split]].
  - intros newId createdDate name info db'. unfold addHabit.
    destruct (existsb _ _); [discriminate|]. intros [= _ <-] h Hin.
    simpl in Hin. apply in_app_or in Hin as [Hin|[<-|[]]]; [now apply Hdb|].
    simpl. split; [discriminate | intros H; now contradiction H].
  - intros habitId newName. unfold renameHabit.
    match goal with
    | |- context [updateHabit ?f habitId db] =>
        pose proof (updateHabit_tombstones f habitId db
                      ltac:(intros h Hh; exact Hh) Hdb) as Hu;
        destruct (updateHabit f habitId db) as [changes db']
    end.
    simpl in Hu. now destruct (changes =? 0)%nat.
  - intros date habitId. unfold deleteHabit.
    match goal with
    | |- context [updateHabit ?f habitId db] =>
        pose proof (updateHabit_tombstones f habitId db
                      ltac:(intros h _; simpl; split;
                            [discriminate | reflexivity]) Hdb) as Hu;
        destruct (updateHabit f habitId db) as [changes db']
    end.
    simpl in Hu. now destruct (changes =? 0)%nat.
  - intros ids. now apply reorderFrom_tombstones.
Qed.

Lemma tombstones_kept_witness :
  tombstones (snd (deleteHabit "2024-01-05" "A" weekDb))
  /\ tombstones (reorderHabits ["B"; "A"] weekDb).
Proof.
  assert (H : tombstones weekDb).
  { intros h [<-|[<-|[]]]; simpl; split; (discriminate || intros E);
      now contradiction E. }
  destruct (tombstones_kept weekDb H) as (_ & _ & Hdel & Hre).
  split; [apply Hdel | apply Hre].
Defined.

(* ----------------------------------------------------------------- *)
(** ** What a reported streak means *)

(** A walk that returns has counted one day per completion met, on
    consecutive days, and stopped at a day without one. *)
Lemma countBack_run (db : Db) (habitId : string) (fuel : nat)
    (checkDay : string) (acc n : Z) :
  countBack fuel db habitId checkDay acc = Some n ->
  exists k,
    n = acc + Z.of_nat k
    /\ completedRun db habitId checkDay k
    /\ exists d, backFrom k checkDay = Some d
                 /\ checkCompletion db d habitId = false.
Proof.
  revert checkDay acc. induction fuel as [|fuel IH]; intros checkDay acc;
    simpl; [discriminate|].
  destruct (checkCompletion db checkDay habitId) eqn:Hdone.
  - destruct (shiftDateStr checkDay (-1)) as [prev|] eqn:Hprev;
      [|discriminate].
    intros Hrun. apply IH in Hrun as (k & -> & Hk & d & Hd & Hnot).
    exists (S k). split; [lia|]. split.
    + intros [|j] Hj; simpl.
      * now exists checkDay.
      * rewrite Hprev. apply Hk. lia.
    + exists d. simpl. rewrite Hprev. now split.
  - intros [= <-]. exists O. split; [lia|]. split.
    + intros j Hj. lia.
    + now exists checkDay.
Qed.

Lemma habitStreak_row (today date : string) (db : Db) (h : Habit)
    (r : StreakRow) :
  habitStreak today date db h = Some (Some r) ->
  streak_id r = id h /\ streak_name r = name h /\ 1 <= streak r
  /\ exists start k,
       streak r = Z.of_nat k
       /\ ((checkCompletion db date (id h) = true /\ start = date)
           \/ (checkCompletion db date (id h) = false /\ date = today
               /\ shiftDateStr date (-1) = Some start))
       /\ completedRun db (id h) start k
       /\ exists d, backFrom k start = Some d
                    /\ checkCompletion db d (id h) = false.
Proof.
  unfold habitStreak, shiftDate.
  destruct (checkCompletion db date (id h)) eqn:Hdone; cbn [orb].
  - destruct (countBack (walkFuel db) db (id h) date 0) as [n|] eqn:Hn;
      [|discriminate].
    destruct (Z.ltb_spec 0 n); [|discriminate]. intros [= <-]. simpl.
    repeat split; [lia|].
    apply countBack_run in Hn as (k & -> & Hk & Hstop).
    exists date, k. repeat split; auto.
  - destruct (String.eqb_spec date today) as [->|]; [|discriminate].
    destruct (shiftDateStr today (-1)) as [start|] eqn:Hs; [|discriminate].
    destruct (countBack (walkFuel db) db (id h) start 0) as [n|] eqn:Hn;
      [|discriminate].
    destruct (Z.ltb_spec 0 n); [|discriminate]. intros [= <-]. simpl.
    repeat split; [lia|].
    apply countBack_run in Hn as (k & -> & Hk & Hstop).
    exists start, k. repeat split; auto.
Qed.

(** X6. What [getStreaks] returns is ranked, longest streak first;
    every row is of a habit shown on the viewing date and has a streak
    of at least 1. *)
Theorem getStreaks_ranked (today date : string) (db : Db)
    (rows : list StreakRow) :
  getStreaks today date db = Some rows ->
  StronglySorted (fun a b => streak b <= streak a) rows
  /\ forall r, In r rows ->
       1 <= streak r
       /\ exists h, In h (habits db)
                    /\ sql_where (notDeletedAsOf h date) = true
                    /\ streak_id r = id h /\ streak_name r = name h.
Proof.
  unfold getStreaks.
  destruct (streakRows _ _ _ _) as [results|] eqn:Hres; [|discriminate].
  intros [= <-]. split.
  - pose proof (order_by_sorted _ (fun r => - streak r) results) as S.
    induction S as [|a l S IH Hall]; constructor; [exact IH|].
    rewrite Forall_forall in *. intros b Hb. specialize (Hall b Hb). lia.
  - intros r Hr. apply order_by_In in Hr.
    apply (streakRows_In _ _ _ _ _ _ Hres) in Hr as (h & Hin & Hh).
    apply order_by_In, filter_In in Hin as [Hin Hv].
    apply habitStreak_row in Hh as (Hid & Hname & Hpos & _).
    split; [exact Hpos|]. now exists h.
Qed.

Lemma getStreaks_ranked_witness :
  exists rows,
    getStreaks "2024-01-08" "2024-01-07" weekDb = Some rows
    /\ StronglySorted (fun a b => streak b <= streak a) rows
    /\ map streak rows = [7; 7].
Proof.
  destruct (getStreaks "2024-01-08" "2024-01-07" weekDb) as [rows|] eqn:E;
    [|vm_compute in E; discriminate E].
  exists rows. split; [reflexivity|]. split.
  - apply (getStreaks_ranked "2024-01-08" "2024-01-07" weekDb rows E).
  - vm_compute in E. injection E as <-. reflexivity.
Defined.

(** X8. Viewing a day other than today, a habit without a completion
    on that day has no row in what [getStreaks] returns, whatever it
    completed before. *)
Theorem getStreaks_past_day_skips (today date : string) (db : Db)
    (rows : list StreakRow) (habitId : string) :
  getStreaks today date db = Some rows ->
  date <> today -> checkCompletion db date habitId = false ->
  ~ In habitId (map streak_id rows).
Proof.
  unfold getStreaks.
  destruct (streakRows _ _ _ _) as [results|] eqn:Hres; [|discriminate].
  intros [= <-] Hpast Hnot Hin.
  apply in_map_iff in Hin as (r & Hid & Hr). apply order_by_In in Hr.
  apply (streakRows_In _ _ _ _ _ _ Hres) in Hr as (h & _ & Hh).
  apply habitStreak_row in Hh
    as (E & _ & _ & start & k & _ & [[Hdone _]|[_ [Et _]]] & _).
  - rewrite <- E, Hid in Hdone. congruence.
  - contradiction.
Qed.

Lemma getStreaks_past_day_skips_witness :
  getStreaks "2024-01-08" "2024-01-03" editedWeekDb
  = Some [mkStreakRow "B" "Read" 3]
  /\ ~ In "A" (map streak_id [mkStreakRow "B" "Read" 3]).
Proof.
  split; [reflexivity|].
  apply (getStreaks_past_day_skips "2024-01-08" "2024-01-03" editedWeekDb
           [mkStreakRow "B" "Read" 3] "A").
  - reflexivity.
  - discriminate.
  - reflexivity.
Defined.

(* ----------------------------------------------------------------- *)
(** ** What the award pass writes, and when *)

Lemma insertAchievement_In (r : Achievement) (db : Db) (a : Achievement) :
  In a (achievements
          (insertAchievement (type r) (habit_id r) (earned_date r) db))
  <-> In a (achievements db) \/ a = r.
Proof.
  unfold insertAchievement.
  destruct (existsb _ (achievements db)) eqn:E.
  - split; [now left|]. intros [H| ->]; [exact H|].
    destruct (habit_id r) as [hid|] eqn:Eh.
    + rewrite <- Eh in E.
      apply (conflict_habit_row r); [congruence | exact E].
    + exfalso. revert E. clear. induction (achievements db) as [|x l IH];
        simpl; [discriminate|].
      destruct (type x =s? type r), (habit_id x); simpl; auto.
  - simpl. rewrite in_app_iff. simpl.
    assert (Er : mkAchievement (type r) (habit_id r) (earned_date r) = r)
      by now destruct r.
    rewrite Er. split; [intros [H|[H|[]]]; auto | intros [H|H]; auto].
Qed.

Lemma insertAll_In (rows : list Achievement) (db : Db) (a : Achievement) :
  In a (achievements (insertAll rows db))
  <-> In a (achievements db) \/ In a rows.
Proof.
  revert db. induction rows as [|r rows IH]; intros db; simpl; [tauto|].
  rewrite IH, insertAchievement_In. intuition.
Qed.

(** A global row is stored once more by each insertion of it. *)
Lemma insertAll_count_global (rows : list Achievement) (db : Db)
    (a : Achievement) :
  habit_id a = None ->
  count_occ Achievement_eq_dec (achievements (insertAll rows db)) a
  = (count_occ Achievement_eq_dec (achievements db) a
     + count_occ Achievement_eq_dec rows a)%nat.
Proof.
  intros Ha. revert db. induction rows as [|r rows IH]; intros db.
  - simpl. lia.
  - change (insertAll (r :: rows) db)
      with (insertAll rows (insertAchievement (type r) (habit_id r)
                              (earned_date r) db)).
    rewrite IH.
    assert (Er : mkAchievement (type r) (habit_id r) (earned_date r) = r)
      by now destruct r.
    unfold insertAchievement.
    destruct (existsb _ (achievements db)) eqn:E.
    + destruct (Achievement_eq_dec r a) as [-> |Hne].
      * exfalso. revert E. rewrite Ha. clear.
        induction (achievements db) as [|x l IH]; simpl; [discriminate|].
        destruct (type x =s? type a), (habit_id x); simpl; auto.
      * now rewrite (count_occ_cons_neq _ _ Hne).
    + cbn [achievements set_achievements]. rewrite count_occ_app, Er.
      destruct (Achievement_eq_dec r a) as [-> |Hne].
      * rewrite !(count_occ_cons_eq _ _ eq_refl).
        cbn [count_occ]. lia.
      * rewrite !(count_occ_cons_neq _ _ Hne). cbn [count_occ]. lia.
Qed.

Lemma collect_In (A : Type) (f : A -> option (list Achievement))
    (xs : list A) (rows : list Achievement) (a : Achievement) :
  collect f xs = Some rows ->
  (In a rows <-> exists x r, In x xs /\ f x = Some r /\ In a r).
Proof.
  revert rows. induction xs as [|x xs IH]; simpl; intros rows.
  - intros [= <-]. split; [intros [] | intros (? & ? & [] & _)].
  - destruct (f x) as [r|] eqn:Ex; [|discriminate].
    destruct (collect f xs) as [rs|]; [|discriminate].
    intros [= <-]. rewrite in_app_iff, (IH rs eq_refl). split.
    + intros [H|(y & ry & Hy & Hf & Ha)].
      * exists x, r. auto.
      * exists y, ry. auto.
    + intros (y & ry & [<-|Hy] & Hf & Ha).
      * left. congruence.
      * right. exists y, ry. auto.
Qed.

Lemma collect_returns (A : Type) (f : A -> option (list Achievement))
    (xs : list A) (rows : list Achievement) (x : A) :
  collect f xs = Some rows -> In x xs -> exists r, f x = Some r.
Proof.
  revert rows. induction xs as [|y xs IH]; simpl; intros rows Hc Hin;
    [destruct Hin|].
  destruct (f y) as [r|] eqn:Ey; [|discriminate].
  destruct (collect f xs) as [rs|]; [|discriminate].
  destruct Hin as [<-|Hin]; [now exists r | now apply (IH rs)].
Qed.

(** The pass, returned, is the insertion of its list of rows. *)
Lemma checkAchievements_rows (date : string) (db db' : Db) :
  checkAchievements date db = Some db' ->
  exists rows, awardAttempts date db = Some rows /\ db' = insertAll rows db.
Proof.
  intros Hrun. rewrite <- (set_achievements_eta db) in Hrun.
  rewrite checkAchievements_attempts in Hrun.
  destruct (awardAttempts date db) as [rows|]; [|discriminate].
  rewrite set_achievements_eta in Hrun. injection Hrun as <-.
  now exists rows.
Qed.

Lemma backFrom_step (k : nat) (day : string) :
  backFrom (S k) day = (d <- backFrom k day ;; shiftDateStr d (-1)).
Proof.
  revert day. induction k as [|k IH]; intros day.
  - simpl. destruct (shiftDateStr day (-1)); reflexivity.
  - change (backFrom (S (S k)) day)
      with (d <- shiftDateStr day (-1) ;; backFrom (S k) d).
    destruct (shiftDateStr day (-1)) as [d|] eqn:E; simpl; rewrite E;
      [apply IH | reflexivity].
Qed.

(** The count of a returned walk is the length of the longest run of
    completed days that ends on its starting day. *)
Lemma countBack_at_least (db : Db) (habitId : string) (fuel : nat)
    (checkDay : string) (n : Z) (N : nat) :
  countBack fuel db habitId checkDay 0 = Some n ->
  (Z.of_nat N <= n <-> completedRun db habitId checkDay N).
Proof.
  intros Hrun.
  apply countBack_run in Hrun as (k & -> & Hk & d & Hd & Hnot).
  split.
  - intros Hle j Hj. apply Hk. lia.
  - intros HN. destruct (Nat.le_gt_cases N k) as [|Hlt]; [lia|].
    destruct (HN k Hlt) as (d' & Hd' & Hdone). congruence.
Qed.

Lemma allStreak_days (db : Db) (date : string) (turns : nat) (i : Z)
    (ok : bool) :
  allStreak db date i turns = Some ok ->
  (ok = true <->
   forall j, i <= j < i + Z.of_nat turns ->
             exists d, shiftDateStr date (- j) = Some d
                       /\ dayComplete db d = true).
Proof.
  revert i ok. induction turns as [|turns IH]; intros i ok.
  - simpl. intros [= <-]. split; [intros _ j Hj; lia | reflexivity].
  - cbn [allStreak].
    destruct (shiftDateStr date (- i)) as [checkDay|] eqn:Hshift;
      [|discriminate].
    destruct (dayComplete db checkDay) eqn:Hday.
    + intros Hrest. rewrite (IH _ _ Hrest). split.
      * intros H j Hj. destruct (Z.eq_dec j i) as [-> |Hne].
        -- now exists checkDay.
        -- apply H. lia.
      * intros H j Hj. apply H. lia.
    + intros [= <-]. split; [discriminate|].
      intros H. destruct (H i ltac:(lia)) as (d & Hd & Hdone). congruence.
Qed.

Lemma streakAttempts_In (date habitId : string) (streak : Z)
    (a : Achievement) :
  In a (streakAttempts date habitId streak)
  <-> exists N, In N [7; 14; 21] /\ N <= streak
                /\ a = mkAchievement ("streak_" +++ numberToString N)
                                     (Some habitId) date.
Proof.
  unfold streakAttempts. rewrite !in_app_iff. split.
  - intros [H|[H|H]].
    + destruct (7 <=? streak) eqn:E; [|destruct H].
      destruct H as [<-|[]]. exists 7. simpl. split; [auto|]. split;
        [lia | reflexivity].
    + destruct (14 <=? streak) eqn:E; [|destruct H].
      destruct H as [<-|[]]. exists 14. simpl. split; [auto|]. split;
        [lia | reflexivity].
    + destruct (21 <=? streak) eqn:E; [|destruct H].
      destruct H as [<-|[]]. exists 21. simpl. split; [auto|]. split;
        [lia | reflexivity].
  - intros (N & [<-|[<-|[<-|[]]]] & Hle & ->).
    + left. destruct (7 <=? streak) eqn:E; [now left | lia].
    + right; left. destruct (14 <=? streak) eqn:E; [now left | lia].
    + right; right. destruct (21 <=? streak) eqn:E; [now left | lia].
Qed.

(** The parts of the list of rows of a pass that has an active habit
    to look at. *)
Lemma awardAttempts_parts (date : string) (db : Db)
    (rows : list Achievement) :
  awardAttempts date db = Some rows ->
  activeHabits date db <> [] ->
  let habitIds := map id (activeHabits date db) in
  exists perHabit ok7 ok14 ok21 months y m d,
    collect (fun habitId =>
               streak <- countBack (walkFuel db) db habitId date 0 ;;
               Some (streakAttempts date habitId streak)) habitIds
    = Some perHabit
    /\ allStreak db date 0 (Z.to_nat 7) = Some ok7
    /\ allStreak db date 0 (Z.to_nat 14) = Some ok14
    /\ allStreak db date 0 (Z.to_nat 21) = Some ok21
    /\ parseISO date = Some (y, m, d)
    /\ collect (monthAttempts db (prevMonthStr y m)
                  (daysInMonth (if m =? 1 then y - 1 else y)
                               (if m =? 1 then 12 else m - 1))) habitIds
       = Some months
    /\ rows
       = (if forallb (fun i => checkCompletion db date i) habitIds
          then [mkAchievement "perfect_day" None date] else [])
         ++ perHabit
         ++ ((if ok7 then [mkAchievement "streak_7" None date] else [])
             ++ (if ok14 then [mkAchievement "streak_14" None date] else [])
             ++ (if ok21 then [mkAchievement "streak_21" None date] else []))
         ++ months
         ++ (if forallb
                  (fun k => dayComplete db
                              (dayOfMonthStr (prevMonthStr y m) k))
                  (countFrom 1
                     (daysInMonth (if m =? 1 then y - 1 else y)
                                  (if m =? 1 then 12 else m - 1)))
             then [mkAchievement "perfect_month" None
                                 (prevMonthStr y m +++ "-01")]
             else []).
Proof.
  intros Hrows Hactive habitIds. unfold awardAttempts in Hrows.
  destruct (activeHabits date db) as [|h hs] eqn:Eh; [now destruct Hactive|].
  cbn [List.length Nat.eqb] in Hrows. fold habitIds in Hrows.
  destruct (collect _ habitIds) as [perHabit|] eqn:Eper; [|discriminate].
  cbn [collect] in Hrows.
  destruct (allStreak db date 0 (Z.to_nat 7)) as [ok7|]; [|discriminate].
  destruct (allStreak db date 0 (Z.to_nat 14)) as [ok14|]; [|discriminate].
  destruct (allStreak db date 0 (Z.to_nat 21)) as [ok21|]; [|discriminate].
  destruct (parseISO date) as [[[y m] d]|]; [|discriminate].
  destruct (collect (monthAttempts _ _ _) habitIds) as [months|] eqn:Emon;
    [|discriminate].
  injection Hrows as <-.
  exists perHabit, ok7, ok14, ok21, months, y, m, d.
  repeat (split; [reflexivity || assumption|]).
  rewrite app_nil_r. reflexivity.
Qed.

Lemma awardAttempts_idle (date : string) (db : Db) :
  activeHabits date db = [] -> awardAttempts date db = Some [].
Proof. unfold awardAttempts. now intros ->. Qed.

Lemma active_or_idle (date : string) (db : Db) :
  activeHabits date db = [] \/ activeHabits date db <> [].
Proof. destruct (activeHabits date db); [left | right]; congruence. Qed.

Lemma count_occ_maybe (b : bool) (x a : Achievement) :
  count_occ Achievement_eq_dec (if b then [x] else []) a
  = if b then if Achievement_eq_dec x a then 1%nat else 0%nat else 0%nat.
Proof.
  destruct b; [|reflexivity].
  destruct (Achievement_eq_dec x a) as [E|E].
  - now rewrite (count_occ_cons_eq _ _ E).
  - now rewrite (count_occ_cons_neq _ _ E).
Qed.

Lemma perHabit_rows (db : Db) (date : string) (ids : list string)
    (perHabit : list Achievement) (a : Achievement) :
  collect (fun habitId =>
             streak <- countBack (walkFuel db) db habitId date 0 ;;
             Some (streakAttempts date habitId streak)) ids
  = Some perHabit ->
  (In a perHabit
   <-> exists x n, In x ids
                   /\ countBack (walkFuel db) db x date 0 = Some n
                   /\ In a (streakAttempts date x n)).
Proof.
  intros Hc. rewrite (collect_In _ _ _ _ a Hc). split.
  - intros (x & r & Hx & Hf & Ha).
    destruct (countBack (walkFuel db) db x date 0) as [n|] eqn:E;
      [|discriminate].
    injection Hf as <-. exists x, n. auto.
  - intros (x & n & Hx & Hn & Ha).
    exists x, (streakAttempts date x n). rewrite Hn. auto.
Qed.

Lemma month_rows (db : Db) (monthStr : string) (days : Z)
    (ids : list string) (months : list Achievement) (a : Achievement) :
  collect (monthAttempts db monthStr days) ids = Some months ->
  (In a months
   <-> exists x row,
         In x ids /\ habitRow db x = Some row
         /\ (monthStr +++ "-01" <s? created_date row) = false
         /\ (forall k, 1 <= k <= days ->
                       checkCompletion db (dayOfMonthStr monthStr k) x = true)
         /\ a = mkAchievement "perfect_month" (Some x) (monthStr +++ "-01")).
Proof.
  intros Hc. rewrite (collect_In _ _ _ _ a Hc). unfold monthAttempts. split.
  - intros (x & r & Hx & Hf & Ha).
    destruct (habitRow db x) as [row|] eqn:Erow; [|discriminate].
    injection Hf as <-.
    destruct (monthStr +++ "-01" <s? created_date row) eqn:Elate;
      [destruct Ha|].
    destruct (forallb _ (countFrom 1 days)) eqn:Eall; [|destruct Ha].
    destruct Ha as [<-|[]]. exists x, row. repeat (split; [assumption|]).
    split; [|reflexivity].
    intros k Hk. rewrite forallb_forall in Eall. apply Eall.
    apply countFrom_In. lia.
  - intros (x & row & Hx & Hrow & Hlate & Hall & ->).
    exists x, [mkAchievement "perfect_month" (Some x) (monthStr +++ "-01")].
    split; [exact Hx|]. split; [|now left].
    rewrite Hrow, Hlate.
    assert (Eall : forallb (fun d => checkCompletion db
                                       (dayOfMonthStr monthStr d) x)
                           (countFrom 1 days) = true).
    { apply forallb_forall. intros k Hk. apply Hall.
      apply countFrom_In in Hk. lia. }
    now rewrite Eall.
Qed.

Lemma forallb_ids (A B : Type) (f : B -> bool) (g : A -> B) (l : list A) :
  forallb f (map g l) = forallb (fun x => f (g x)) l.
Proof. induction l as [|x l IH]; simpl; [reflexivity | now rewrite IH]. Qed.

(** X9 (award pass, perfect day): a returned pass of [date] stores one
    more row [perfect_day] of [date] when at least one habit is active
    on [date] and every active habit has a completion on it, and leaves
    the number of these rows as it was otherwise. *)
Theorem checkAchievements_perfect_day (date : string) (db db' : Db) :
  checkAchievements date db = Some db' ->
  count_occ Achievement_eq_dec (achievements db')
            (mkAchievement "perfect_day" None date)
  = (count_occ Achievement_eq_dec (achievements db)
               (mkAchievement "perfect_day" None date)
     + if dayComplete db date then 1 else 0)%nat.
Proof.
  intros Hrun.
  apply checkAchievements_rows in Hrun as (rows & Hrows & ->).
  rewrite insertAll_count_global by reflexivity. f_equal.
  destruct (active_or_idle date db) as [Hidle|Hactive].
  - rewrite (awardAttempts_idle _ _ Hidle) in Hrows. injection Hrows as <-.
    unfold dayComplete. now rewrite Hidle.
  - destruct (awardAttempts_parts _ _ _ Hrows Hactive)
      as (perHabit & ok7 & ok14 & ok21 & months & y & m & d
          & Hper & _ & _ & _ & _ & Hmon & ->).
    rewrite !count_occ_app, !count_occ_maybe.
    rewrite (proj1 (count_occ_not_In Achievement_eq_dec perHabit _)).
    2:{ rewrite (perHabit_rows _ _ _ _ _ Hper).
        intros (x & n & _ & _ & Ha).
        apply streakAttempts_In in Ha as (N & _ & _ & E). discriminate E. }
    rewrite (proj1 (count_occ_not_In Achievement_eq_dec months _)).
    2:{ rewrite (month_rows _ _ _ _ _ _ Hmon).
        intros (x & row & _ & _ & _ & _ & E). discriminate E. }
    assert (Eday : dayComplete db date
                   = forallb (fun i => checkCompletion db date i)
                             (map id (activeHabits date db))).
    { unfold dayComplete. rewrite forallb_ids.
      destruct (activeHabits date db); [now destruct Hactive | reflexivity]. }
    rewrite Eday.
    destruct (Achievement_eq_dec (mkAchievement "streak_7" None date) _)
      as [E|_]; [discriminate E|].
    destruct (Achievement_eq_dec (mkAchievement "streak_14" None date) _)
      as [E|_]; [discriminate E|].
    destruct (Achievement_eq_dec (mkAchievement "streak_21" None date) _)
      as [E|_]; [discriminate E|].
    destruct (Achievement_eq_dec (mkAchievement "perfect_month" None _) _)
      as [E|_]; [discriminate E|].
    destruct (Achievement_eq_dec (mkAchievement "perfect_day" None date) _)
      as [_|E]; [|now destruct E].
    destruct (forallb _ (map id (activeHabits date db))), ok7, ok14, ok21,
      (forallb _ (countFrom 1 _)); reflexivity.
Qed.

Lemma checkAchievements_perfect_day_witness :
  exists db',
    checkAchievements "2024-01-07" (set_achievements weekDb weekAwards)
    = Some db'
    /\ count_occ Achievement_eq_dec (achievements db')
         (mkAchievement "perfect_day" None "2024-01-07") = 2%nat.
Proof.
  destruct (checkAchievements "2024-01-07"
              (set_achievements weekDb weekAwards)) as [db'|] eqn:Hrun;
    [|vm_compute in Hrun; discriminate Hrun].
  exists db'. split; [reflexivity|].
  rewrite (checkAchievements_perfect_day _ _ _ Hrun). reflexivity.
Defined.

(** The per-habit streak rows among the rows of a pass. *)
Lemma habit_streak_attempt (date : string) (db : Db)
    (rows : list Achievement) (habitId : string) (N : Z) :
  In N [7; 14; 21] ->
  awardAttempts date db = Some rows ->
  let a := mkAchievement ("streak_" +++ numberToString N)
                         (Some habitId) date in
  In a rows
  <-> In habitId (map id (activeHabits date db))
      /\ completedRun db habitId date (Z.to_nat N).
Proof.
  intros HN Hrows a.
  destruct (active_or_idle date db) as [Hidle|Hactive].
  - rewrite (awardAttempts_idle _ _ Hidle) in Hrows. injection Hrows as <-.
    rewrite Hidle. simpl. tauto.
  - destruct (awardAttempts_parts _ _ _ Hrows Hactive)
      as (perHabit & ok7 & ok14 & ok21 & months & y & m & d
          & Hper & _ & _ & _ & _ & Hmon & ->).
    assert (Hty : type a <> "perfect_day" /\ type a <> "perfect_month").
    { destruct HN as [<-|[<-|[<-|[]]]]; split; discriminate. }
    destruct Hty as [Hday Hmonth].
    rewrite !in_app_iff, (perHabit_rows _ _ _ _ _ Hper),
      (month_rows _ _ _ _ _ _ Hmon).
    split.
    + intros [H|[H|[[H|[H|H]]|[H|H]]]].
      * match type of H with
        | context [if ?b then _ else _] => destruct b
        end; [|destruct H].
        destruct H as [E|[]]. discriminate E.
      * destruct H as (x & n & Hx & Hn & Ha).
        apply streakAttempts_In in Ha as (N' & HN' & Hle & E).
        injection E as Ety ->.
        assert (N' = N) as ->.
        { destruct HN as [<-|[<-|[<-|[]]]];
            destruct HN' as [<-|[<-|[<-|[]]]];
            (reflexivity || discriminate Ety). }
        split; [exact Hx|].
        apply (countBack_at_least db x _ date n (Z.to_nat N) Hn).
        destruct HN as [<-|[<-|[<-|[]]]]; lia.
      * destruct ok7; [|destruct H]. destruct H as [E|[]]. discriminate E.
      * destruct ok14; [|destruct H]. destruct H as [E|[]]. discriminate E.
      * destruct ok21; [|destruct H]. destruct H as [E|[]]. discriminate E.
      * destruct H as (x & row & _ & _ & _ & _ & E).
        now apply (f_equal type) in E.
      * match type of H with
        | context [if ?b then _ else _] => destruct b
        end; [|destruct H].
        destruct H as [E|[]]. discriminate E.
    + intros [Hx Hdone]. right; left.
      destruct (collect_returns _ _ _ _ habitId Hper Hx) as (r & Hr).
      destruct (countBack (walkFuel db) db habitId date 0) as [n|] eqn:Hn;
        [|discriminate].
      exists habitId, n. split; [exact Hx|]. split; [exact Hn|].
      apply streakAttempts_In. exists N. split; [exact HN|].
      split; [|reflexivity].
      apply (countBack_at_least db habitId _ date n (Z.to_nat N) Hn) in Hdone.
      destruct HN as [<-|[<-|[<-|[]]]]; lia.
Qed.


(** The global streak rows among the rows of a pass: one when the
    loop over the days came back with [true], none otherwise. *)
Lemma global_streak_attempt (date : string) (db : Db)
    (rows : list Achievement) (N : Z) :
  In N [7; 14; 21] ->
  activeHabits date db <> [] ->
  awardAttempts date db = Some rows ->
  exists ok,
    allStreak db date 0 (Z.to_nat N) = Some ok
    /\ count_occ Achievement_eq_dec rows
         (mkAchievement ("streak_" +++ numberToString N) None date)
       = if ok then 1%nat else 0%nat.
Proof.
  intros HN Hactive Hrows.
  set (a := mkAchievement ("streak_" +++ numberToString N) None date).
  destruct (awardAttempts_parts _ _ _ Hrows Hactive)
    as (perHabit & ok7 & ok14 & ok21 & months & y & m & d
        & Hper & H7 & H14 & H21 & _ & Hmon & ->).
  rewrite !count_occ_app, !count_occ_maybe.
    rewrite (proj1 (count_occ_not_In Achievement_eq_dec perHabit _)).
    2:{ rewrite (perHabit_rows _ _ _ _ _ Hper).
        intros (x & n & _ & _ & Ha).
        apply streakAttempts_In in Ha as (N' & _ & _ & E). discriminate E. }
    rewrite (proj1 (count_occ_not_In Achievement_eq_dec months _)).
    2:{ rewrite (month_rows _ _ _ _ _ _ Hmon).
        intros (x & row & _ & _ & _ & _ & E). discriminate E. }
    destruct (Achievement_eq_dec (mkAchievement "perfect_day" None date) a)
      as [E|_];
      [destruct HN as [<-|[<-|[<-|[]]]]; discriminate E|].
    destruct (Achievement_eq_dec (mkAchievement "perfect_month" None _) a)
      as [E|_];
      [destruct HN as [<-|[<-|[<-|[]]]]; discriminate E|].
    destruct HN as [<-|[<-|[<-|[]]]].
    - exists ok7. split; [exact H7|].
      destruct (Achievement_eq_dec (mkAchievement "streak_7" None date) a)
        as [_|E]; [|now destruct E].
      destruct (Achievement_eq_dec (mkAchievement "streak_14" None date) a)
        as [E|_]; [discriminate E|].
      destruct (Achievement_eq_dec (mkAchievement "streak_21" None date) a)
        as [E|_]; [discriminate E|].
      destruct (forallb _ (map id _)), ok7, ok14, ok21,
        (forallb _ (countFrom 1 _)); reflexivity.
    - exists ok14. split; [exact H14|].
      destruct (Achievement_eq_dec (mkAchievement "streak_7" None date) a)
        as [E|_]; [discriminate E|].
      destruct (Achievement_eq_dec (mkAchievement "streak_14" None date) a)
        as [_|E]; [|now destruct E].
      destruct (Achievement_eq_dec (mkAchievement "streak_21" None date) a)
        as [E|_]; [discriminate E|].
      destruct (forallb _ (map id _)), ok7, ok14, ok21,
        (forallb _ (countFrom 1 _)); reflexivity.
    - exists ok21. split; [exact H21|].
      destruct (Achievement_eq_dec (mkAchievement "streak_7" None date) a)
        as [E|_]; [discriminate E|].
      destruct (Achievement_eq_dec (mkAchievement "streak_14" None date) a)
        as [E|_]; [discriminate E|].
      destruct (Achievement_eq_dec (mkAchievement "streak_21" None date) a)
        as [_|E]; [|now destruct E].
      destruct (forallb _ (map id _)), ok7, ok14, ok21,
        (forallb _ (countFrom 1 _)); reflexivity.
Qed.

Lemma allStreak_perfectDays (db : Db) (date : string) (N : Z) (ok : bool) :
  0 <= N -> allStreak db date 0 (Z.to_nat N) = Some ok ->
  (ok = true <-> perfectDays db date N).
Proof.
  intros HN Hok. rewrite (allStreak_days _ _ _ _ _ Hok). unfold perfectDays.
  rewrite Z2Nat.id by exact HN. reflexivity.
Qed.

(** The per-habit perfect-month row after a pass, on the keys the
    program builds. *)
Lemma habit_month_rows (date : string) (db db' : Db)
    (y m d : Z) (habitId : string) :
  parseISO date = Some (y, m, d) ->
  checkAchievements date db = Some db' ->
  let a := mkAchievement "perfect_month" (Some habitId)
                         (prevMonthStr y m +++ "-01") in
  In a (achievements db')
  <-> In a (achievements db)
      \/ (In habitId (map id (activeHabits date db))
          /\ (exists row,
                 habitRow db habitId = Some row
                 /\ (prevMonthStr y m +++ "-01" <s? created_date row) = false)
          /\ habitMonthDone db y m habitId).
Proof.
  intros Hdate Hrun a.
  apply checkAchievements_rows in Hrun as (rows & Hrows & ->).
  rewrite insertAll_In.
  enough (Hnew : In a rows
                 <-> In habitId (map id (activeHabits date db))
                     /\ (exists row,
                            habitRow db habitId = Some row
                            /\ (prevMonthStr y m +++ "-01"
                                <s? created_date row) = false)
                     /\ habitMonthDone db y m habitId)
    by (rewrite Hnew; reflexivity).
  destruct (active_or_idle date db) as [Hidle|Hactive].
  - rewrite (awardAttempts_idle _ _ Hidle) in Hrows. injection Hrows as <-.
    rewrite Hidle. simpl. tauto.
  - destruct (awardAttempts_parts _ _ _ Hrows Hactive)
      as (perHabit & ok7 & ok14 & ok21 & months & y' & m' & d'
          & Hper & _ & _ & _ & Hdate' & Hmon & ->).
    clear Hrows. rewrite Hdate in Hdate'. injection Hdate' as <- <- <-.
    rewrite !in_app_iff, (perHabit_rows _ _ _ _ _ Hper),
      (month_rows _ _ _ _ _ _ Hmon).
    split.
    + intros [H|[H|[[H|[H|H]]|[H|H]]]].
      * match type of H with
        | context [if ?b then _ else _] => destruct b
        end; [|destruct H].
        destruct H as [E|[]]. discriminate E.
      * destruct H as (x & n & Hx & Hn & Ha).
        apply streakAttempts_In in Ha as (N' & HN' & Hle & E).
        apply (f_equal type) in E. cbn [type a] in E.
        destruct HN' as [<-|[<-|[<-|[]]]]; discriminate E.
      * destruct ok7; [|destruct H]. destruct H as [E|[]]. discriminate E.
      * destruct ok14; [|destruct H]. destruct H as [E|[]]. discriminate E.
      * destruct ok21; [|destruct H]. destruct H as [E|[]]. discriminate E.
      * destruct H as (x & row & Hx & Hrow & Hlate & Hall & E).
        injection E as ->. split; [exact Hx|]. split; [now exists row|].
        exact Hall.
      * match type of H with
        | context [if ?b then _ else _] => destruct b
        end; [|destruct H].
        destruct H as [E|[]]. discriminate E.
    + intros (Hx & (row & Hrow & Hlate) & Hall).
      right; right; right; left. exists habitId, row.
      repeat (split; [assumption|]). reflexivity.
Qed.

(** The global perfect-month row after a pass, on the keys the
    program builds. *)
Lemma global_month_rows (date : string) (db db' : Db)
    (y m d : Z) :
  parseISO date = Some (y, m, d) ->
  activeHabits date db <> [] ->
  checkAchievements date db = Some db' ->
  let a := mkAchievement "perfect_month" None
                         (prevMonthStr y m +++ "-01") in
  (monthComplete db y m ->
   count_occ Achievement_eq_dec (achievements db') a
   = S (count_occ Achievement_eq_dec (achievements db) a))
  /\ (~ monthComplete db y m ->
      count_occ Achievement_eq_dec (achievements db') a
      = count_occ Achievement_eq_dec (achievements db) a).
Proof.
  intros Hdate Hactive Hrun a.
  apply checkAchievements_rows in Hrun as (rows & Hrows & ->).
  rewrite insertAll_count_global by reflexivity.
  destruct (awardAttempts_parts _ _ _ Hrows Hactive)
    as (perHabit & ok7 & ok14 & ok21 & months & y' & m' & d'
        & Hper & _ & _ & _ & Hdate' & Hmon & ->).
  clear Hrows. rewrite Hdate in Hdate'. injection Hdate' as <- <- <-.
  rewrite !count_occ_app, !count_occ_maybe.
  rewrite (proj1 (count_occ_not_In Achievement_eq_dec perHabit _)).
  2:{ rewrite (perHabit_rows _ _ _ _ _ Hper).
      intros (x & n & _ & _ & Ha).
      apply streakAttempts_In in Ha as (N' & _ & _ & E). discriminate E. }
  rewrite (proj1 (count_occ_not_In Achievement_eq_dec months _)).
  2:{ rewrite (month_rows _ _ _ _ _ _ Hmon).
      intros (x & row & _ & _ & _ & _ & E). discriminate E. }
  destruct (Achievement_eq_dec (mkAchievement "perfect_day" None date) a)
    as [E|_]; [discriminate E|].
  destruct (Achievement_eq_dec (mkAchievement "streak_7" None date) a)
    as [E|_]; [discriminate E|].
  destruct (Achievement_eq_dec (mkAchievement "streak_14" None date) a)
    as [E|_]; [discriminate E|].
  destruct (Achievement_eq_dec (mkAchievement "streak_21" None date) a)
    as [E|_]; [discriminate E|].
  destruct (Achievement_eq_dec (mkAchievement "perfect_month" None _) a)
    as [_|E]; [|now destruct E].
  fold (prevMonthDays y m).
  destruct (forallb (fun k => dayComplete db
                                (dayOfMonthStr (prevMonthStr y m) k))
                    (countFrom 1 (prevMonthDays y m))) eqn:Eall.
  - assert (Hc : monthComplete db y m).
    { intros k Hk. rewrite forallb_forall in Eall. apply Eall.
      apply countFrom_In. lia. }
    split; intros Hp; [|now destruct Hp].
    destruct (forallb _ (map id _)), ok7, ok14, ok21; simpl; lia.
  - assert (Hc : ~ monthComplete db y m).
    { intros Hc.
      assert (Eall' : forallb (fun k => dayComplete db
                                 (dayOfMonthStr (prevMonthStr y m) k))
                              (countFrom 1 (prevMonthDays y m)) = true).
      { apply forallb_forall. intros k Hk. apply Hc.
        apply countFrom_In in Hk. lia. }
      congruence. }
    split; intros Hp; [now destruct Hc|].
    destruct (forallb _ (map id _)), ok7, ok14, ok21; simpl; lia.
Qed.

(* ----------------------------------------------------------------- *)
(** ** To-dos *)

Lemma eqb_sym_false (a b : string) : a <> b -> (a =s? b) = false.
Proof. intros H. now apply String.eqb_neq. Qed.

Lemma id_fresh (newId : string) (todos : list Todo) :
  existsb (fun t => todo_id t =s? newId) todos = false ->
  forall t, In t todos -> (todo_id t =s? newId) = false.
Proof.
  intros H t Ht. destruct (todo_id t =s? newId) eqn:E; [|reflexivity].
  rewrite <- H. symmetry. apply existsb_exists. now exists t.
Qed.

(** X14 (addTodo, getTodos): a to-do that [addTodo] stores is handed
    back with the id, name and date given, is listed last in its own
    list, and leaves every other list as it was. *)
Theorem addTodo_listed (newId createdDate listName name : string)
    (todos todos' : list Todo) (info : TodoInfo) :
  addTodo newId createdDate listName name todos = Some (info, todos') ->
  info = mkTodoInfo newId name createdDate
  /\ getTodos listName todos' = getTodos listName todos ++ [info]
  /\ forall other, other <> listName ->
                   getTodos other todos' = getTodos other todos.
Proof.
  unfold addTodo.
  destruct (negb (listAllowed listName) || existsb _ todos); [discriminate|].
  intros [= <- <-]. split; [reflexivity|]. unfold getTodos. split.
  - rewrite filter_app, map_app. simpl. now rewrite String.eqb_refl.
  - intros other Hother. rewrite filter_app, map_app. simpl.
    rewrite (eqb_sym_false listName other) by congruence.
    apply app_nil_r.
Qed.

Lemma addTodo_listed_witness :
  getTodos "home"
    (sampleTodos ++ [mkTodo "t4" "home" "Dishes" "2024-01-04"])
  = getTodos "home" sampleTodos ++ [mkTodoInfo "t4" "Dishes" "2024-01-04"].
Proof.
  apply (addTodo_listed "t4" "2024-01-04" "home" "Dishes" sampleTodos
           _ _ eq_refl).
Defined.

Lemma some_row_hit (A : Type) (f : A -> bool) (l : list A) :
  negb (List.length (filter f l) =? 0)%nat = true
  <-> exists x, In x l /\ f x = true.
Proof.
  induction l as [|x l IH]; simpl.
  - split; [discriminate | intros (? & [] & _)].
  - destruct (f x) eqn:E; simpl.
    + split; [intros _; exists x; auto | reflexivity].
    + rewrite IH. split.
      * intros (y & Hy & Hf). exists y. auto.
      * intros (y & [<-|Hy] & Hf); [congruence | exists y; auto].
Qed.

(** X15 (removeTodo, getTodos): [removeTodo] answers [true] exactly
    when the id is listed in the list it is given; afterwards that
    list is the old one without the id, every other list is as it was,
    and on the answer [false] no row of the table has gone. *)
Theorem removeTodo_effect (listName todoId : string) (todos : list Todo) :
  let hit := fst (removeTodo listName todoId todos) in
  let todos' := snd (removeTodo listName todoId todos) in
  (hit = true <-> In todoId (map tinfo_id (getTodos listName todos)))
  /\ getTodos listName todos'
     = filter (fun i => negb (tinfo_id i =s? todoId))
              (getTodos listName todos)
  /\ (forall other, other <> listName ->
                    getTodos other todos' = getTodos other todos)
  /\ (hit = false -> todos' = todos).
Proof.
  cbn zeta. unfold removeTodo. cbn [fst snd].
  split; [|split; [|split]].
  - rewrite some_row_hit. unfold getTodos. rewrite map_map. cbn [tinfo_id].
    rewrite in_map_iff. split.
    + intros (t & Ht & Hhit). apply andb_prop in Hhit as [Hi Hl].
      exists t. split; [now apply String.eqb_eq|].
      apply filter_In. auto.
    + intros (t & <- & Ht). apply filter_In in Ht as [Ht Hl].
      exists t. split; [exact Ht|]. now rewrite String.eqb_refl.
  - unfold getTodos. induction todos as [|t todos IH]; [reflexivity|].
    cbn [filter].
    destruct (todo_id t =s? todoId) eqn:Ei, (todo_list t =s? listName) eqn:El;
      cbn [andb negb filter map]; rewrite ?El; cbn [map filter tinfo_id];
      rewrite ?Ei; cbn [negb]; now rewrite IH.
  - intros other Hother. unfold getTodos.
    induction todos as [|t todos IH]; [reflexivity|]. cbn [filter].
    destruct (todo_id t =s? todoId) eqn:Ei, (todo_list t =s? listName) eqn:El;
      cbn [andb negb filter];
      [apply String.eqb_eq in El; rewrite El,
         (eqb_sym_false listName other) by congruence; exact IH
      | destruct (todo_list t =s? other); cbn [map]; now rewrite IH ..].
  - intros Hhit. apply filter_all. intros t Ht.
    destruct ((todo_id t =s? todoId) && (todo_list t =s? listName)) eqn:E;
      [|reflexivity].
    exfalso. apply Bool.negb_false_iff, Nat.eqb_eq in Hhit.
    apply length_zero_iff_nil in Hhit.
    assert (Hin : In t (filter (fun t => (todo_id t =s? todoId)
                                         && (todo_list t =s? listName))
                               todos))
      by (apply filter_In; auto).
    rewrite Hhit in Hin. destruct Hin.
Qed.

(** X16 (addTodo, removeTodo): removing from its list the to-do that
    [addTodo] has just stored answers [true] and gives the table back
    as it was before the two calls. *)
Theorem addTodo_removeTodo (newId createdDate listName name : string)
    (todos todos' : list Todo) (info : TodoInfo) :
  addTodo newId createdDate listName name todos = Some (info, todos') ->
  removeTodo listName (tinfo_id info) todos' = (true, todos).
Proof.
  unfold addTodo.
  destruct (negb (listAllowed listName)); [discriminate|]. simpl.
  destruct (existsb _ todos) eqn:Ex; [discriminate|].
  intros [= <- <-]. cbn [tinfo_id]. unfold removeTodo.
  rewrite !filter_app. simpl. rewrite !String.eqb_refl. simpl.
  rewrite length_app. simpl.
  f_equal.
  - now rewrite Nat.add_1_r.
  - rewrite app_nil_r. apply filter_all. intros t Ht.
    now rewrite (id_fresh _ _ Ex t Ht).
Qed.

Lemma addTodo_removeTodo_witness :
  removeTodo "home" "t4"
    (sampleTodos ++ [mkTodo "t4" "home" "Dishes" "2024-01-04"])
  = (true, sampleTodos).
Proof.
  apply (addTodo_removeTodo "t4" "2024-01-04" "home" "Dishes" sampleTodos
           _ (mkTodoInfo "t4" "Dishes" "2024-01-04") eq_refl).
Defined.

Lemma NoDup_map_filter (A : Type) (f : A -> string) (p : A -> bool)
    (l : list A) :
  NoDup (map f l) -> NoDup (map f (filter p l)).
Proof.
  induction l as [|x l IH]; simpl; intros H; [constructor|].
  inversion H as [|? ? Hx Hl]; subst.
  destruct (p x); [|now apply IH].
  simpl. constructor; [|now apply IH].
  intros Hin. apply Hx. apply in_map_iff in Hin as (y & Hy & Hin).
  apply filter_In in Hin as [Hin _]. rewrite <- Hy. now apply in_map.
Qed.

(** X17 (todos table): the primary key and the check on [list] hold
    of the table after every [addTodo] and [removeTodo], and with them
    every to-do is in exactly one of the two lists [work] and [home]. *)
Theorem todosOk_kept (todos : list Todo) :
  todosOk todos ->
  (forall newId createdDate listName name info todos',
      addTodo newId createdDate listName name todos = Some (info, todos') ->
      todosOk todos')
  /\ (forall listName todoId,
         todosOk (snd (removeTodo listName todoId todos)))
  /\ Permutation (getTodos "work" todos ++ getTodos "home" todos)
                 (map (fun t => mkTodoInfo (todo_id t) (todo_name t)
                                           (todo_created_date t)) todos).
Proof.
  intros [Hnd Hlist]. repeat split.
  - unfold addTodo in H.
    destruct (negb (listAllowed listName)); [discriminate|]. simpl in H.
    destruct (existsb _ todos) eqn:Ex; [discriminate|].
    injection H as _ <-. rewrite map_app. simpl.
    apply NoDup_app; [exact Hnd | repeat constructor; intros [] |].
    intros x Hx [<-|[]]. apply in_map_iff in Hx as (t & E & Ht).
    pose proof (id_fresh _ _ Ex t Ht) as Hf.
    rewrite E, String.eqb_refl in Hf. discriminate.
  - unfold addTodo in H.
    destruct (listAllowed listName) eqn:El; [|discriminate]. simpl in H.
    destruct (existsb _ todos); [discriminate|].
    injection H as _ <-. intros t Ht. apply in_app_iff in Ht as [Ht|[<-|[]]];
      [now apply Hlist | exact El].
  - unfold removeTodo. cbn [snd]. now apply NoDup_map_filter.
  - unfold removeTodo. cbn [snd]. intros t Ht.
    apply filter_In in Ht as [Ht _]. now apply Hlist.
  - unfold getTodos. rewrite <- map_app. apply Permutation_map.
    clear Hnd. induction todos as [|t todos IH]; simpl; [constructor|].
    assert (Ht : listAllowed (todo_list t) = true)
      by (apply Hlist; now left).
    assert (IH' := IH (fun t' H' => Hlist t' (or_intror H'))).
    unfold listAllowed in Ht.
    destruct (todo_list t =s? "work") eqn:Ew.
    + apply String.eqb_eq in Ew. rewrite Ew. simpl.
      now constructor.
    + simpl in Ht. rewrite Ht. apply Permutation_sym, Permutation_cons_app.
      now apply Permutation_sym.
Qed.

Lemma todosOk_kept_witness :
  Permutation (getTodos "work" sampleTodos ++ getTodos "home" sampleTodos)
              (map (fun t => mkTodoInfo (todo_id t) (todo_name t)
                                        (todo_created_date t)) sampleTodos).
Proof.
  apply (todosOk_kept sampleTodos).
  split.
  - repeat constructor; simpl; intuition discriminate.
  - intros t [<-|[<-|[<-|[]]]]; reflexivity.
Defined.


(* ----------------------------------------------------------------- *)
(** ** A day that was un-completed blocks the streaks over it *)

Lemma parseISO_print (c : Day) :
  validDay c -> 1000 <= fst (fst c) <= 9999 ->
  parseISO (printDate c) = Some c.
Proof.
  destruct c as [[y m] d]. cbn [fst validDay]. intros [Hm Hd] Hy.
  pose proof (monthLength_range y m) as Hlen.
  rewrite printDate_iso by lia.
  unfold parseISO, fourDigits, twoDigits. cbn [append list_ascii_of_string].
  rewrite !digitVal_digitChar by (Z.div_mod_to_equations; lia).
  cbv zeta.
  assert (Ey : 1000 * (y / 1000) + 100 * (y / 100 mod 10)
               + 10 * (y mod 100 / 10) + y mod 100 mod 10 = y)
    by (Z.div_mod_to_equations; lia).
  assert (Em : 10 * (m / 10) + m mod 10 = m)
    by (Z.div_mod_to_equations; lia).
  assert (Ed : 10 * (d / 10) + d mod 10 = d)
    by (Z.div_mod_to_equations; lia).
  rewrite Ey, Em, Ed.
  change (isDash "-") with true. cbn [andb].
  assert (G : (1 <=? m) && (m <=? 12) && (1 <=? d) && (d <=? monthLength y m)
              = true).
  { rewrite !andb_true_iff, !Z.leb_le. lia. }
  now rewrite G.
Qed.

Lemma prevDay_nextDay (c : Day) : validDay c -> prevDay (nextDay c) = c.
Proof.
  destruct c as [[y m] d]. unfold validDay, nextDay, prevDay.
  intros [Hm Hd]. pose proof (monthLength_range y m) as Hlen.
  destruct (d <? monthLength y m) eqn:E1.
  - apply Z.ltb_lt in E1.
    assert (E : (1 <? d + 1) = true) by (apply Z.ltb_lt; lia).
    rewrite E. f_equal. lia.
  - apply Z.ltb_ge in E1. destruct (m <? 12) eqn:E2.
    + apply Z.ltb_lt in E2. change (1 <? 1) with false. cbv iota.
      assert (E : (1 <? m + 1) = true) by (apply Z.ltb_lt; lia).
      rewrite E. replace (m + 1 - 1) with m by lia.
      f_equal. lia.
    + apply Z.ltb_ge in E2. change (1 <? 1) with false. cbv iota.
      assert (m = 12) as -> by lia.
      change (monthLength y 12) with 31 in *.
      repeat f_equal; lia.
Qed.

Lemma iter_prev_next (n : nat) (c : Day) :
  validDay c -> Nat.iter n prevDay (Nat.iter n nextDay c) = c.
Proof.
  intros Hv. induction n as [|n IH]; [reflexivity|].
  rewrite Nat.iter_succ_r. cbn [Nat.iter nat_rect].
  change (nat_rect (fun _ => Day) c (fun _ => nextDay) n)
    with (Nat.iter n nextDay c).
  rewrite prevDay_nextDay by (apply iter_nextDay; exact Hv).
  exact IH.
Qed.

(** [k] days after a day, and [k] days back from there, is the day. *)
Lemma shiftDateStr_there_and_back (D : string) (c : Day) (k : Z) :
  parseISO D = Some c -> 1000 <= fst (fst c) ->
  fst (fst (addDays c k)) <= 9999 -> 0 <= k ->
  shiftDateStr (printDate (addDays c k)) (- k) = Some D.
Proof.
  intros Hp Hlo Hhi Hk.
  pose proof (parseISO_validDay _ _ Hp) as Hv.
  destruct (addDays_later c k k Hv ltac:(lia)) as (Vk & _ & Yk).
  unfold shiftDateStr. rewrite (parseISO_print _ Vk) by lia.
  f_equal. rewrite (parseISO_printed D c Hp Hlo). f_equal.
  unfold addDays.
  assert (E0 : (0 <=? k) = true) by (apply Z.leb_le; lia). rewrite E0.
  destruct (Z.eq_dec k 0) as [-> |Hne]; [reflexivity|].
  assert (E1 : (0 <=? - k) = false) by (apply Z.leb_gt; lia). rewrite E1.
  rewrite Z.opp_involutive. now apply iter_prev_next.
Qed.

Lemma backFrom_forward (D : string) (c : Day) (k : nat) :
  parseISO D = Some c -> 1000 <= fst (fst c) ->
  fst (fst (Nat.iter k nextDay c)) <= 9999 ->
  backFrom k (printDate (Nat.iter k nextDay c)) = Some D.
Proof.
  intros Hp Hlo. pose proof (parseISO_validDay _ _ Hp) as Hv.
  induction k as [|k IH]; intros Hhi.
  - simpl. f_equal. symmetry. now apply parseISO_printed.
  - destruct (iter_nextDay k c Hv) as (Vk & _ & Yk).
    destruct (nextDay_key _ Vk) as [_ Yn].
    cbn [backFrom]. unfold shiftDateStr.
    change (Nat.iter (S k) nextDay c) with (nextDay (Nat.iter k nextDay c))
      in *.
    rewrite (parseISO_print _ (nextDay_valid _ Vk)) by lia.
    change (addDays (nextDay (Nat.iter k nextDay c)) (-1))
      with (prevDay (nextDay (Nat.iter k nextDay c))).
    rewrite (prevDay_nextDay _ Vk). apply IH. lia.
Qed.

Lemma window_row_deleted (D H : string) (db db' : Db) (N : Z)
    (a : Achievement) :
  removeInvalidAchievements D H db = Some db' ->
  In N [7; 14; 21] ->
  type a = "streak_" +++ numberToString N ->
  habit_id a = Some H \/ habit_id a = None ->
  inWindow D N (earned_date a) ->
  ~ In a (achievements db').
Proof.
  intros Hrun HN Hty Hhab (endDate & Hend & Hlo & Hhi) Hin.
  apply removeInvalidAchievements_spec in Hrun
    as (e7 & e14 & e21 & H7 & H14 & H21 & ->).
  unfold deleteAchievements in Hin. simpl in Hin.
  apply filter_In in Hin as [_ Hkeep].
  apply negb_true_iff in Hkeep.
  assert (Hb : earnedBetween D endDate a = true)
    by (unfold earnedBetween; now rewrite Hlo, Hhi).
  assert (HhabB : habitIs H a = true \/ isNull (habit_id a) = true).
  { unfold habitIs, sql_eq, sql_where, isNull.
    destruct Hhab as [E|E]; rewrite E; [left|right]; [|reflexivity].
    now rewrite String.eqb_refl. }
  unfold invalidated in Hkeep.
  repeat (apply orb_false_iff in Hkeep; destruct Hkeep as [Hkeep ?]).
  simpl in HN.
  destruct HN as [<-|[<-|[<-|[]]]];
    change (7 - 1) with 6 in Hend; change (14 - 1) with 13 in Hend;
    change (21 - 1) with 20 in Hend;
    assert (E : endDate = e7 \/ endDate = e14 \/ endDate = e21)
      by (first [left; congruence | right; left; congruence
                | right; right; congruence]);
    rewrite Hty in *; simpl in *;
    destruct HhabB as [Hh|Hh]; rewrite Hh in *; simpl in *;
    destruct E as [E|[E|E]]; subst endDate;
    try congruence.
Qed.

Lemma removeInvalidAchievements_tables (D H : string) (db db' : Db) :
  removeInvalidAchievements D H db = Some db' ->
  habits db' = habits db /\ completions db' = completions db.
Proof.
  intros Hrun. apply removeInvalidAchievements_spec in Hrun
    as (e7 & e14 & e21 & _ & _ & _ & ->).
  split; reflexivity.
Qed.

Lemma toggleCompletion_off (D H : string) (db : Db) :
  checkCompletion (toggleCompletion D H false db) D H = false.
Proof.
  unfold toggleCompletion, checkCompletion. simpl.
  induction (completions db) as [|x l IH]; simpl; [reflexivity|].
  destruct ((fst x =s? D) && (snd x =s? H)) eqn:E; simpl;
    [exact IH | now rewrite E].
Qed.

(** X18 (un-completing, invalidating, awarding): once a completion of
    habit [H] on day [D] is taken back and the invalidation pass for
    [(D, H)] has run, an award pass on any of the [N] days from [D] on
    leaves the table without the row [streak_N] of [H] for that day,
    and, if [H] is active on [D], without the global row [streak_N]
    for that day. *)
Theorem unchecked_day_blocks_streaks (D H : string) (c : Day) (N k : Z)
    (db db2 db3 : Db) :
  parseISO D = Some c ->
  1000 <= fst (fst c) -> fst (fst (addDays c (N - 1))) <= 9999 ->
  In N [7; 14; 21] -> 0 <= k <= N - 1 ->
  removeInvalidAchievements D H (toggleCompletion D H false db) = Some db2 ->
  checkAchievements (printDate (addDays c k)) db2 = Some db3 ->
  ~ In (mkAchievement ("streak_" +++ numberToString N) (Some H)
                      (printDate (addDays c k))) (achievements db3)
  /\ (In H (map id (activeHabits D db)) ->
      ~ In (mkAchievement ("streak_" +++ numberToString N) None
                          (printDate (addDays c k))) (achievements db3)).
Proof.
  intros Hp Hlo Hhi HN Hk Hrem Hrun.
  pose proof (parseISO_validDay _ _ Hp) as Hv.
  destruct (addDays_later c k (N - 1) Hv Hk) as (Vk & _ & Yk).
  assert (Hwin : inWindow D N (printDate (addDays c k)))
    by now apply (calendar_days_inWindow D c N k).
  destruct (removeInvalidAchievements_tables _ _ _ _ Hrem) as [Hhab Hcomp].
  assert (Hoff : checkCompletion db2 D H = false).
  { unfold checkCompletion. rewrite Hcomp. apply toggleCompletion_off. }
  apply checkAchievements_rows in Hrun as (rows & Hrows & ->).
  split.
  - intros Hin. apply insertAll_In in Hin as [Hold|Hnew].
    + revert Hold.
      apply (window_row_deleted D H _ db2 N _ Hrem HN); auto.
    + apply (habit_streak_attempt _ _ _ _ _ HN Hrows) in Hnew as [_ Hdone].
      destruct (Hdone (Z.to_nat k)) as (d & Hd & Hdd); [lia|].
      assert (Eback : backFrom (Z.to_nat k) (printDate (addDays c k))
                      = Some D).
      { unfold addDays in *.
        assert (E0 : (0 <=? k) = true) by (apply Z.leb_le; lia).
        rewrite E0 in *. apply backFrom_forward; auto. lia. }
      congruence.
  - intros Hact Hin. apply insertAll_In in Hin as [Hold|Hnew].
    + revert Hold.
      apply (window_row_deleted D H _ db2 N _ Hrem HN); auto.
    + destruct (active_or_idle (printDate (addDays c k)) db2)
        as [Hidle|Hactive].
      * rewrite (awardAttempts_idle _ _ Hidle) in Hrows.
        injection Hrows as <-. destruct Hnew.
      * destruct (global_streak_attempt _ _ _ _ HN Hactive Hrows)
          as (ok & Hok & Hcount).
        apply (count_occ_In Achievement_eq_dec) in Hnew.
        destruct ok; [|lia].
        assert (Hdays : perfectDays db2 (printDate (addDays c k)) N).
        { apply (allStreak_perfectDays _ _ _ true); [lia | exact Hok |].
          reflexivity. }
        destruct (Hdays k) as (d & Hd & Hdd); [lia|].
        rewrite (shiftDateStr_there_and_back D c k Hp Hlo) in Hd by lia.
        injection Hd as <-.
        unfold dayComplete in Hdd. apply andb_prop in Hdd as [_ Hall].
        rewrite forallb_forall in Hall.
        assert (Eact : activeHabits D db2 = activeHabits D db)
          by (unfold activeHabits; rewrite Hhab; reflexivity).
        rewrite Eact in Hall.
        apply in_map_iff in Hact as (h & <- & Hh).
        rewrite (Hall h Hh) in Hoff. discriminate Hoff.
Qed.

Lemma unchecked_day_blocks_streaks_witness :
  exists db2 db3,
    removeInvalidAchievements "2024-01-03" "A" editedWeekDb = Some db2
    /\ checkAchievements "2024-01-07" db2 = Some db3
    /\ ~ In (mkAchievement "streak_7" (Some "A") "2024-01-07")
            (achievements db3)
    /\ ~ In (mkAchievement "streak_7" None "2024-01-07") (achievements db3).
Proof.
  destruct (removeInvalidAchievements "2024-01-03" "A" editedWeekDb)
    as [db2|] eqn:Hrem; [|vm_compute in Hrem; discriminate Hrem].
  destruct (checkAchievements "2024-01-07" db2) as [db3|] eqn:Hrun.
  2:{ vm_compute in Hrem. injection Hrem as <-.
      vm_compute in Hrun. discriminate Hrun. }
  exists db2, db3. split; [reflexivity|]. split; [exact Hrun|].
  destruct (unchecked_day_blocks_streaks
              "2024-01-03" "A" (2024, 1, 3) 7 4
              (set_achievements weekDb weekAwards) db2 db3 eq_refl
              ltac:(simpl; lia) ltac:(vm_compute; discriminate)
              ltac:(simpl; tauto) ltac:(lia) Hrem Hrun) as [Hhabit Hglobal].
  split; [exact Hhabit|]. apply Hglobal. simpl. tauto.
Defined.

(* ----------------------------------------------------------------- *)
(** ** The CSV export *)

Lemma doubleQuotes_inj (s1 s2 : string) :
  doubleQuotes s1 = doubleQuotes s2 -> s1 = s2.
Proof.
  revert s2. induction s1 as [|x s1 IH]; intros [|y s2]; simpl.
  - reflexivity.
  - destruct (Ascii.eqb y quoteChar); discriminate.
  - destruct (Ascii.eqb x quoteChar); discriminate.
  - destruct (Ascii.eqb x quoteChar) eqn:Ex, (Ascii.eqb y quoteChar) eqn:Ey.
    + apply Ascii.eqb_eq in Ex, Ey. intros [= H]. f_equal; [congruence|].
      now apply IH.
    + intros [= <- H]. apply Ascii.eqb_neq in Ey. now destruct Ey.
    + intros [= -> H]. apply Ascii.eqb_neq in Ex. now destruct Ex.
    + intros [= -> H]. f_equal. now apply IH.
Qed.

Lemma append_last_inj (s1 s2 : string) (c : ascii) :
  s1 +++ String c EmptyString = s2 +++ String c EmptyString -> s1 = s2.
Proof.
  revert s2. induction s1 as [|x s1 IH]; intros [|y s2]; simpl.
  - reflexivity.
  - intros [= -> H]. destruct s2; discriminate H.
  - intros [= -> H]. destruct s1; discriminate H.
  - intros [= -> H]. f_equal. now apply IH.
Qed.

(** X19 (csvEscape): two strings that [csvEscape] writes as the same
    cell are the same string, and a string without a comma, a double
    quote and a newline is written as it is. *)
Theorem csvEscape_injective (s1 s2 : string) :
  (csvEscape s1 = csvEscape s2 -> s1 = s2)
  /\ (includes "," s1 = false -> includes quoteChar s1 = false ->
      includes newlineChar s1 = false -> csvEscape s1 = s1).
Proof.
  split.
  - unfold csvEscape.
    destruct (includes "," s1 || includes quoteChar s1
              || includes newlineChar s1) eqn:E1,
             (includes "," s2 || includes quoteChar s2
              || includes newlineChar s2) eqn:E2.
    + intros [= H]. apply append_last_inj in H. now apply doubleQuotes_inj.
    + intros <-. apply orb_false_iff in E2 as [E2 _].
      apply orb_false_iff in E2 as [_ E2]. discriminate E2.
    + intros ->. apply orb_false_iff in E1 as [E1 _].
      apply orb_false_iff in E1 as [_ E1]. discriminate E1.
    + auto.
  - intros H1 H2 H3. unfold csvEscape. now rewrite H1, H2, H3.
Qed.

Lemma csvEscape_injective_witness :
  csvEscape "Run" = "Run".
Proof.
  apply (csvEscape_injective "Run" "Run"); reflexivity.
Defined.

Lemma readCsv_separator (mode : CsvMode) (field : string)
    (record : list string) (rest : string) :
  mode <> InQuoted -> mode <> AfterReturn ->
  readCsv mode field record (String "," rest)
  = readCsv AtStart EmptyString (record ++ [field]) rest
  /\ readCsv mode field record (String newlineChar rest)
     = (record ++ [field]) :: readCsv AtStart EmptyString [] rest
  /\ readCsv mode field record EmptyString = [record ++ [field]].
Proof.
  intros Hmode Hmode'.
  destruct mode; try (now destruct Hmode); try (now destruct Hmode');
    repeat split.
Qed.

Lemma append_empty (s : string) : s +++ EmptyString = s.
Proof. induction s as [|x s IH]; simpl; [reflexivity | now rewrite IH]. Qed.

Lemma append_snoc (s : string) (c : ascii) (t : string) :
  (s +++ String c EmptyString) +++ t = s +++ String c t.
Proof. induction s as [|x s IH]; simpl; [reflexivity | now rewrite IH]. Qed.

Lemma readCsv_plain (field : string) (record : list string)
    (f rest : string) :
  includes "," f = false -> includes quoteChar f = false ->
  includes newlineChar f = false -> includes returnChar f = false ->
  readCsv InPlain field record (f +++ rest)
  = readCsv InPlain (field +++ f) record rest.
Proof.
  revert field. induction f as [|c f IH]; intros field.
  - intros _ _ _ _. simpl.
    now rewrite append_empty.
  - cbn [includes append]. intros Hc Hq Hn Hr.
    apply orb_false_iff in Hc as [Hc Hc'], Hq as [Hq Hq'], Hn as [Hn Hn'],
                           Hr as [Hr Hr'].
    cbn [readCsv]. rewrite Hq, Hc, Hn, Hr.
    rewrite (IH _ Hc' Hq' Hn' Hr'). now rewrite append_snoc.
Qed.

Lemma readCsv_quoted (field : string) (record : list string)
    (f rest : string) :
  readCsv InQuoted field record (doubleQuotes f +++ String quoteChar rest)
  = readCsv AfterQuote (field +++ f) record rest.
Proof.
  revert field. induction f as [|c f IH]; intros field.
  - simpl.
    now rewrite append_empty.
  - cbn [doubleQuotes]. destruct (Ascii.eqb c quoteChar) eqn:Ec.
    + apply Ascii.eqb_eq in Ec. subst c.
      cbn [append readCsv]. rewrite Ascii.eqb_refl.
      rewrite IH. now rewrite append_snoc.
    + cbn [append readCsv]. rewrite Ec.
      rewrite IH. now rewrite append_snoc.
Qed.

(** Reading a cell that [csvEscape] wrote gives the string back, up to
    the separator that follows, unless the cell holds a carriage return
    and was written without quotes. *)
Lemma readCsv_cell (record : list string) (f rest : string) :
  bareReturn f = false ->
  exists mode,
    mode <> InQuoted /\ mode <> AfterReturn
    /\ readCsv AtStart EmptyString record (csvEscape f +++ rest)
       = readCsv mode f record rest.
Proof.
  unfold csvEscape, bareReturn.
  destruct (includes "," f || includes quoteChar f || includes newlineChar f)
    eqn:E.
  - intros _. exists AfterQuote. split; [discriminate|].
    split; [discriminate|].
    cbn [append readCsv]. rewrite Ascii.eqb_refl.
    rewrite append_snoc. now rewrite readCsv_quoted.
  - rewrite andb_true_r. intros Hr.
    apply orb_false_iff in E as [E Hn]. apply orb_false_iff in E as [Hc Hq].
    destruct f as [|c f].
    + exists AtStart. split; [discriminate|]. split; [discriminate|].
      reflexivity.
    + exists InPlain. split; [discriminate|]. split; [discriminate|].
      cbn [includes] in Hc, Hq, Hn, Hr.
      apply orb_false_iff in Hc as [Hc Hc'], Hq as [Hq Hq'], Hn as [Hn Hn'],
                             Hr as [Hr Hr'].
      cbn [append readCsv]. rewrite Hq, Hc, Hn, Hr.
      now rewrite (readCsv_plain _ _ _ _ Hc' Hq' Hn' Hr').
Qed.

Lemma join_cons (sep a b : string) (l : list string) :
  join sep (a :: b :: l) = a +++ sep +++ join sep (b :: l).
Proof. reflexivity. Qed.

Lemma readCsv_record (cells : list string) (record : list string)
    (rest : string) :
  cells <> [] -> Forall (fun f => bareReturn f = false) cells ->
  readCsv AtStart EmptyString record
    (join "," (map csvEscape cells) +++ String newlineChar rest)
  = (record ++ cells) :: readCsv AtStart EmptyString [] rest
  /\ readCsv AtStart EmptyString record (join "," (map csvEscape cells))
     = [record ++ cells].
Proof.
  revert record. induction cells as [|f cells IH]; intros record Hne Hbare;
    [now destruct Hne|].
  inversion Hbare as [|? ? Hf Hbare']; subst.
  destruct cells as [|g cells].
  - change (join "," (map csvEscape [f])) with (csvEscape f). split.
    + destruct (readCsv_cell record f (String newlineChar rest) Hf)
        as (mode & Hmode & Hmode' & ->).
      now rewrite (proj1 (proj2 (readCsv_separator mode f record rest
                                   Hmode Hmode'))).
    + destruct (readCsv_cell record f EmptyString Hf)
        as (mode & Hmode & Hmode' & E).
      rewrite append_empty in E. rewrite E.
      now rewrite (proj2 (proj2 (readCsv_separator mode f record EmptyString
                                   Hmode Hmode'))).
  - assert (Hne' : g :: cells <> []) by discriminate.
    destruct (IH (record ++ [f]) Hne' Hbare') as [IH1 IH2].
    rewrite <- !app_assoc in IH1, IH2. cbn [app] in IH1, IH2.
    change (map csvEscape (f :: g :: cells))
      with (csvEscape f :: csvEscape g :: map csvEscape cells).
    rewrite join_cons.
    change (csvEscape g :: map csvEscape cells)
      with (map csvEscape (g :: cells)).
    split.
    + rewrite !append_assoc.
      destruct (readCsv_cell record f
                  ("," +++ join "," (map csvEscape (g :: cells))
                       +++ String newlineChar rest) Hf)
        as (mode & Hmode & Hmode' & ->).
      change ("," +++ join "," (map csvEscape (g :: cells))
                  +++ String newlineChar rest)
        with (String "," (join "," (map csvEscape (g :: cells))
                          +++ String newlineChar rest)).
      rewrite (proj1 (readCsv_separator mode f record _ Hmode Hmode')).
      exact IH1.
    + destruct (readCsv_cell record f
                  ("," +++ join "," (map csvEscape (g :: cells))) Hf)
        as (mode & Hmode & Hmode' & ->).
      change ("," +++ join "," (map csvEscape (g :: cells)))
        with (String "," (join "," (map csvEscape (g :: cells)))).
      rewrite (proj1 (readCsv_separator mode f record _ Hmode Hmode')).
      exact IH2.
Qed.

Lemma parseCsv_grid (grid : list (list string)) :
  grid <> [] -> Forall (fun cells => cells <> []) grid ->
  Forall (Forall (fun f => bareReturn f = false)) grid ->
  parseCsv (join (String newlineChar EmptyString)
              (map (fun cells => join "," (map csvEscape cells)) grid))
  = grid.
Proof.
  unfold parseCsv. induction grid as [|cells grid IH]; intros Hne Hall Hbare;
    [now destruct Hne|].
  inversion Hall as [|? ? Hcells Hrest]; subst.
  inversion Hbare as [|? ? Hb Hbare']; subst.
  destruct grid as [|cells' grid].
  - change (join (String newlineChar EmptyString)
              (map (fun cells => join "," (map csvEscape cells)) [cells]))
      with (join "," (map csvEscape cells)).
    now rewrite (proj2 (readCsv_record cells [] EmptyString Hcells Hb)).
  - change (map (fun cells => join "," (map csvEscape cells))
              (cells :: cells' :: grid))
      with (join "," (map csvEscape cells)
            :: join "," (map csvEscape cells')
            :: map (fun cells => join "," (map csvEscape cells)) grid).
    rewrite join_cons.
    change (join "," (map csvEscape cells')
            :: map (fun cells => join "," (map csvEscape cells)) grid)
      with (map (fun cells => join "," (map csvEscape cells))
              (cells' :: grid)).
    change (String newlineChar EmptyString +++ ?x)
      with (String newlineChar x).
    rewrite (proj1 (readCsv_record cells [] _ Hcells Hb)). cbn [app].
    f_equal. apply IH; [discriminate | exact Hrest | exact Hbare'].
Qed.

(** No date the program prints holds a carriage return. *)
Lemma includes_append (c : ascii) (s1 s2 : string) :
  includes c (s1 +++ s2) = includes c s1 || includes c s2.
Proof.
  induction s1 as [|x s1 IH]; [reflexivity|].
  cbn [append includes]. now rewrite IH, orb_assoc.
Qed.

Lemma string_of_uint_no_return (u : Decimal.uint) :
  includes returnChar (NilEmpty.string_of_uint u) = false.
Proof. induction u; simpl; auto. Qed.

Lemma numberToString_no_return (n : Z) :
  includes returnChar (numberToString n) = false.
Proof.
  assert (H : forall u, includes returnChar (NilZero.string_of_uint u)
                        = false).
  { intros u. destruct u; [reflexivity|..];
      unfold NilZero.string_of_uint; apply string_of_uint_no_return. }
  unfold numberToString, NilZero.string_of_int.
  destruct (Z.to_int n) as [u|u]; [apply H|].
  cbn [includes]. apply H.
Qed.

Lemma padStart_no_return (k : nat) (s : string) :
  includes returnChar s = false ->
  includes returnChar (padStart k "0" s) = false.
Proof.
  intros Hs. unfold padStart. rewrite includes_append, Hs, orb_false_r.
  induction (k - String.length s)%nat as [|n IH]; [reflexivity|].
  exact IH.
Qed.

Lemma printDate_no_return (c : Day) :
  includes returnChar (printDate c) = false.
Proof.
  destruct c as [[y m] d]. unfold printDate.
  rewrite !includes_append.
  rewrite numberToString_no_return.
  now rewrite !padStart_no_return by apply numberToString_no_return.
Qed.

Lemma fillDates_no_return (fuel : nat) (d endDay : Day) :
  Forall (fun f => bareReturn f = false) (fillDates fuel d endDay).
Proof.
  revert d. induction fuel as [|fuel IH]; intros d; [constructor|].
  cbn [fillDates]. destruct (dayKey d <=? dayKey endDay); [|constructor].
  constructor; [|apply IH].
  unfold bareReturn. now rewrite printDate_no_return.
Qed.

Lemma insertString_length (x : string) (l : list string) :
  List.length (insertString x l) = S (List.length l).
Proof.
  induction l as [|y l IH]; [reflexivity|].
  cbn [insertString]. destruct (x <=s? y); [reflexivity|].
  cbn [List.length]. now rewrite IH.
Qed.

Lemma sortStrings_length (l : list string) :
  List.length (sortStrings l) = List.length l.
Proof.
  induction l as [|x l IH]; [reflexivity|].
  cbn [sortStrings fold_right]. fold (sortStrings l).
  rewrite insertString_length. cbn [List.length]. now rewrite IH.
Qed.

Lemma exportGrid_text (habits : list (string * string)) (obj : DayMarks)
    (allDates : list string) :
  join (String newlineChar EmptyString)
    (join "," (map csvEscape ("Habit" :: allDates))
     :: map (exportRow obj allDates) habits)
  = join (String newlineChar EmptyString)
      (map (fun cells => join "," (map csvEscape cells))
         (exportGrid habits obj allDates)).
Proof.
  unfold exportGrid. cbn [map]. do 2 f_equal.
  rewrite map_map. apply map_ext. intros h. unfold exportRow. cbn [map].
  do 2 f_equal. rewrite map_map. apply map_ext. intros date.
  now destruct (isMarked obj date (fst h)).
Qed.

Lemma exportDates_no_return (obj : DayMarks) (allDates : list string) :
  exportDates obj = Some allDates ->
  Forall (fun f => bareReturn f = false) allDates.
Proof.
  unfold exportDates.
  destruct (parseISO (hd EmptyString _)) as [d|]; [|discriminate].
  destruct (parseISO (last _ EmptyString)) as [endDay|]; [|discriminate].
  intros [= <-]. apply fillDates_no_return.
Qed.

(** X20 (CSV export): what the export sends is either the note that
    there is nothing to export, when there is no habit or no
    completion, or text that reads back, as CSV, to the grid of the
    export: the header [Habit] and the dates, then a record per habit
    with its name and its marks.  This holds for names with commas,
    double quotes and line feeds, which [csvEscape] quotes; it needs
    that no name holds a carriage return without one of these, for such
    a name is written without quotes and its carriage return is read as
    the end of the record. *)
Theorem exportCsv_reads_back (db : Db) (csv : string) :
  exportCsv db = Some csv ->
  exists habits obj,
    getExportData db = Some (habits, obj)
    /\ ((habits = [] \/ obj = []) /\ csv = "No data to export"
        \/ habits <> [] /\ obj <> []
           /\ exists allDates,
                exportDates obj = Some allDates
                /\ (Forall (fun h => bareReturn (snd h) = false) habits ->
                    parseCsv csv = exportGrid habits obj allDates)).
Proof.
  unfold exportCsv.
  destruct (getExportData db) as [[habits obj]|]; [|discriminate].
  intros Hcsv. exists habits, obj. split; [reflexivity|].
  rewrite sortStrings_length, length_map in Hcsv.
  destruct habits as [|h habits].
  - left. split; [now left|]. now injection Hcsv.
  - destruct obj as [|e obj].
    + left. split; [now right|]. now injection Hcsv.
    + right. split; [discriminate|]. split; [discriminate|].
      change ((List.length (h :: habits) =? 0)%nat
              || (List.length (e :: obj) =? 0)%nat) with false in Hcsv.
      cbv iota in Hcsv.
      destruct (exportDates (e :: obj)) as [allDates|] eqn:Hdates;
        [|discriminate].
      exists allDates. split; [reflexivity|]. intros Hnames.
      apply exportDates_no_return in Hdates.
      cbv zeta in Hcsv. rewrite exportGrid_text in Hcsv.
      assert (E : join (String newlineChar EmptyString)
                    (map (fun cells => join "," (map csvEscape cells))
                       (exportGrid (h :: habits) (e :: obj) allDates))
                  = csv) by congruence.
      rewrite <- E. apply parseCsv_grid; [discriminate| |].
      * unfold exportGrid. constructor; [discriminate|].
        apply Forall_forall. intros cells Hin.
        apply in_map_iff in Hin as (h' & <- & _). discriminate.
      * unfold exportGrid. constructor; [now constructor|].
        apply Forall_forall. intros cells Hin.
        apply in_map_iff in Hin as (h' & <- & Hh').
        constructor; [exact (proj1 (Forall_forall _ _) Hnames h' Hh')|].
        apply Forall_forall. intros f Hf.
        apply in_map_iff in Hf as (date & <- & _).
        now destruct (isMarked (e :: obj) date (fst h')).
Qed.

Lemma exportCsv_reads_back_witness :
  exists csv,
    exportCsv commaNameDb = Some csv
    /\ parseCsv csv
       = [["Habit"; "2024-01-01"; "2024-01-02"; "2024-01-03"];
          ["Run, fast"; "X"; EmptyString; "X"]].
Proof.
  destruct (exportCsv commaNameDb) as [csv|] eqn:Hcsv;
    [|vm_compute in Hcsv; discriminate Hcsv].
  exists csv. split; [reflexivity|].
  destruct (exportCsv_reads_back commaNameDb csv Hcsv)
    as (habits0 & obj & Hdata & [[[E|E] _]|(_ & _ & allDates & Hd & Hp)]).
  - vm_compute in Hdata. injection Hdata as <- _. discriminate E.
  - vm_compute in Hdata. injection Hdata as _ <-. discriminate E.
  - vm_compute in Hdata. injection Hdata as <- <-.
    rewrite Hp by (repeat constructor).
    vm_compute in Hd. injection Hd as <-. reflexivity.
Defined.

(** A name with a carriage return and no comma, double quote or line
    feed does not read back: the export of [returnNameDb] reads as
    three records, the name split over two of them. *)
Lemma returnName_splits :
  exists csv,
    exportCsv returnNameDb = Some csv
    /\ parseCsv csv
       = [["Habit"; "2024-01-01"]; ["Run"]; ["fast"; "X"]].
Proof.
  eexists. split; [vm_compute; reflexivity|]. vm_compute. reflexivity.
Qed.

(** Dates that read as days are ordered, as text, as their days are. *)
Lemma compare_parsed (s1 s2 : string) (c1 c2 : Day) :
  parseISO s1 = Some c1 -> parseISO s2 = Some c2 ->
  String.compare s1 s2 = (dayKey c1 ?= dayKey c2).
Proof.
  destruct c1 as [[y1 m1] d1], c2 as [[y2 m2] d2]. intros P1 P2.
  pose proof (parseISO_valid _ _ _ _ P1) as (Hy1 & Hm1 & Hd1).
  pose proof (parseISO_valid _ _ _ _ P2) as (Hy2 & Hm2 & Hd2).
  pose proof (monthLength_range y1 m1). pose proof (monthLength_range y2 m2).
  rewrite (parseISO_sound _ _ _ _ P1), (parseISO_sound _ _ _ _ P2).
  destruct (four_digits_of y1) as (a1 & b1 & c1 & e1 & ? & ? & ? & ? & -> & ->);
    [lia|].
  destruct (four_digits_of y2) as (a2 & b2 & c2 & e2 & ? & ? & ? & ? & -> & ->);
    [lia|].
  destruct (two_digits_of m1) as (f1 & g1 & ? & ? & -> & ->); [lia|].
  destruct (two_digits_of m2) as (f2 & g2 & ? & ? & -> & ->); [lia|].
  destruct (two_digits_of d1) as (i1 & j1 & ? & ? & -> & ->); [lia|].
  destruct (two_digits_of d2) as (i2 & j2 & ? & ? & -> & ->); [lia|].
  unfold dayKey. simpl String.append. cbn [String.compare].
  do 4 by_digit.
  change (Ascii.compare "-" "-") with Eq. cbv iota.
  do 2 by_digit.
  change (Ascii.compare "-" "-") with Eq. cbv iota.
  do 2 by_digit.
  symmetry. apply Z.compare_eq_iff. reflexivity.
Qed.

Lemma leb_parsed (s1 s2 : string) (c1 c2 : Day) :
  parseISO s1 = Some c1 -> parseISO s2 = Some c2 ->
  (s1 <=s? s2) = (dayKey c1 <=? dayKey c2).
Proof.
  intros P1 P2. unfold String.leb, Z.leb.
  now rewrite (compare_parsed _ _ _ _ P1 P2).
Qed.

Lemma insertString_In (x y : string) (l : list string) :
  In y (insertString x l) <-> y = x \/ In y l.
Proof.
  induction l as [|z l IH]; simpl; [intuition congruence|].
  destruct (x <=s? z); simpl; [intuition congruence|].
  rewrite IH. intuition congruence.
Qed.

Lemma sortStrings_In (y : string) (l : list string) :
  In y (sortStrings l) <-> In y l.
Proof.
  induction l as [|x l IH]; simpl; [reflexivity|].
  fold (sortStrings l). rewrite insertString_In, IH. intuition congruence.
Qed.

(** Where the order of text agrees with a numbering [k] of the
    strings, sorting puts them in the order of their numbers. *)
Lemma sortStrings_sorted (k : string -> Z) (l : list string) :
  (forall x y, In x l -> In y l -> (x <=s? y) = (k x <=? k y)) ->
  StronglySorted (fun a b => k a <= k b) (sortStrings l).
Proof.
  induction l as [|x l IH]; intros Hk; [constructor|].
  cbn [sortStrings fold_right]. fold (sortStrings l).
  assert (IH' : StronglySorted (fun a b => k a <= k b) (sortStrings l))
    by (apply IH; intros; apply Hk; now right).
  assert (Hk' : forall y, In y (sortStrings l) -> (x <=s? y) = (k x <=? k y)).
  { intros y Hy. apply Hk; [now left|]. right. now apply sortStrings_In. }
  clear IH Hk. induction IH' as [|z s Hs IHs Hz]; cbn [insertString].
  - repeat constructor.
  - rewrite (Hk' z (or_introl eq_refl)).
    destruct (Z.leb_spec (k x) (k z)) as [Hle|Hgt].
    + constructor; [now constructor|].
      constructor; [exact Hle|].
      rewrite Forall_forall in *. intros y Hy. specialize (Hz y Hy). lia.
    + constructor.
      * apply IHs. intros y Hy. apply Hk'. now right.
      * apply Forall_forall. intros y Hy. apply insertString_In in Hy.
        destruct Hy as [->|Hy]; [lia|].
        rewrite Forall_forall in Hz. now apply Hz.
Qed.

Lemma sorted_ends (k : string -> Z) (l : list string) (x : string) :
  StronglySorted (fun a b => k a <= k b) l -> In x l ->
  k (hd EmptyString l) <= k x <= k (last l EmptyString).
Proof.
  intros Hs. revert x. induction Hs as [|y l Hs IH Hy]; intros x Hx;
    [destruct Hx|].
  rewrite Forall_forall in Hy. cbn [hd].
  destruct l as [|z l].
  - destruct Hx as [->|[]]. simpl. lia.
  - change (last (y :: z :: l) EmptyString) with (last (z :: l) EmptyString).
    destruct Hx as [->|Hx].
    + split; [lia|].
      pose proof (IH z (or_introl eq_refl)) as [_ Hz].
      pose proof (Hy z (or_introl eq_refl)). lia.
    + pose proof (IH x Hx) as [_ Hxl]. pose proof (Hy x Hx). lia.
Qed.

Lemma ends_In (l : list string) :
  l <> [] -> In (hd EmptyString l) l /\ In (last l EmptyString) l.
Proof.
  intros Hne. split.
  - destruct l; [now destruct Hne | now left].
  - induction l as [|x l IH]; [now destruct Hne|].
    destruct l as [|y l]; [now left|].
    right. apply IH. discriminate.
Qed.

(** The object of the completions: its dates and its marks. *)
Lemma markDay_keys (date habitId d : string) (obj : DayMarks) :
  In d (map fst (markDay date habitId obj))
  <-> d = date \/ In d (map fst obj).
Proof.
  induction obj as [|[d' keys] obj IH]; simpl; [intuition congruence|].
  destruct (d' =s? date) eqn:E; simpl.
  - apply String.eqb_eq in E. subst d'. intuition congruence.
  - rewrite IH. intuition congruence.
Qed.

Lemma buildMarks_keys (rows : list (string * string)) (obj : DayMarks)
    (d : string) :
  In d (map fst (fold_left (fun o c => markDay (fst c) (snd c) o) rows obj))
  <-> In d (map fst obj) \/ In d (map fst rows).
Proof.
  revert obj. induction rows as [|c rows IH]; intros obj; simpl;
    [tauto|].
  rewrite IH, markDay_keys. intuition congruence.
Qed.

Lemma markHabit_has (habitId hid : string) (keys : list string) :
  existsb (fun k => k =s? hid) (markHabit habitId keys)
  || existsb (fun k => k =s? hid) protoNames
  = existsb (fun k => k =s? hid) keys
    || (habitId =s? hid)
    || existsb (fun k => k =s? hid) protoNames.
Proof.
  unfold markHabit. destruct (habitId =s? "__proto__") eqn:Ep.
  - apply String.eqb_eq in Ep. subst habitId.
    destruct ("__proto__" =s? hid) eqn:E.
    + apply String.eqb_eq in E. subst hid.
      rewrite orb_true_r. cbn [orb]. now rewrite !orb_true_r.
    + now rewrite orb_false_r.
  - destruct (existsb (fun k => k =s? habitId) keys) eqn:Ex.
    + destruct (habitId =s? hid) eqn:E; [|now rewrite orb_false_r].
      apply String.eqb_eq in E. subst hid. now rewrite Ex.
    + rewrite existsb_app. cbn [existsb]. now rewrite orb_false_r.
Qed.

Lemma isMarked_markDay (date habitId : string) (obj : DayMarks)
    (d hid : string) :
  isMarked (markDay date habitId obj) d hid
  = isMarked obj d hid
    || ((date =s? d)
        && ((habitId =s? hid) || existsb (fun k => k =s? hid) protoNames)).
Proof.
  unfold isMarked. induction obj as [|[d' keys] obj IH].
  - cbn [markDay find fst]. destruct (date =s? d) eqn:E; [|reflexivity].
    rewrite (markHabit_has habitId hid []). reflexivity.
  - cbn [markDay]. destruct (d' =s? date) eqn:E.
    + apply String.eqb_eq in E. subst d'. cbn [find fst].
      destruct (date =s? d) eqn:Ed.
      * rewrite markHabit_has.
        destruct (existsb (fun k => k =s? hid) keys),
          (habitId =s? hid), (existsb (fun k => k =s? hid) protoNames);
          reflexivity.
      * now rewrite orb_false_r.
    + cbn [find fst]. destruct (d' =s? d) eqn:Ed.
      * apply String.eqb_eq in Ed. subst d'.
        rewrite String.eqb_sym in E. rewrite E. now rewrite orb_false_r.
      * exact IH.
Qed.

Lemma isMarked_buildMarks (rows : list (string * string)) (obj : DayMarks)
    (d hid : string) :
  isMarked (fold_left (fun o c => markDay (fst c) (snd c) o) rows obj) d hid
  = isMarked obj d hid
    || existsb (fun c => (fst c =s? d)
                         && ((snd c =s? hid)
                             || existsb (fun k => k =s? hid) protoNames))
               rows.
Proof.
  revert obj. induction rows as [|c rows IH]; intros obj; simpl.
  - now rewrite orb_false_r.
  - rewrite IH, isMarked_markDay. now rewrite orb_assoc.
Qed.

(** The days of the calendar, one after the other. *)
Lemma dayKey_inj (a b : Day) :
  validDay a -> validDay b -> dayKey a = dayKey b -> a = b.
Proof.
  destruct a as [[y1 m1] d1], b as [[y2 m2] d2]. unfold validDay, dayKey.
  intros [Hm1 Hd1] [Hm2 Hd2] E.
  pose proof (monthLength_range y1 m1). pose proof (monthLength_range y2 m2).
  assert (d1 = d2) by lia. assert (m1 = m2) by lia. assert (y1 = y2) by lia.
  congruence.
Qed.

Lemma nextDay_least (a b : Day) :
  validDay a -> validDay b -> dayKey a < dayKey b ->
  dayKey (nextDay a) <= dayKey b.
Proof.
  destruct a as [[y1 m1] d1], b as [[y2 m2] d2].
  unfold validDay, dayKey, nextDay. intros [Hm1 Hd1] [Hm2 Hd2] Hlt.
  pose proof (monthLength_range y1 m1). pose proof (monthLength_range y2 m2).
  destruct (d1 <? monthLength y1 m1) eqn:E1.
  - lia.
  - apply Z.ltb_ge in E1.
    assert (Hnot : ~ (y1 = y2 /\ m1 = m2)).
    { intros [-> ->]. lia. }
    destruct (m1 <? 12) eqn:E2.
    + apply Z.ltb_lt in E2. lia.
    + apply Z.ltb_ge in E2. lia.
Qed.

Lemma iter_nextDay_key (n : nat) (a : Day) :
  validDay a -> dayKey a + Z.of_nat n <= dayKey (Nat.iter n nextDay a).
Proof.
  intros Hv. induction n as [|n IH]; [simpl; lia|].
  change (Nat.iter (S n) nextDay a) with (nextDay (Nat.iter n nextDay a)).
  destruct (iter_nextDay n a Hv) as (Vn & _ & _).
  destruct (nextDay_key _ Vn) as [Hk _]. lia.
Qed.

Lemma days_between (a b : Day) :
  validDay a -> validDay b -> dayKey a <= dayKey b ->
  exists n, Nat.iter n nextDay a = b.
Proof.
  intros Va Vb Hle.
  remember (Z.to_nat (dayKey b - dayKey a)) as gap eqn:Hgap.
  revert a Va Hle Hgap.
  induction gap as [gap IH] using lt_wf_ind. intros a Va Hle Hgap.
  destruct (Z.eq_dec (dayKey a) (dayKey b)) as [E|Hne].
  - exists O. now apply dayKey_inj.
  - pose proof (nextDay_least a b Va Vb ltac:(lia)) as Hnext.
    destruct (nextDay_key a Va) as [Hk _].
    destruct (IH (Z.to_nat (dayKey b - dayKey (nextDay a))) ltac:(lia)
                (nextDay a) (nextDay_valid a Va) Hnext eq_refl) as (n & Hn).
    exists (S n). now rewrite Nat.iter_succ_r.
Qed.

Lemma fillDates_iter (n fuel : nat) (a : Day) :
  validDay a -> (n < fuel)%nat ->
  fillDates fuel a (Nat.iter n nextDay a)
  = map (fun k => printDate (Nat.iter k nextDay a)) (seq 0 (S n)).
Proof.
  revert fuel a. induction n as [|n IH]; intros fuel a Va Hfuel;
    (destruct fuel as [|fuel]; [lia|]); cbn [fillDates].
  - cbn [Nat.iter nat_rect]. rewrite Z.leb_refl.
    destruct (nextDay_key a Va) as [Hk _].
    destruct fuel as [|fuel]; [reflexivity|]. cbn [fillDates].
    destruct (Z.leb_spec (dayKey (nextDay a)) (dayKey a)); [lia|].
    reflexivity.
  - pose proof (iter_nextDay_key (S n) a Va) as Hup.
    destruct (Z.leb_spec (dayKey a) (dayKey (Nat.iter (S n) nextDay a)));
      [|lia].
    rewrite Nat.iter_succ_r.
    rewrite (IH fuel (nextDay a) (nextDay_valid a Va)) by lia.
    change (seq 0 (S (S n))) with (0%nat :: seq 1 (S n)).
    cbn [map Nat.iter nat_rect]. f_equal.
    rewrite <- seq_shift, map_map. apply map_ext. intros k.
    now rewrite Nat.iter_succ_r.
Qed.

Lemma addDays_iter (c : Day) (k : nat) :
  addDays c (Z.of_nat k) = Nat.iter k nextDay c.
Proof.
  unfold addDays.
  destruct (Z.leb_spec 0 (Z.of_nat k)); [|lia]. now rewrite Nat2Z.id.
Qed.

Lemma existsb_same (A : Type) (f g : A -> bool) (l : list A) :
  (forall x, f x = g x) -> existsb f l = existsb g l.
Proof.
  intros H. induction l as [|x l IH]; simpl; [reflexivity|].
  now rewrite H, IH.
Qed.

(** X21 (CSV export, the grid): with a completion in the store, the
    dates of the header are the calendar days from the earliest date
    with a completion to the latest, each once and in order; every
    completion dated in a year of four digits has its date among them;
    and for a habit whose id is no name of [Object.prototype] a cell is
    marked exactly when the store has the completion. *)
Theorem exportDates_grid (db : Db) (habits0 : list (string * string))
    (obj : DayMarks) :
  getExportData db = Some (habits0, obj) -> completions db <> [] ->
  exists first last c1 n allDates,
    exportDates obj = Some allDates
    /\ In first (map fst (completions db))
    /\ In last (map fst (completions db))
    /\ parseISO first = Some c1
    /\ parseISO last = Some (addDays c1 (Z.of_nat n))
    /\ allDates = map (fun k => printDate (addDays c1 (Z.of_nat k)))
                      (seq 0 (S n))
    /\ (forall d h c, In (d, h) (completions db) ->
                      parseISO d = Some c -> 1000 <= fst (fst c) ->
                      In d allDates)
    /\ (forall date hid, ~ In hid protoNames ->
                         isMarked obj date hid = checkCompletion db date hid).
Proof.
  unfold getExportData.
  destruct (forallb _ (completions db)) eqn:Hall; [|discriminate].
  intros [= _ <-] Hne.
  set (obj := fold_left (fun o c => markDay (fst c) (snd c) o)
                        (completions db) []).
  set (dates := sortStrings (map fst obj)).
  set (k := fun s => match parseISO s with
                     | Some c => dayKey c
                     | None => 0
                     end).
  assert (Hkeys : forall d, In d dates <-> In d (map fst (completions db))).
  { intros d. unfold dates. rewrite sortStrings_In. unfold obj.
    rewrite buildMarks_keys. simpl. tauto. }
  assert (Hparse : forall d, In d dates -> exists c, parseISO d = Some c).
  { intros d Hd. apply Hkeys in Hd. apply in_map_iff in Hd as (c & <- & Hc).
    rewrite forallb_forall in Hall. specialize (Hall c Hc).
    destruct (parseISO (fst c)) as [c'|]; [now exists c' | discriminate]. }
  assert (Hsorted : StronglySorted (fun a b => k a <= k b) dates).
  { apply sortStrings_sorted. intros x y Hx Hy.
    destruct (Hparse x) as (cx & Ex); [now apply sortStrings_In|].
    destruct (Hparse y) as (cy & Ey); [now apply sortStrings_In|].
    unfold k. rewrite Ex, Ey. now apply leb_parsed. }
  assert (Hdates : dates <> []).
  { destruct (completions db) as [|c rows] eqn:Ec; [now destruct Hne|].
    intros E. assert (Hin : In (fst c) dates) by (apply Hkeys; now left).
    rewrite E in Hin. destruct Hin. }
  destruct (ends_In dates Hdates) as [Hfirst Hlast].
  destruct (Hparse _ Hfirst) as (c1 & E1).
  destruct (Hparse _ Hlast) as (c2 & E2).
  pose proof (parseISO_validDay _ _ E1) as V1.
  pose proof (parseISO_validDay _ _ E2) as V2.
  assert (Hle : dayKey c1 <= dayKey c2).
  { pose proof (sorted_ends k dates _ Hsorted Hlast) as [H _].
    unfold k in H. now rewrite E1, E2 in H. }
  destruct (days_between c1 c2 V1 V2 Hle) as (n & Hn).
  pose proof (iter_nextDay_key n c1 V1) as Hup. rewrite Hn in Hup.
  exists (hd EmptyString dates), (last dates EmptyString), c1, n,
    (map (fun j => printDate (addDays c1 (Z.of_nat j))) (seq 0 (S n))).
  split.
  { unfold exportDates. fold dates. rewrite E1, E2. f_equal.
    rewrite <- Hn. rewrite fillDates_iter; [|exact V1|].
    - apply map_ext. intros j. now rewrite addDays_iter.
    - unfold fillFuel. rewrite Hn. lia. }
  split; [now apply Hkeys|]. split; [now apply Hkeys|].
  split; [exact E1|]. split; [now rewrite addDays_iter, Hn|].
  split; [reflexivity|]. split.
  - intros d h c Hin Hp Hyear.
    assert (Hd : In d dates)
      by (apply Hkeys, in_map_iff; exists (d, h); auto).
    pose proof (sorted_ends k dates _ Hsorted Hd) as [Hlo Hhi].
    unfold k in Hlo, Hhi. rewrite E1, Hp in Hlo. rewrite E2, Hp in Hhi.
    pose proof (parseISO_validDay _ _ Hp) as Vc.
    destruct (days_between c1 c V1 Vc Hlo) as (j & Hj).
    assert (Hjn : (j <= n)%nat).
    { destruct (Nat.le_gt_cases j n) as [|Hgt]; [assumption|].
      exfalso.
      replace j with ((j - n) + n)%nat in Hj by lia.
      rewrite Nat.iter_add, Hn in Hj.
      pose proof (iter_nextDay_key (j - n) c2 V2) as Hup'.
      rewrite Hj in Hup'. lia. }
    apply in_map_iff. exists j. split.
    + rewrite addDays_iter, Hj. symmetry. now apply parseISO_printed.
    + apply in_seq. lia.
  - intros date hid Hproto. unfold obj.
    rewrite isMarked_buildMarks. unfold checkCompletion. cbn [isMarked find].
    cbn [orb]. apply existsb_same.
    intros c.
    assert (E : existsb (fun x => x =s? hid) protoNames = false).
    { destruct (existsb (fun x => x =s? hid) protoNames) eqn:E;
        [|reflexivity].
      apply existsb_exists in E as (x & Hx & Ex).
      apply String.eqb_eq in Ex. subst x. now destruct Hproto. }
    now rewrite E, orb_false_r.
Qed.

Lemma exportDates_grid_witness :
  exists habits0 obj allDates,
    getExportData commaNameDb = Some (habits0, obj)
    /\ exportDates obj = Some allDates
    /\ In "2024-01-03" allDates
    /\ isMarked obj "2024-01-02" "A" = false.
Proof.
  destruct (getExportData commaNameDb) as [[habits0 obj]|] eqn:Hdata;
    [|vm_compute in Hdata; discriminate Hdata].
  destruct (exportDates_grid commaNameDb habits0 obj Hdata
              ltac:(discriminate))
    as (first & last & c1 & n & allDates & Hd & _ & _ & _ & _ & _
        & Hcover & Hmarks).
  exists habits0, obj, allDates. split; [reflexivity|]. split; [exact Hd|].
  split.
  - apply (Hcover "2024-01-03" "A" (2024, 1, 3));
      [now left | reflexivity | simpl; lia].
  - rewrite Hmarks; [reflexivity|].
    simpl. intuition discriminate.
Defined.

(* ----------------------------------------------------------------- *)
(** ** The achievements on display *)

Lemma ascii_compare_N (a b : ascii) :
  Ascii.compare a b = N.compare (N_of_ascii a) (N_of_ascii b).
Proof. reflexivity. Qed.

Lemma string_compare_trans (s1 s2 s3 : string) :
  String.compare s1 s2 <> Gt -> String.compare s2 s3 <> Gt ->
  String.compare s1 s3 <> Gt.
Proof.
  revert s2 s3. induction s1 as [|a s1 IH]; intros [|b s2] [|c s3];
    cbn [String.compare]; try congruence.
  rewrite !ascii_compare_N.
  destruct (N.compare_spec (N_of_ascii a) (N_of_ascii b)) as [Eab|Lab|Gab];
    destruct (N.compare_spec (N_of_ascii b) (N_of_ascii c)) as [Ebc|Lbc|Gbc];
    destruct (N.compare_spec (N_of_ascii a) (N_of_ascii c)) as [Eac|Lac|Gac];
    try congruence; try lia.
  apply IH.
Qed.

Lemma leb_trans (s1 s2 s3 : string) :
  (s1 <=s? s2) = true -> (s2 <=s? s3) = true -> (s1 <=s? s3) = true.
Proof.
  unfold String.leb. intros H1 H2.
  pose proof (string_compare_trans s1 s2 s3) as H.
  destruct (String.compare s1 s2), (String.compare s2 s3),
    (String.compare s1 s3); try reflexivity; try discriminate;
    exfalso; apply H; congruence.
Qed.

Lemma leb_refl (s : string) : (s <=s? s) = true.
Proof.
  destruct (String.leb_total s s); assumption.
Qed.

(** [MAX] under the order of text: the greatest of the values. *)
Lemma maxText_greatest (l : list string) :
  match maxText l with
  | None => l = []
  | Some m => In m l /\ forall x, In x l -> (x <=s? m) = true
  end.
Proof.
  destruct l as [|x l]; [reflexivity|]. cbn [maxText].
  assert (H : forall m0,
             let m := fold_left (fun m y => if m <=s? y then y else m) l m0 in
             (m = m0 \/ In m l) /\ (m0 <=s? m) = true
             /\ forall y, In y l -> (y <=s? m) = true).
  { induction l as [|y l IH]; intros m0; cbn [fold_left].
    - split; [now left|]. split; [apply leb_refl | intros y []].
    - destruct (IH (if m0 <=s? y then y else m0)) as (Hin & Hle & Hall).
      split; [|split].
      + destruct Hin as [E|Hin]; [|right; now right].
        rewrite E. destruct (m0 <=s? y); [right; now left | now left].
      + destruct (m0 <=s? y) eqn:E; [|exact Hle].
        now apply (leb_trans _ y).
      + intros z [<-|Hz]; [|now apply Hall].
        destruct (m0 <=s? y) eqn:E; [exact Hle|].
        apply (leb_trans _ m0); [|exact Hle].
        destruct (String.leb_total y m0) as [H|H]; [exact H | congruence]. }
  destruct (H x) as (Hin & Hle & Hall). split.
  - destruct Hin as [->|Hin]; [now left | now right].
  - intros y [<-|Hy]; [exact Hle | now apply Hall].
Qed.

Lemma own_assign (V : Type) (key key' : string) (v : V)
    (obj : list (string * V)) :
  own (assign key v obj) key' = if key =s? key' then Some v else own obj key'.
Proof.
  unfold own, assign. rewrite rev_app_distr. cbn [rev app find fst].
  now destruct (key =s? key').
Qed.

Lemma find_over_app (A : Type) (f : A -> bool) (l1 l2 : list A) :
  find f (l1 ++ l2)
  = match find f l1 with Some x => Some x | None => find f l2 end.
Proof.
  induction l1 as [|x l1 IH]; simpl; [reflexivity|].
  now destruct (f x).
Qed.

Lemma own_fold (V R : Type) (key : R -> string) (val : R -> V)
    (rows : list R) (obj : list (string * V)) (k : string) :
  own (fold_left (fun o r => assign (key r) (val r) o) rows obj) k
  = match find (fun r => key r =s? k) (rev rows) with
    | Some r => Some (val r)
    | None => own obj k
    end.
Proof.
  revert obj. induction rows as [|r rows IH]; intros obj; [reflexivity|].
  cbn [fold_left rev]. rewrite IH, find_over_app.
  destruct (find (fun r0 => key r0 =s? k) (rev rows)); [reflexivity|].
  cbn [find]. rewrite own_assign. now destruct (key r =s? k).
Qed.

Lemma find_keyed (A : Type) (f : string -> A) (key : A -> string)
    (keys : list string) (k : string) :
  (forall x, key (f x) = x) ->
  find (fun r => key r =s? k) (map f keys)
  = if in_dec string_dec k keys then Some (f k) else None.
Proof.
  intros Hkey. induction keys as [|x keys IH]; [reflexivity|].
  cbn [map find]. rewrite Hkey, IH.
  destruct (x =s? k) eqn:E.
  - apply String.eqb_eq in E. subst x.
    destruct (in_dec string_dec k (k :: keys)) as [_|Hn];
      [reflexivity | destruct Hn; now left].
  - apply String.eqb_neq in E.
    destruct (in_dec string_dec k keys) as [Hin|Hn],
      (in_dec string_dec k (x :: keys)) as [Hin'|Hn']; try reflexivity.
    + destruct Hn'. now right.
    + destruct Hin' as [->|Hin']; [now destruct E | now destruct Hn].
Qed.

Lemma in_dec_rev (k : string) (keys : list string) (A : Type) (a b : A) :
  (if in_dec string_dec k (rev keys) then a else b)
  = if in_dec string_dec k keys then a else b.
Proof.
  destruct (in_dec string_dec k (rev keys)) as [H|H],
    (in_dec string_dec k keys) as [H'|H']; try reflexivity.
  - destruct H'. now apply in_rev.
  - destruct H. now apply in_rev in H'.
Qed.

Lemma tallyOf_display (ty : string) (group : list Achievement) :
  tallyOf ty group = display ty (map earned_date group).
Proof. unfold tallyOf, display. now rewrite length_map. Qed.

(** What is on display for a global type. *)
Lemma global_entry (db : Db) (t : string) :
  orElse (own (fold_left (fun obj r => assign (tally_type r) r obj)
                         (globalRows db) []) t) (noTally t)
  = display t (earnedDates db t None).
Proof.
  rewrite (own_fold _ _ tally_type (fun r => r)). unfold globalRows.
  set (rows := filter (fun a => isNull (habit_id a)) (achievements db)).
  rewrite <- map_rev.
  rewrite (find_keyed _ (fun ty => tallyOf ty (filter (fun a => type a =s? ty)
                                               rows)) tally_type)
    by reflexivity.
  rewrite in_dec_rev.
  assert (Egroup : map earned_date (filter (fun a => type a =s? t) rows)
                   = earnedDates db t None).
  { unfold earnedDates, rows. rewrite filter_filter. f_equal.
    apply filter_ext. intros a. apply andb_comm. }
  destruct (in_dec string_dec t (nodup string_dec (map type rows)))
    as [Hin|Hn]; cbn [orElse].
  - now rewrite tallyOf_display, Egroup.
  - rewrite <- Egroup.
    assert (E : filter (fun a => type a =s? t) rows = []).
    { apply filter_nothing. intros a Ha.
      destruct (type a =s? t) eqn:E; [|reflexivity].
      apply String.eqb_eq in E. subst t.
      destruct Hn. apply nodup_In. now apply in_map. }
    now rewrite E.
Qed.

(** X22 (getAchievements, the global part): what [getAchievements]
    returns lists the five global types in their fixed order, each
    with the number of global rows of that type in the table and, as
    its latest date, the greatest of their dates in the order of text,
    or none when there is no such row. *)
Theorem getAchievements_global (db : Db) (global : list Tally)
    (perHabit : string -> option (string * list Tally)) :
  getAchievements db = Some (global, perHabit) ->
  global = map (fun t => display t (earnedDates db t None)) globalTypes
  /\ forall r, In r global ->
       let dates := earnedDates db (tally_type r) None in
       tally_count r = Z.of_nat (List.length dates)
       /\ match tally_latestDate r with
          | None => dates = []
          | Some latest =>
              In latest dates
              /\ forall d, In d dates -> (d <=s? latest) = true
          end.
Proof.
  unfold getAchievements.
  destruct (fileRows (perHabitRows db) []) as [filed|]; [|discriminate].
  destruct (listHabits _ filed []) as [result|]; [|discriminate].
  intros Hget. cbv zeta in Hget.
  assert (Hg : global
               = map (fun t => orElse
                        (own (fold_left
                                (fun obj r => assign (tally_type r) r obj)
                                (globalRows db) []) t) (noTally t))
                     globalTypes) by congruence.
  clear Hget. subst global.
  assert (E : map (fun t => orElse
                     (own (fold_left (fun obj r => assign (tally_type r) r obj)
                                     (globalRows db) []) t) (noTally t))
                  globalTypes
              = map (fun t => display t (earnedDates db t None)) globalTypes).
  { apply map_ext. intros t. apply global_entry. }
  rewrite E. split; [reflexivity|].
  intros r Hr. cbv zeta. apply in_map_iff in Hr as (t & <- & _).
  cbn [display tally_type tally_count tally_latestDate] in *.
  split; [reflexivity|]. apply maxText_greatest.
Qed.

Lemma getAchievements_global_witness :
  exists global perHabit,
    getAchievements (set_achievements weekDb weekAwards)
    = Some (global, perHabit)
    /\ nth 0 global (noTally EmptyString)
       = mkTally "perfect_day" 1 (Some "2024-01-07").
Proof.
  destruct (getAchievements (set_achievements weekDb weekAwards))
    as [[global perHabit]|] eqn:Hget;
    [|vm_compute in Hget; discriminate Hget].
  exists global, perHabit. split; [reflexivity|].
  destruct (getAchievements_global _ _ _ Hget) as [-> _]. reflexivity.
Defined.

(** Reading a tally from the per-habit object: by habit, then by type. *)
Lemma fileRows_read (rows : list HabitTally)
    (obj0 obj : list (string * (string * list (string * Tally))))
    (habitId t : string) :
  fileRows rows obj0 = Some obj ->
  match own obj habitId with Some e => own (snd e) t | None => None end
  = match find (fun r => (ht_habit_id r =s? habitId)
                         && (tally_type (ht_tally r) =s? t)) (rev rows) with
    | Some r => Some (ht_tally r)
    | None => match own obj0 habitId with
              | Some e => own (snd e) t
              | None => None
              end
    end.
Proof.
  revert obj0. induction rows as [|r rows IH]; intros obj0.
  - intros [= <-]. reflexivity.
  - cbn [fileRows]. destruct (existsb _ protoNames); [discriminate|].
    intros Hrun. rewrite (IH _ Hrun). cbn [rev]. rewrite find_over_app.
    destruct (find _ (rev rows)); [reflexivity|]. cbn [find].
    rewrite own_assign.
    destruct (ht_habit_id r =s? habitId) eqn:Eh; cbn [andb snd].
    + apply String.eqb_eq in Eh. subst habitId. rewrite own_assign.
      destruct (tally_type (ht_tally r) =s? t); [reflexivity|].
      now destruct (own obj0 (ht_habit_id r)).
    + reflexivity.
Qed.

Lemma fileRows_throws (rows : list HabitTally)
    (obj0 : list (string * (string * list (string * Tally)))) :
  fileRows rows obj0 = None
  <-> exists r, In r rows /\ In (ht_habit_id r) protoNames.
Proof.
  revert obj0. induction rows as [|r rows IH]; intros obj0; cbn [fileRows].
  - split; [discriminate | intros (? & [] & _)].
  - destruct (existsb (fun k => k =s? ht_habit_id r) protoNames) eqn:E.
    + split; [intros _ | reflexivity].
      apply existsb_exists in E as (k & Hk & Ek).
      apply String.eqb_eq in Ek. subst k. exists r. split; [now left | exact Hk].
    + rewrite IH. split.
      * intros (r' & Hr' & Hp). exists r'. split; [now right | exact Hp].
      * intros (r' & [<-|Hr'] & Hp); [|now exists r'].
        exfalso. assert (Et : existsb (fun k => k =s? ht_habit_id r) protoNames
                              = true).
        { apply existsb_exists. exists (ht_habit_id r).
          split; [exact Hp | apply String.eqb_refl]. }
        congruence.
Qed.

Lemma listHabits_result (hs : list Habit)
    (perHabit : list (string * (string * list (string * Tally))))
    (res0 res : list (string * (string * list Tally))) :
  listHabits hs perHabit res0 = Some res ->
  res = res0
        ++ map (fun h =>
                  (id h,
                   (name h,
                    map (fun t =>
                           orElse match own perHabit (id h) with
                                  | Some e => own (snd e) t
                                  | None => None
                                  end (noTally t)) perHabitTypes))) hs.
Proof.
  revert res0. induction hs as [|h hs IH]; intros res0; cbn [listHabits].
  - intros [= <-]. cbn [map]. now rewrite app_nil_r.
  - destruct (existsb _ protoNames); [discriminate|].
    intros Hrun. rewrite (IH _ Hrun). unfold assign. rewrite <- app_assoc.
    cbn [app map]. do 4 f_equal.
    apply map_ext. intros t. now destruct (own perHabit (id h)).
Qed.

Lemma listHabits_throws (hs : list Habit)
    (perHabit : list (string * (string * list (string * Tally))))
    (res0 : list (string * (string * list Tally))) :
  listHabits hs perHabit res0 = None
  <-> exists h, In h hs /\ In (id h) protoNames.
Proof.
  revert res0. induction hs as [|h hs IH]; intros res0; cbn [listHabits].
  - split; [discriminate | intros (? & [] & _)].
  - destruct (existsb (fun k => k =s? id h) protoNames) eqn:E.
    + split; [intros _ | reflexivity].
      apply existsb_exists in E as (k & Hk & Ek).
      apply String.eqb_eq in Ek. subst k. exists h. split; [now left | exact Hk].
    + rewrite IH. split.
      * intros (h' & Hh' & Hp). exists h'. split; [now right | exact Hp].
      * intros (h' & [<-|Hh'] & Hp); [|now exists h'].
        exfalso. assert (Et : existsb (fun k => k =s? id h) protoNames = true).
        { apply existsb_exists. exists (id h).
          split; [exact Hp | apply String.eqb_refl]. }
        congruence.
Qed.

(** The rows of the join and of its groups. *)
Lemma joined_group (db : Db) (habitId t : string) (h0 : Habit) :
  habitRow db habitId = Some h0 ->
  map fst
    (filter (fun ah : Achievement * Habit =>
               (type (fst ah) =s? t) && (id (snd ah) =s? habitId))
       (flat_map (fun a => match habit_id a with
                           | Some x => match habitRow db x with
                                       | Some h => [(a, h)]
                                       | None => []
                                       end
                           | None => []
                           end) (achievements db)))
  = filter (fun a => (type a =s? t) && habitIs habitId a) (achievements db).
Proof.
  intros Hrow. induction (achievements db) as [|a l IH]; [reflexivity|].
  cbn [flat_map]. rewrite filter_app, map_app, IH. cbn [filter].
  destruct (habit_id a) as [x|] eqn:Ea.
  - assert (Eh : habitIs habitId a = (x =s? habitId)).
    { unfold habitIs, sql_eq, sql_where. rewrite Ea.
      now destruct (x =s? habitId). }
    rewrite Eh. destruct (habitRow db x) as [h|] eqn:Ex.
    + assert (Eid : id h = x).
      { unfold habitRow in Ex. apply find_some in Ex as [_ E].
        now apply String.eqb_eq in E. }
      cbn [filter fst snd]. rewrite Eid.
      destruct ((type a =s? t) && (x =s? habitId)); reflexivity.
    + destruct (x =s? habitId) eqn:E.
      * apply String.eqb_eq in E. subst x. congruence.
      * now rewrite andb_false_r.
  - assert (Eh : habitIs habitId a = false)
      by (unfold habitIs, sql_eq, sql_where; now rewrite Ea).
    now rewrite Eh, andb_false_r.
Qed.

Lemma find_keyed_pair (A : Type) (f : string * string -> A)
    (kt kh : A -> string) (keys : list (string * string)) (t habitId : string) :
  (forall x, kt (f x) = fst x) -> (forall x, kh (f x) = snd x) ->
  find (fun r => (kh r =s? habitId) && (kt r =s? t)) (map f keys)
  = if in_dec pair_eq_dec (t, habitId) keys then Some (f (t, habitId))
    else None.
Proof.
  intros Ht Hh. induction keys as [|[t' h'] keys IH]; [reflexivity|].
  cbn [map find]. rewrite Ht, Hh, IH. cbn [fst snd].
  destruct (h' =s? habitId) eqn:Eh, (t' =s? t) eqn:Et; cbn [andb].
  - apply String.eqb_eq in Eh, Et. subst.
    destruct (in_dec pair_eq_dec (t, habitId) ((t, habitId) :: keys))
      as [_|Hn]; [reflexivity | destruct Hn; now left].
  - apply String.eqb_neq in Et.
    destruct (in_dec pair_eq_dec (t, habitId) keys) as [Hin|Hn],
      (in_dec pair_eq_dec (t, habitId) ((t', h') :: keys)) as [Hin'|Hn'];
      try reflexivity.
    + destruct Hn'. now right.
    + destruct Hin' as [E|Hin']; [congruence | now destruct Hn].
  - apply String.eqb_neq in Eh.
    destruct (in_dec pair_eq_dec (t, habitId) keys) as [Hin|Hn],
      (in_dec pair_eq_dec (t, habitId) ((t', h') :: keys)) as [Hin'|Hn'];
      try reflexivity.
    + destruct Hn'. now right.
    + destruct Hin' as [E|Hin']; [congruence | now destruct Hn].
  - apply String.eqb_neq in Eh.
    destruct (in_dec pair_eq_dec (t, habitId) keys) as [Hin|Hn],
      (in_dec pair_eq_dec (t, habitId) ((t', h') :: keys)) as [Hin'|Hn'];
      try reflexivity.
    + destruct Hn'. now right.
    + destruct Hin' as [E|Hin']; [congruence | now destruct Hn].
Qed.

Lemma in_dec_pair_rev (k : string * string) (keys : list (string * string))
    (A : Type) (a b : A) :
  (if in_dec pair_eq_dec k (rev keys) then a else b)
  = if in_dec pair_eq_dec k keys then a else b.
Proof.
  destruct (in_dec pair_eq_dec k (rev keys)) as [H|H],
    (in_dec pair_eq_dec k keys) as [H'|H']; try reflexivity.
  - destruct H'. now apply in_rev.
  - destruct H. now apply in_rev in H'.
Qed.

(** What is on display for a habit and a type. *)
Lemma habit_entry (db : Db)
    (filed : list (string * (string * list (string * Tally))))
    (h0 : Habit) (habitId t : string) :
  fileRows (perHabitRows db) [] = Some filed ->
  habitRow db habitId = Some h0 ->
  orElse match own filed habitId with
         | Some e => own (snd e) t
         | None => None
         end (noTally t)
  = display t (earnedDates db t (Some habitId)).
Proof.
  intros Hfile Hrow. rewrite (fileRows_read _ _ _ habitId t Hfile).
  change (own [] habitId) with (@None (string * list (string * Tally))).
  unfold perHabitRows.
  set (joined := flat_map _ (achievements db)).
  rewrite <- map_rev.
  rewrite (find_keyed_pair _ _ (fun r => tally_type (ht_tally r)) ht_habit_id)
    by reflexivity.
  rewrite in_dec_pair_rev.
  assert (Egroup :
            map earned_date
              (map fst (filter (fun ah : Achievement * Habit =>
                                  (type (fst ah) =s? t)
                                  && (id (snd ah) =s? habitId)) joined))
            = earnedDates db t (Some habitId)).
  { unfold joined. now rewrite (joined_group db habitId t h0 Hrow). }
  destruct (in_dec pair_eq_dec (t, habitId) _) as [Hin|Hn];
    cbn [orElse ht_tally fst snd].
  - now rewrite tallyOf_display, Egroup.
  - rewrite <- Egroup.
    assert (E : filter (fun ah : Achievement * Habit =>
                          (type (fst ah) =s? t) && (id (snd ah) =s? habitId))
                       joined = []).
    { apply filter_nothing. intros ah Hah.
      destruct ((type (fst ah) =s? t) && (id (snd ah) =s? habitId)) eqn:E;
        [|reflexivity].
      apply andb_prop in E as [E1 E2]. apply String.eqb_eq in E1, E2.
      destruct Hn. apply nodup_In. apply in_map_iff. exists ah.
      split; [now rewrite E1, E2 | exact Hah]. }
    now rewrite E.
Qed.

Lemma find_mapped (A B : Type) (f : A -> B) (p : B -> bool) (l : list A) :
  find p (map f l) = option_map f (find (fun x => p (f x)) l).
Proof.
  induction l as [|x l IH]; [reflexivity|].
  cbn [map find]. now destruct (p (f x)).
Qed.

(** The per-habit object, read by key: the latest habit listed under
    the key, with its name and its tallies. *)
Lemma getAchievements_read (db : Db) (global : list Tally)
    (perHabit : string -> option (string * list Tally)) (key : string) :
  getAchievements db = Some (global, perHabit) ->
  perHabit key
  = option_map
      (fun h => (name h,
                 map (fun t => display t (earnedDates db t (Some (id h))))
                     perHabitTypes))
      (find (fun h => id h =s? key)
            (rev (order_by sort_order
                    (filter (fun h => negb (deleted h)) (habits db))))).
Proof.
  unfold getAchievements.
  destruct (fileRows (perHabitRows db) []) as [filed|] eqn:Hfile;
    [|discriminate].
  destruct (listHabits _ filed []) as [result|] eqn:Hlist; [|discriminate].
  intros Hget. assert (E : perHabit = own result) by congruence.
  subst perHabit. clear Hget.
  rewrite (listHabits_result _ _ _ _ Hlist). cbn [app].
  unfold own. rewrite <- map_rev, find_mapped. cbn [fst].
  destruct (find _ (rev _)) as [h|] eqn:Hfind; [|reflexivity].
  cbn [option_map snd]. do 2 f_equal.
  apply map_ext. intros t.
  apply find_some in Hfind as [Hh _].
  apply in_rev, order_by_In, filter_In in Hh as [Hh _].
  destruct (habitRow db (id h)) as [h0|] eqn:Hrow.
  - now apply (habit_entry db filed h0).
  - exfalso. unfold habitRow in Hrow.
    apply (find_none _ _ Hrow) in Hh. now rewrite String.eqb_refl in Hh.
Qed.

(** X23 (getAchievements, the per-habit part): the per-habit object
    that [getAchievements] returns, read by key, has under the id of
    each habit that is not deleted the name of the habit and the four
    per-habit types in their fixed order, each with the number of rows
    of that type and habit in the table and the greatest of their
    dates; it has nothing under any other key, so the rows of deleted
    habits are not on display.  Ids are the primary key of the habits.
    Nothing is said of the order in which the object lists its keys. *)
Theorem getAchievements_perHabit (db : Db) (global : list Tally)
    (perHabit : string -> option (string * list Tally)) :
  NoDup (map id (habits db)) ->
  getAchievements db = Some (global, perHabit) ->
  (forall h, In h (habits db) -> deleted h = false ->
     perHabit (id h)
     = Some (name h,
             map (fun t => display t (earnedDates db t (Some (id h))))
                 perHabitTypes))
  /\ (forall key,
        (forall h, In h (habits db) -> deleted h = false -> id h <> key) ->
        perHabit key = None).
Proof.
  intros Hnd Hget. split.
  - intros h Hh Hlive. rewrite (getAchievements_read _ _ _ (id h) Hget).
    rewrite find_by_id; [reflexivity| |].
    + apply (Permutation_NoDup (l := map id (filter (fun h => negb (deleted h))
                                                 (habits db)))).
      * apply Permutation_map. rewrite <- Permutation_rev.
        symmetry. apply order_by_Permutation.
      * now apply NoDup_map_filter.
    + apply -> in_rev. apply order_by_In, filter_In.
      split; [exact Hh | now rewrite Hlive].
  - intros key Hkey. rewrite (getAchievements_read _ _ _ key Hget).
    destruct (find _ (rev _)) as [h|] eqn:Hfind; [|reflexivity].
    exfalso. apply find_some in Hfind as [Hh E].
    apply in_rev, order_by_In, filter_In in Hh as [Hh Hlive].
    apply String.eqb_eq in E. apply (Hkey h Hh); [|exact E].
    now destruct (deleted h).
Qed.

Lemma getAchievements_perHabit_witness :
  exists global perHabit,
    getAchievements (set_achievements weekDb weekAwards)
    = Some (global, perHabit)
    /\ perHabit "B"
       = Some ("Read", [mkTally "streak_7" 1 (Some "2024-01-07");
                        noTally "streak_14"; noTally "streak_21";
                        noTally "perfect_month"])
    /\ perHabit "C" = None.
Proof.
  destruct (getAchievements (set_achievements weekDb weekAwards))
    as [[global perHabit]|] eqn:Hget;
    [|vm_compute in Hget; discriminate Hget].
  exists global, perHabit. split; [reflexivity|].
  assert (Hnd : NoDup (map id (habits (set_achievements weekDb weekAwards)))).
  { repeat constructor; simpl; intuition discriminate. }
  destruct (getAchievements_perHabit _ _ _ Hnd Hget) as [Hshown Hnone].
  split.
  - apply (Hshown habitB); [simpl; tauto | reflexivity].
  - apply Hnone. intros h [<-|[<-|[]]] _; discriminate.
Defined.

(** X24 (getAchievements, when it throws): [getAchievements] throws
    exactly when a habit whose id is a name of [Object.prototype] is
    not deleted or has an achievement in the table; in every other
    store it returns. *)
Theorem getAchievements_throws (db : Db) :
  getAchievements db = None
  <-> exists h,
        In h (habits db) /\ In (id h) protoNames
        /\ (deleted h = false
            \/ exists a, In a (achievements db) /\ habit_id a = Some (id h)).
Proof.
  unfold getAchievements.
  destruct (fileRows (perHabitRows db) []) as [filed|] eqn:Hfile.
  - assert (Hnone : ~ exists r, In r (perHabitRows db)
                                /\ In (ht_habit_id r) protoNames).
    { intros H. apply (fileRows_throws (perHabitRows db) []) in H.
      congruence. }
    destruct (listHabits _ filed []) as [result|] eqn:Hlist.
    + split; [discriminate|]. intros (h & Hh & Hp & [Hlive|(a & Ha & Eh)]).
      * exfalso.
        assert (Hthrow : listHabits
                           (order_by sort_order
                              (filter (fun h => negb (deleted h)) (habits db)))
                           filed [] = None).
        { apply listHabits_throws. exists h. split; [|exact Hp].
          apply order_by_In, filter_In. split; [exact Hh|].
          now rewrite Hlive. }
        congruence.
      * exfalso. apply Hnone.
        destruct (habitRow db (id h)) as [h'|] eqn:Hrow.
        2:{ unfold habitRow in Hrow. apply (find_none _ _ Hrow) in Hh.
            now rewrite String.eqb_refl in Hh. }
        assert (Eid : id h' = id h).
        { unfold habitRow in Hrow. apply find_some in Hrow as [_ E].
          now apply String.eqb_eq in E. }
        unfold perHabitRows.
        set (joined := flat_map _ (achievements db)).
        assert (Hj : In (a, h') joined).
        { unfold joined. apply in_flat_map. exists a. split; [exact Ha|].
          rewrite Eh, Hrow. now left. }
        eexists. split.
        -- apply in_map. apply nodup_In. apply in_map_iff.
           exists (a, h'). split; [reflexivity | exact Hj].
        -- cbn [ht_habit_id snd fst]. now rewrite Eid.
    + split; [intros _ | reflexivity].
      apply listHabits_throws in Hlist as (h & Hh & Hp).
      apply order_by_In, filter_In in Hh as [Hh Hlive].
      exists h. split; [exact Hh|]. split; [exact Hp|]. left.
      now destruct (deleted h).
  - split; [intros _ | reflexivity].
    apply fileRows_throws in Hfile as (r & Hr & Hp).
    unfold perHabitRows in Hr. apply in_map_iff in Hr as ([t x] & <- & Hkey).
    apply nodup_In, in_map_iff in Hkey as ([a h] & E & Hj).
    apply in_flat_map in Hj as (a' & Ha' & Hin).
    destruct (habit_id a') as [y|] eqn:Ey; [|destruct Hin].
    destruct (habitRow db y) as [h'|] eqn:Hrow; [|destruct Hin].
    destruct Hin as [E'|[]]. injection E' as -> ->.
    cbn [fst snd] in E. injection E as _ <-. cbn [ht_habit_id snd] in Hp.
    unfold habitRow in Hrow. apply find_some in Hrow as [Hh Eid].
    apply String.eqb_eq in Eid. subst y.
    exists h. split; [exact Hh|]. split; [exact Hp|]. right.
    exists a. split; [exact Ha' | exact Ey].
Qed.

(* ----------------------------------------------------------------- *)
(** ** Migration *)

Lemma todo_id_taken (l : list Todo) (todoId : string) :
  existsb (fun t => todo_id t =s? todoId) l = true
  <-> In todoId (map todo_id l).
Proof.
  rewrite existsb_exists, in_map_iff. split.
  - intros (t & Hin & E). apply String.eqb_eq in E. now exists t.
  - intros (t & E & Hin). exists t. split; [exact Hin|].
    now apply String.eqb_eq.
Qed.

Lemma insertRow_ignored (r : MigrationRow) (store : Db * list Todo) :
  ignored r store -> insertRow r store = store.
Proof.
  destruct store as [db todos]. destruct r as [i h|date habitId|listName t];
    cbn [ignored insertRow fst snd]; intros H.
  - apply id_taken in H. now rewrite H.
  - apply checkCompletion_In in H. unfold toggleCompletion. now rewrite H.
  - destruct H as [H|H].
    + now rewrite H.
    + apply todo_id_taken in H. rewrite H. now rewrite orb_true_r.
Qed.

Lemma insertRow_settles (r : MigrationRow) (store : Db * list Todo) :
  ignored r (insertRow r store).
Proof.
  destruct store as [db todos]. destruct r as [i h|date habitId|listName t];
    cbn [ignored insertRow fst snd].
  - destruct (existsb (fun x => id x =s? old_id h) (habits db)) eqn:E.
    + now apply id_taken.
    + cbn [habits set_habits]. rewrite map_app, in_app_iff. right. now left.
  - apply checkCompletion_In. unfold toggleCompletion.
    destruct (checkCompletion db date habitId) eqn:E; [exact E|].
    unfold checkCompletion. cbn [completions set_completions].
    rewrite existsb_app. cbn [existsb fst snd].
    now rewrite !String.eqb_refl, orb_true_r.
  - destruct (listAllowed listName); [|now left]. right. cbn [negb orb].
    destruct (existsb (fun x => todo_id x =s? otodo_id t) todos) eqn:E.
    + now apply todo_id_taken.
    + rewrite map_app, in_app_iff. right. now left.
Qed.

Lemma insertRow_keeps (r r' : MigrationRow) (store : Db * list Todo) :
  ignored r store -> ignored r (insertRow r' store).
Proof.
  destruct store as [db todos].
  destruct r as [i h|date habitId|listName t],
    r' as [i' h'|date' habitId'|listName' t'];
    cbn [ignored insertRow fst snd]; intros H; try exact H.
  - destruct (existsb _ (habits db)); [exact H|].
    cbn [habits set_habits]. rewrite map_app, in_app_iff. now left.
  - unfold toggleCompletion. destruct (checkCompletion db date' habitId');
      exact H.
  - destruct (existsb _ (habits db)); exact H.
  - unfold toggleCompletion.
    destruct (checkCompletion db date' habitId'); [exact H|].
    cbn [completions set_completions]. apply in_app_iff. now left.
  - destruct H as [H|H]; [now left | right].
    destruct (negb (listAllowed listName') || existsb _ todos); [exact H|].
    rewrite map_app, in_app_iff. now left.
Qed.

(** X25 (migration): running the migration again changes nothing: what
    it would insert the second time is already there, or is refused as
    it was the first time. *)
Theorem migrate_again (data : Data) (store : Db * list Todo) :
  migrate data (migrate data store) = migrate data store.
Proof.
  unfold migrate. generalize (migrationRows data). intros rows.
  assert (Hdone : forall rs s,
             (forall r, In r rs -> ignored r s) ->
             fold_left (fun s r => insertRow r s) rs s = s).
  { induction rs as [|r rs IH]; intros s H; [reflexivity|].
    cbn [fold_left]. rewrite insertRow_ignored by (apply H; now left).
    apply IH. intros r' Hr'. apply H. now right. }
  apply Hdone. revert store.
  induction rows as [|r rows IH]; intros store r0 Hr0; [destruct Hr0|].
  cbn [fold_left]. destruct Hr0 as [<-|Hr0]; [|now apply IH].
  generalize (insertRow_settles r store). generalize (insertRow r store).
  clear. induction rows as [|r' rows IH]; intros s H; [exact H|].
  cbn [fold_left]. apply IH. now apply insertRow_keeps.
Qed.

Lemma order_by_ordered (A : Type) (key : A -> Z) (l : list A) :
  StronglySorted (fun a b => key a <= key b) l -> order_by key l = l.
Proof.
  induction 1 as [|a l Hs IH Ha]; [reflexivity|].
  cbn [order_by fold_right]. fold (order_by key l). rewrite IH.
  destruct l as [|b l]; [reflexivity|]. cbn [insert_by].
  rewrite Forall_forall in Ha. specialize (Ha b (or_introl eq_refl)).
  destruct (Z.leb_spec (key a) (key b)); [reflexivity | lia].
Qed.

Lemma migrate_habit_rows (hs : list OldHabit) (start : nat) (db : Db)
    (todos : list Todo) :
  NoDup (map old_id hs) ->
  (forall h, In h hs -> ~ In (old_id h) (map id (habits db))) ->
  fold_left (fun s r => insertRow r s)
    (map (fun ih => HabitRow (Z.of_nat (fst ih)) (snd ih))
         (combine (seq start (List.length hs)) hs)) (db, todos)
  = (set_habits db
       (habits db
        ++ map migratedHabit (combine (seq start (List.length hs)) hs)),
     todos).
Proof.
  revert start db. induction hs as [|h hs IH]; intros start db Hnd Hfresh.
  - cbn [List.length seq combine map fold_left]. rewrite app_nil_r.
    now destruct db.
  - inversion Hnd as [|? ? Hh Hnd']; subst.
    cbn [List.length seq combine map fold_left insertRow fst snd].
    assert (E : existsb (fun x => id x =s? old_id h) (habits db) = false).
    { destruct (existsb _ (habits db)) eqn:E; [|reflexivity].
      apply id_taken in E. now destruct (Hfresh h (or_introl eq_refl)). }
    rewrite E. rewrite IH; [|exact Hnd'|].
    + cbn [habits set_habits completions achievements].
      unfold set_habits. cbn [completions achievements].
      now rewrite <- app_assoc.
    + intros h' Hh'. cbn [habits set_habits]. rewrite map_app, in_app_iff.
      intros [Hin|[E'|[]]].
      * now apply (Hfresh h' (or_intror Hh')).
      * cbn [id] in E'. apply Hh. rewrite E'. now apply in_map.
Qed.

Lemma insertRow_completion_rows (rows : list (string * string)) (db : Db)
    (todos : list Todo) :
  exists db',
    fold_left (fun s r => insertRow r s)
      (map (fun c => CompletionRow (fst c) (snd c)) rows) (db, todos)
    = (db', todos)
    /\ habits db' = habits db /\ achievements db' = achievements db
    /\ forall c, In c (completions db') <-> In c (completions db) \/ In c rows.
Proof.
  revert db. induction rows as [|[d h] rows IH]; intros db.
  - exists db. cbn. repeat split; tauto.
  - cbn [map fold_left insertRow fst snd].
    destruct (IH (toggleCompletion d h true db)) as (db' & -> & Hh & Ha & Hc).
    exists db'. split; [reflexivity|].
    unfold toggleCompletion in *.
    destruct (checkCompletion db d h) eqn:E.
    + repeat split; try assumption.
      * intros H. apply Hc in H. cbn [In]. tauto.
      * intros [H|[<-|H]]; apply Hc; auto.
        left. now apply checkCompletion_In.
    + cbn [habits achievements completions set_completions] in *.
      repeat split; try assumption.
      * intros H. apply Hc in H. rewrite in_app_iff in H. cbn [In] in *.
        tauto.
      * intros H. apply Hc. rewrite in_app_iff. cbn [In] in *. tauto.
Qed.

Lemma insertRow_todo_rows (rows : list MigrationRow) (db : Db)
    (todos : list Todo) :
  (forall r, In r rows -> exists l t, r = TodoRow l t) ->
  fst (fold_left (fun s r => insertRow r s) rows (db, todos)) = db.
Proof.
  revert todos. induction rows as [|r rows IH]; intros todos H;
    [reflexivity|].
  destruct (H r (or_introl eq_refl)) as (l & t & ->).
  cbn [fold_left insertRow]. apply IH. intros r Hr. apply H. now right.
Qed.

Lemma migratedHabit_sorted (hs : list OldHabit) (start : nat) :
  StronglySorted (fun a b => sort_order a <= sort_order b)
    (map migratedHabit (combine (seq start (List.length hs)) hs))
  /\ Forall (fun a => Z.of_nat start <= sort_order a)
       (map migratedHabit (combine (seq start (List.length hs)) hs)).
Proof.
  revert start. induction hs as [|h hs IH]; intros start;
    cbn [List.length seq combine map]; [split; constructor|].
  destruct (IH (S start)) as [Hs Hall]. split.
  - constructor; [exact Hs|].
    rewrite Forall_forall in *. intros a Ha. specialize (Hall a Ha).
    cbn [migratedHabit sort_order fst]. lia.
  - constructor; [cbn [migratedHabit sort_order fst]; lia|].
    rewrite Forall_forall in *. intros a Ha. specialize (Hall a Ha). lia.
Qed.

Lemma map_snd_combine (A B : Type) (f : A -> B) (l : list A) (start : nat) :
  map (fun ih : nat * A => f (snd ih)) (combine (seq start (List.length l)) l)
  = map f l.
Proof.
  revert start. induction l as [|x l IH]; intros start; [reflexivity|].
  cbn [List.length seq combine map snd]. now rewrite IH.
Qed.

Lemma completion_rows_flat (comps : list (string * list string)) :
  flat_map (fun e => map (CompletionRow (fst e)) (snd e)) comps
  = map (fun c => CompletionRow (fst c) (snd c))
        (flat_map (fun e => map (pair (fst e)) (snd e)) comps).
Proof.
  induction comps as [|e comps IH]; [reflexivity|].
  cbn [flat_map]. rewrite map_app, IH, map_map. reflexivity.
Qed.

(** X26 (migration into an empty store): when the habits of the file
    have ids that differ, the store the migration fills from nothing
    lists, through [getHabits], the habits of the file in their order
    and with their fields, an empty deletion date read as none; it
    holds a completion exactly for the dates and habits the file
    marks, and no achievement. *)
Theorem migrate_presents_data (data : Data) (db : Db) (todos : list Todo) :
  NoDup (map old_id (data_habits data)) ->
  migrate data (mkDb [] [] [], []) = (db, todos) ->
  getHabits db
  = map (fun h => mkHabitInfo (old_id h) (old_name h) (old_createdDate h)
                              (old_deleted h) (orNull (old_deletedDate h)))
        (data_habits data)
  /\ (forall date habitId,
         checkCompletion db date habitId = true
         <-> exists marks, In (date, marks) (data_completions data)
                           /\ In habitId marks)
  /\ achievements db = [].
Proof.
  intros Hnd Hrun. unfold migrate, migrationRows in Hrun.
  rewrite !fold_left_app in Hrun.
  rewrite (migrate_habit_rows _ 0 (mkDb [] [] []) [] Hnd) in Hrun
    by (intros h _ []).
  rewrite completion_rows_flat in Hrun.
  destruct (insertRow_completion_rows
              (flat_map (fun e => map (pair (fst e)) (snd e))
                        (data_completions data))
              (set_habits (mkDb [] [] [])
                 (habits (mkDb [] [] [])
                  ++ map migratedHabit
                       (combine (seq 0 (List.length (data_habits data)))
                                (data_habits data)))) [])
    as (db' & E & Hh & Ha & Hc).
  rewrite E in Hrun.
  assert (Edb : db = db').
  { rewrite <- (insertRow_todo_rows
                  match data_todos data with
                  | TodoArray items => map (TodoRow "work") items
                  | TodoLists lists =>
                      flat_map (fun e => map (TodoRow (fst e)) (snd e)) lists
                  end db' []).
    - now rewrite Hrun.
    - intros r Hr. destruct (data_todos data) as [items|lists].
      + apply in_map_iff in Hr as (t & <- & _). now exists "work", t.
      + apply in_flat_map in Hr as (e & _ & Hr).
        apply in_map_iff in Hr as (t & <- & _). now exists (fst e), t. }
  subst db'. clear Hrun E. split; [|split].
  - unfold getHabits. rewrite Hh. cbn [habits set_habits app].
    rewrite order_by_ordered by apply migratedHabit_sorted.
    rewrite map_map.
    apply (map_snd_combine _ _
             (fun h => mkHabitInfo (old_id h) (old_name h) (old_createdDate h)
                                   (old_deleted h)
                                   (orNull (old_deletedDate h)))
             (data_habits data) 0).
  - intros date habitId. rewrite checkCompletion_In, Hc.
    cbn [completions set_habits]. rewrite in_flat_map. split.
    + intros [[]|(e & He & Hin)]. apply in_map_iff in Hin as (h & Eh & Hin).
      injection Eh as <- <-. exists (snd e). split; [now destruct e | exact Hin].
    + intros (marks & Hm & Hin). right. exists (date, marks).
      split; [exact Hm|]. cbn [fst snd]. now apply in_map.
  - now rewrite Ha.
Qed.

Lemma migrate_presents_data_witness :
  exists db todos,
    migrate (mkData [mkOldHabit "b" "Read" "2024-01-02" false None;
                     mkOldHabit "a" "Run" "2024-01-01" true
                                (Some "2024-01-09")]
                    [("2024-01-03", ["a"; "b"])] (TodoArray []))
            (mkDb [] [] [], []) = (db, todos)
    /\ map info_id (getHabits db) = ["b"; "a"]
    /\ checkCompletion db "2024-01-03" "a" = true.
Proof.
  eexists. eexists. split; [reflexivity|].
  destruct (migrate_presents_data
              (mkData [mkOldHabit "b" "Read" "2024-01-02" false None;
                       mkOldHabit "a" "Run" "2024-01-01" true
                                  (Some "2024-01-09")]
                      [("2024-01-03", ["a"; "b"])] (TodoArray []))
              _ _
              ltac:(repeat constructor; simpl; intuition discriminate)
              eq_refl) as (Hh & Hc & _).
  split; [now rewrite Hh|].
  apply Hc. exists ["a"; "b"]. simpl. tauto.
Defined.

(* ----------------------------------------------------------------- *)
(** ** Completing today and the streak *)

Lemma toggleCompletion_on (D H : string) (db : Db) (d x : string) :
  checkCompletion (toggleCompletion D H true db) d x
  = checkCompletion db d x || ((d =s? D) && (x =s? H)).
Proof.
  unfold toggleCompletion. destruct (checkCompletion db D H) eqn:E.
  - destruct ((d =s? D) && (x =s? H)) eqn:E'; [|now rewrite orb_false_r].
    apply andb_prop in E' as [E1 E2]. apply String.eqb_eq in E1, E2. subst.
    now rewrite E.
  - unfold checkCompletion. cbn [completions set_completions].
    rewrite existsb_app. cbn [existsb fst snd]. rewrite orb_false_r.
    now rewrite (String.eqb_sym D d), (String.eqb_sym H x).
Qed.

Lemma toggleCompletion_on_wf (D H : string) (c : Day) (db : Db) :
  wfCompletions db -> parseISO D = Some c ->
  wfCompletions (toggleCompletion D H true db).
Proof.
  intros Hwf Hp d h Hin. apply checkCompletion_In in Hin.
  rewrite toggleCompletion_on in Hin. apply orb_prop in Hin as [Hin|Hin].
  - apply checkCompletion_In in Hin. now apply (Hwf d h).
  - apply andb_prop in Hin as [E _]. apply String.eqb_eq in E. subst d.
    congruence.
Qed.

(** The days behind a day are other days: none of them is written as
    the day itself. *)
Lemma backFrom_earlier (s : string) (c : Day) (j : nat) (d : string) :
  parseISO s = Some c -> backFrom (S j) s = Some d -> d <> s.
Proof.
  intros Hp Hd.
  enough (H : forall c', parseISO d = Some c' -> dayKey c' < dayKey c).
  { intros ->. specialize (H c Hp). lia. }
  revert d Hd. induction j as [|j IH]; intros d Hd c' Hc'.
  - cbn [backFrom] in Hd.
    destruct (shiftDateStr s (-1)) as [s'|] eqn:Es; [|discriminate].
    injection Hd as ->. now apply (shiftDateStr_back_key s d c c').
  - rewrite backFrom_step in Hd.
    destruct (backFrom (S j) s) as [dj|] eqn:Ej; [|discriminate].
    destruct (parseISO dj) as [cj|] eqn:Pj.
    + pose proof (IH dj eq_refl cj Pj).
      pose proof (shiftDateStr_back_key dj d cj c' Pj Hd Hc'). lia.
    + unfold shiftDateStr in Hd. now rewrite Pj in Hd.
Qed.

Lemma completedRun_unique (db : Db) (habitId day : string) (k k' : nat)
    (d d' : string) :
  completedRun db habitId day k -> backFrom k day = Some d ->
  checkCompletion db d habitId = false ->
  completedRun db habitId day k' -> backFrom k' day = Some d' ->
  checkCompletion db d' habitId = false ->
  k = k'.
Proof.
  intros Hk Hd Hstop Hk' Hd' Hstop'.
  destruct (Nat.lt_trichotomy k k') as [Hlt|[E|Hgt]]; [|exact E|].
  - destruct (Hk' k Hlt) as (x & Hx & Hdone). congruence.
  - destruct (Hk k' Hgt) as (x & Hx & Hdone). congruence.
Qed.

(** Counting back from today once it is completed gives one more than
    counting back from yesterday did. *)
Lemma countBack_completed_today (today yesterday : string) (c : Day)
    (db : Db) (habitId : string) (n : Z) :
  wfCompletions db -> parseISO today = Some c ->
  shiftDateStr today (-1) = Some yesterday ->
  countBack (walkFuel db) db habitId yesterday 0 = Some n ->
  countBack (walkFuel (toggleCompletion today habitId true db))
            (toggleCompletion today habitId true db) habitId today 0
  = Some (n + 1).
Proof.
  intros Hwf Hp Hy Hn.
  set (db' := toggleCompletion today habitId true db).
  assert (Hwf' : wfCompletions db')
    by now apply (toggleCompletion_on_wf today habitId c).
  destruct (countBack_returns db' habitId today 0 Hwf') as (n' & Hn').
  rewrite Hn'. f_equal.
  apply countBack_run in Hn as (k & -> & Hrun & d & Hd & Hstop).
  apply countBack_run in Hn' as (k' & -> & Hrun' & d' & Hd' & Hstop').
  assert (Hsame : forall j x, backFrom j yesterday = Some x ->
                    checkCompletion db' x habitId
                    = checkCompletion db x habitId).
  { intros j x Hx. unfold db'. rewrite toggleCompletion_on.
    assert (Hne : x <> today).
    { apply (backFrom_earlier today c j); [exact Hp|].
      cbn [backFrom]. now rewrite Hy. }
    apply String.eqb_neq in Hne. rewrite Hne. now rewrite orb_false_r. }
  destruct k' as [|k'].
  - cbn [backFrom] in Hd'. injection Hd' as <-.
    unfold db' in Hstop'. rewrite toggleCompletion_on in Hstop'.
    rewrite !String.eqb_refl in Hstop'. now rewrite orb_true_r in Hstop'.
  - cbn [backFrom] in Hd'. rewrite Hy in Hd'.
    rewrite (Hsame k' d' Hd') in Hstop'.
    assert (Hrun'' : completedRun db habitId yesterday k').
    { intros j Hj. destruct (Hrun' (S j) ltac:(lia)) as (x & Hx & Hdone).
      cbn [backFrom] in Hx. rewrite Hy in Hx. exists x. split; [exact Hx|].
      now rewrite <- (Hsame j x Hx). }
    rewrite (completedRun_unique db habitId yesterday k k' d d'
               Hrun Hd Hstop Hrun'' Hd' Hstop').
    lia.
Qed.

(** X27 (toggleCompletion, getStreaks): completing a habit for today
    raises its streak by one.  If the habit had a row with streak [k]
    in what [getStreaks] gave for today, it has one with [k + 1]
    afterwards, and if it had no row it has one with streak 1. *)
Theorem complete_today_adds_one (today : string) (c : Day) (db : Db)
    (h : Habit) (rows : list StreakRow) :
  wfCompletions db -> parseISO today = Some c ->
  In h (habits db) -> sql_where (notDeletedAsOf h today) = true ->
  checkCompletion db today (id h) = false ->
  getStreaks today today db = Some rows ->
  exists rows',
    getStreaks today today (toggleCompletion today (id h) true db)
    = Some rows'
    /\ (forall k, In (mkStreakRow (id h) (name h) k) rows ->
                  In (mkStreakRow (id h) (name h) (k + 1)) rows')
    /\ (~ In (id h) (map streak_id rows) ->
        In (mkStreakRow (id h) (name h) 1) rows').
Proof.
  intros Hwf Hp Hh Hlive Hoff Hget.
  set (db' := toggleCompletion today (id h) true db).
  assert (Hwf' : wfCompletions db')
    by now apply (toggleCompletion_on_wf today (id h) c).
  assert (Hhabits : habits db' = habits db).
  { unfold db', toggleCompletion. now rewrite Hoff. }
  unfold getStreaks in *. rewrite Hhabits.
  set (hs := order_by sort_order
               (filter (fun h0 => sql_where (notDeletedAsOf h0 today))
                       (habits db))) in *.
  assert (Hin : In h hs) by (apply order_by_In, filter_In; auto).
  destruct (streakRows today today db hs) as [res|] eqn:Hres; [|discriminate].
  injection Hget as <-.
  destruct (streakRows_returns today today db' hs) as (res' & Hres').
  { intros h0 _. now apply (habitStreak_returns today today db' h0 c). }
  rewrite Hres'. eexists. split; [reflexivity|].
  destruct (shiftDateStr today (-1)) as [yesterday|] eqn:Hy.
  2:{ unfold shiftDateStr in Hy. now rewrite Hp in Hy. }
  destruct (countBack_returns db (id h) yesterday 0 Hwf) as (n & Hn).
  pose proof (countBack_completed_today today yesterday c db (id h) n
                Hwf Hp Hy Hn) as Hn'.
  assert (Hpos : 0 <= n).
  { apply countBack_run in Hn as (k & -> & _). lia. }
  assert (Hrow : habitStreak today today db h
                 = Some (if 0 <? n
                         then Some (mkStreakRow (id h) (name h) n)
                         else None)).
  { unfold habitStreak, shiftDate. rewrite Hoff, String.eqb_refl.
    cbn [orb]. now rewrite Hy, Hn. }
  assert (Hrow' : habitStreak today today db' h
                  = Some (Some (mkStreakRow (id h) (name h) (n + 1)))).
  { unfold habitStreak. fold db' in Hn'.
    assert (Eon : checkCompletion db' today (id h) = true).
    { unfold db'. rewrite toggleCompletion_on, !String.eqb_refl.
      now rewrite orb_true_r. }
    rewrite Eon. cbn [orb]. rewrite Hn'.
    destruct (Z.ltb_spec 0 (n + 1)); [reflexivity | lia]. }
  assert (Hnew : In (mkStreakRow (id h) (name h) (n + 1))
                    (order_by (fun r => - streak r) res')).
  { apply order_by_In. apply (streakRows_In _ _ _ _ _ _ Hres').
    exists h. split; [exact Hin | exact Hrow']. }
  split.
  - intros k Hk. apply order_by_In in Hk.
    apply (streakRows_In _ _ _ _ _ _ Hres) in Hk as (h0 & _ & Hrow0).
    assert (Ek : k = n).
    { unfold habitStreak, shiftDate in Hrow0.
      destruct (checkCompletion db today (id h0)) eqn:E0.
      - cbn [orb] in Hrow0.
        destruct (countBack (walkFuel db) db (id h0) today 0) as [m|];
          [|discriminate].
        destruct (0 <? m); [|discriminate]. injection Hrow0 as E1 _ _.
        rewrite E1 in E0. congruence.
      - rewrite String.eqb_refl in Hrow0. cbn [orb] in Hrow0.
        rewrite Hy in Hrow0.
        destruct (countBack (walkFuel db) db (id h0) yesterday 0) as [m|] eqn:Em;
          [|discriminate].
        destruct (0 <? m); [|discriminate]. injection Hrow0 as E1 _ E3.
        rewrite E1 in Em. congruence. }
    now rewrite Ek.
  - intros Hnone.
    assert (En : n = 0).
    { destruct (Z.ltb_spec 0 n) as [Hlt|]; [|lia].
      exfalso. apply Hnone. apply in_map_iff.
      exists (mkStreakRow (id h) (name h) n). split; [reflexivity|].
      apply order_by_In. apply (streakRows_In _ _ _ _ _ _ Hres).
      exists h. split; [exact Hin|]. rewrite Hrow.
      destruct (Z.ltb_spec 0 n); [reflexivity | lia]. }
    now rewrite En in Hnew.
Qed.

Lemma complete_today_adds_one_witness :
  exists rows',
    getStreaks "2024-01-08" "2024-01-08"
      (toggleCompletion "2024-01-08" "B" true weekDb) = Some rows'
    /\ In (mkStreakRow "B" "Read" 8) rows'.
Proof.
  destruct (complete_today_adds_one
              "2024-01-08" (2024, 1, 8) weekDb habitB
              [mkStreakRow "A" "Run" 7; mkStreakRow "B" "Read" 7])
    as (rows' & Hget & Hmore & _).
  - intros d h Hin. simpl in Hin.
    repeat (destruct Hin as [E|Hin]; [injection E as <- _; discriminate|]).
    destruct Hin.
  - reflexivity.
  - simpl. tauto.
  - reflexivity.
  - reflexivity.
  - reflexivity.
  - exists rows'. split; [exact Hget|]. apply (Hmore 7). simpl. tauto.
Defined.

(* ----------------------------------------------------------------- *)
(** ** The month the perfect-month check walks *)

(** X28 (daysInMonth, the perfect-month loop): for a pass dated in
    month [m] of year [y], the days the perfect-month check reads are
    the days [1] to [prevMonthDays y m] of the month before, written as
    the program writes dates.  Their number is the length of that
    calendar month when its year is 100 or later; for a year from 0 to
    99 it is the length of the month in the year 1900 later. *)
Theorem prev_month_is_calendar_month (y m : Z) :
  1 <= m <= 12 ->
  let py := if m =? 1 then y - 1 else y in
  let pm := if m =? 1 then 12 else m - 1 in
  (forall k, dayOfMonthStr (prevMonthStr y m) k = printDate (py, pm, k))
  /\ (py < 0 \/ 100 <= py -> prevMonthDays y m = monthLength py pm)
  /\ (0 <= py <= 99 -> prevMonthDays y m = monthLength (1900 + py) pm).
Proof.
  intros Hm py pm.
  assert (Hpm : 1 <= pm <= 12).
  { unfold pm. destruct (Z.eqb_spec m 1); lia. }
  assert (Ediv : (pm - 1) / 12 = 0) by (apply Z.div_small; lia).
  assert (Emod : (pm - 1) mod 12 + 1 = pm)
    by (rewrite Z.mod_small by lia; lia).
  split; [|split].
  - intros k. unfold dayOfMonthStr, prevMonthStr, printDate. fold py pm.
    now rewrite !append_assoc.
  - intros Hpy. unfold prevMonthDays, daysInMonth. fold py pm.
    rewrite Ediv, Emod.
    assert (E : (0 <=? py) && (py <=? 99) = false).
    { apply andb_false_iff. destruct Hpy; [left; apply Z.leb_gt; lia
                                          | right; apply Z.leb_gt; lia]. }
    rewrite E. now rewrite Z.add_0_r.
  - intros Hpy. unfold prevMonthDays, daysInMonth. fold py pm.
    rewrite Ediv, Emod.
    assert (E : (0 <=? py) && (py <=? 99) = true).
    { apply andb_true_iff. split; apply Z.leb_le; lia. }
    rewrite E. now rewrite Z.add_0_r.
Qed.

Lemma prev_month_is_calendar_month_witness :
  dayOfMonthStr (prevMonthStr 2024 3) 29 = printDate (2024, 2, 29)
  /\ prevMonthDays 2024 3 = 29.
Proof.
  destruct (prev_month_is_calendar_month 2024 3 ltac:(lia))
    as (Hstr & Hlen & _).
  split; [apply Hstr|]. rewrite Hlen; [reflexivity | right; simpl; lia].
Defined.

(* ----------------------------------------------------------------- *)
(** ** The toggle seen in the day view *)

Lemma toggleCompletion_check (D H : string) (completed : bool) (db : Db)
    (d x : string) :
  checkCompletion (toggleCompletion D H completed db) d x
  = if (d =s? D) && (x =s? H) then completed else checkCompletion db d x.
Proof.
  destruct completed.
  - rewrite toggleCompletion_on.
    destruct ((d =s? D) && (x =s? H)); [apply orb_true_r | apply orb_false_r].
  - unfold toggleCompletion, checkCompletion.
    cbn [completions set_completions].
    induction (completions db) as [|c l IH]; cbn [filter existsb].
    + now destruct ((d =s? D) && (x =s? H)).
    + destruct ((fst c =s? D) && (snd c =s? H)) eqn:Ec; cbn [negb existsb].
      * rewrite IH. apply andb_prop in Ec as [E1 E2].
        apply String.eqb_eq in E1, E2. rewrite E1, E2.
        rewrite (String.eqb_sym D d), (String.eqb_sym H x).
        now destruct ((d =s? D) && (x =s? H)).
      * rewrite IH.
        destruct ((fst c =s? d) && (snd c =s? x)) eqn:Ed; [|reflexivity].
        apply andb_prop in Ed as [E1 E2]. apply String.eqb_eq in E1, E2.
        rewrite <- E1, <- E2, Ec. reflexivity.
Qed.

(** X29 (toggleCompletion, getDayView): in the day view of any date, a
    toggle changes one thing: on the date of the toggle, the row of the
    habit shows the value that was set.  Every other row, and the view
    of every other date, is as before. *)
Theorem toggleCompletion_day_view (date habitId : string) (completed : bool)
    (db : Db) (viewed : string) :
  getDayView viewed (toggleCompletion date habitId completed db)
  = map (fun r => if (viewed =s? date) && (row_id r =s? habitId)
                  then mkDayRow (row_id r) (row_name r) completed
                                (row_deleted r)
                  else r)
        (getDayView viewed db).
Proof.
  unfold getDayView.
  assert (Eh : habits (toggleCompletion date habitId completed db)
               = habits db).
  { unfold toggleCompletion. destruct completed; [|reflexivity].
    now destruct (checkCompletion db date habitId). }
  rewrite Eh, map_map. apply map_ext. intros h.
  rewrite toggleCompletion_check. cbn [row_id row_name row_deleted].
  now destruct ((viewed =s? date) && (id h =s? habitId)).
Qed.

(* ----------------------------------------------------------------- *)
(** ** The streak on display and the streak that is awarded *)

(** X30 (getStreaks, checkAchievements): for a habit that is active and
    completed on a date, the award pass of that date agrees with the
    streak [getStreaks] shows for it: afterwards the row [streak_N] of
    the habit for the date, for [N] one of 7, 14 and 21, is in the
    table exactly when it was there before or the streak shown is [N]
    or more. *)
Theorem shown_streak_is_awarded (today date : string) (db db' : Db)
    (rows : list StreakRow) (r : StreakRow) (N : Z) :
  getStreaks today date db = Some rows -> In r rows ->
  checkCompletion db date (streak_id r) = true ->
  In (streak_id r) (map id (activeHabits date db)) ->
  In N [7; 14; 21] ->
  checkAchievements date db = Some db' ->
  let a := mkAchievement ("streak_" +++ numberToString N)
                         (Some (streak_id r)) date in
  In a (achievements db') <-> In a (achievements db) \/ N <= streak r.
Proof.
  intros Hget Hr Hdone Hactive HN Hrun a. subst a.
  unfold getStreaks in Hget.
  set (hs := order_by sort_order
               (filter (fun h0 => sql_where (notDeletedAsOf h0 date))
                       (habits db))) in Hget.
  destruct (streakRows today date db hs) as [res|] eqn:Hres;
    [|discriminate Hget].
  injection Hget as <-. apply order_by_In in Hr.
  apply (streakRows_In _ _ _ _ _ _ Hres) in Hr as (h & _ & Hrow).
  pose proof (habitStreak_row _ _ _ _ _ Hrow) as (Eid & _ & _ & _).
  rewrite Eid in Hdone, Hactive |- *.
  unfold habitStreak in Hrow. rewrite Hdone in Hrow. cbn [orb] in Hrow.
  destruct (countBack (walkFuel db) db (id h) date 0) as [n|] eqn:Hn;
    [|discriminate].
  destruct (0 <? n); [|discriminate]. injection Hrow as <-.
  cbn [streak] in *. clear Eid.
  apply checkAchievements_rows in Hrun as (attempts & Hatt & ->).
  rewrite insertAll_In, (habit_streak_attempt date db attempts (id h) N HN Hatt).
  rewrite <- (countBack_at_least db (id h) _ date n (Z.to_nat N) Hn).
  rewrite Z2Nat.id by (destruct HN as [<-|[<-|[<-|[]]]]; lia).
  tauto.
Qed.

Lemma shown_streak_is_awarded_witness :
  exists db',
    checkAchievements "2024-01-07" weekDb = Some db'
    /\ In (mkAchievement "streak_7" (Some "A") "2024-01-07")
          (achievements db').
Proof.
  destruct (checkAchievements "2024-01-07" weekDb) as [db'|] eqn:Hrun;
    [|vm_compute in Hrun; discriminate Hrun].
  exists db'. split; [reflexivity|].
  apply (shown_streak_is_awarded
           "2024-01-07" "2024-01-07" weekDb db'
           [mkStreakRow "A" "Run" 7; mkStreakRow "B" "Read" 7]
           (mkStreakRow "A" "Run" 7) 7);
    try reflexivity; try (simpl; tauto); try exact Hrun.
  right. simpl. lia.
Defined.

(* ----------------------------------------------------------------- *)
(** ** The days behind a day, in years of four digits *)

Lemma prevDay_year (c : Day) : fst (fst (prevDay c)) <= fst (fst c).
Proof.
  destruct c as [[y m] d]. unfold prevDay.
  destruct (1 <? d); [cbn [fst]; lia|]. destruct (1 <? m); cbn [fst]; lia.
Qed.

Lemma iter_prevDay (n : nat) (c : Day) :
  validDay c ->
  validDay (Nat.iter n prevDay c)
  /\ fst (fst (Nat.iter n prevDay c)) <= fst (fst c).
Proof.
  intros Hv. induction n as [|n [IHv IHy]];
    [split; [exact Hv | apply Z.le_refl]|].
  change (Nat.iter (S n) prevDay c) with (prevDay (Nat.iter n prevDay c)).
  split; [now apply prevDay_valid|].
  pose proof (prevDay_year (Nat.iter n prevDay c)). lia.
Qed.

Lemma iter_prevDay_year (i j : nat) (c : Day) :
  (i <= j)%nat ->
  fst (fst (Nat.iter j prevDay c)) <= fst (fst (Nat.iter i prevDay c)).
Proof.
  intros Hij. replace j with ((j - i) + i)%nat by lia.
  rewrite Nat.iter_add. generalize (Nat.iter i prevDay c). intros x.
  induction (j - i)%nat as [|n IH]; [simpl; lia|].
  change (Nat.iter (S n) prevDay x) with (prevDay (Nat.iter n prevDay x)).
  pose proof (prevDay_year (Nat.iter n prevDay x)). lia.
Qed.

Lemma addDays_back (c : Day) (j : nat) :
  addDays c (- Z.of_nat j) = Nat.iter j prevDay c.
Proof.
  unfold addDays. destruct j as [|j]; [reflexivity|].
  destruct (Z.leb_spec 0 (- Z.of_nat (S j))); [lia|].
  now rewrite Z.opp_involutive, Nat2Z.id.
Qed.

(** In years of four digits the walk back reads each day under its own
    date: [j] steps back from a date is the date of the day [j] days
    before. *)
Lemma backFrom_days (s : string) (c : Day) (j : nat) :
  parseISO s = Some c ->
  1000 <= fst (fst (Nat.iter j prevDay c)) ->
  backFrom j s = Some (printDate (Nat.iter j prevDay c))
  /\ parseISO (printDate (Nat.iter j prevDay c))
     = Some (Nat.iter j prevDay c).
Proof.
  intros Hp. pose proof (parseISO_validDay _ _ Hp) as Hv.
  assert (Hhi : fst (fst c) <= 9999).
  { destruct c as [[y m] d]. apply parseISO_valid in Hp. simpl. lia. }
  assert (Hread : forall i, 1000 <= fst (fst (Nat.iter i prevDay c)) ->
                    parseISO (printDate (Nat.iter i prevDay c))
                    = Some (Nat.iter i prevDay c)).
  { intros i Hi. destruct (iter_prevDay i c Hv) as [Vi Yi].
    apply parseISO_print; [exact Vi | lia]. }
  induction j as [|j IH]; intros Hlo.
  - split; [|now apply Hread]. cbn [backFrom Nat.iter nat_rect].
    f_equal. now apply parseISO_printed.
  - split; [|now apply Hread].
    pose proof (iter_prevDay_year j (S j) c ltac:(lia)) as Hy.
    destruct (IH ltac:(lia)) as [Hback Hpj].
    rewrite backFrom_step, Hback.
    rewrite (shiftDateStr_back _ _ Hpj). reflexivity.
Qed.

Lemma completedRun_days (db : Db) (habitId s : string) (c : Day) (k : nat) :
  parseISO s = Some c ->
  (k = 0%nat \/ 1000 <= fst (fst (Nat.iter (k - 1) prevDay c))) ->
  (completedRun db habitId s k
   <-> forall j, (j < k)%nat ->
         checkCompletion db (printDate (Nat.iter j prevDay c)) habitId = true).
Proof.
  intros Hp Hlo.
  assert (Hback : forall j, (j < k)%nat ->
            backFrom j s = Some (printDate (Nat.iter j prevDay c))).
  { intros j Hj. apply backFrom_days; [exact Hp|].
    destruct Hlo as [->|Hlo]; [lia|].
    pose proof (iter_prevDay_year j (k - 1) c ltac:(lia)). lia. }
  unfold completedRun. split.
  - intros H j Hj. destruct (H j Hj) as (d & Hd & Hdone).
    rewrite (Hback j Hj) in Hd. now injection Hd as <-.
  - intros H j Hj. exists (printDate (Nat.iter j prevDay c)).
    split; [now apply Hback | now apply H].
Qed.

(* ----------------------------------------------------------------- *)
(** ** What a reported streak means, on the calendar *)

Lemma walk_days (db : Db) (habitId s : string) (c : Day) (k : nat)
    (d : string) :
  parseISO s = Some c -> 1000 <= fst (fst (Nat.iter k prevDay c)) ->
  completedRun db habitId s k -> backFrom k s = Some d ->
  checkCompletion db d habitId = false ->
  (forall j, (j < k)%nat ->
     checkCompletion db (printDate (Nat.iter j prevDay c)) habitId = true)
  /\ checkCompletion db (printDate (Nat.iter k prevDay c)) habitId = false.
Proof.
  intros Hp Hlo Hrun Hd Hstop. split.
  - apply (completedRun_days db habitId s c k Hp); [|exact Hrun].
    destruct k as [|k]; [now left | right].
    pose proof (iter_prevDay_year (S k - 1) (S k) c ltac:(lia)). lia.
  - destruct (backFrom_days s c k Hp Hlo) as [Hback _].
    rewrite Hback in Hd. now injection Hd as <-.
Qed.

(** X7. In years of four digits a streak reported for a habit counts
    real days: the habit has a completion on each of that many
    consecutive days of the calendar, and none on the day before them.
    The last of these days is the viewing date when the habit is
    completed on it, and the day before when it is not and the viewing
    date is today.  (Below the year 1000 the program prints a date
    without the leading zeros of its year and looks up that text, which
    is not the date of the day.) *)
Theorem getStreaks_counts_days (today date : string) (c : Day) (db : Db)
    (rows : list StreakRow) (r : StreakRow) :
  getStreaks today date db = Some rows -> In r rows ->
  parseISO date = Some c ->
  1000 <= fst (fst (addDays c (- (streak r + 1)))) ->
  exists off,
    ((checkCompletion db date (streak_id r) = true /\ off = 0)
     \/ (checkCompletion db date (streak_id r) = false /\ date = today
         /\ off = 1))
    /\ completedOnDays db (streak_id r) c off (streak r)
    /\ checkCompletion db (printDate (addDays c (- (off + streak r))))
                       (streak_id r) = false.
Proof.
  unfold getStreaks.
  destruct (streakRows _ _ _ _) as [results|] eqn:Hres; [|discriminate].
  intros [= <-] Hr Hp Hlo. apply order_by_In in Hr.
  apply (streakRows_In _ _ _ _ _ _ Hres) in Hr as (h & _ & Hh).
  apply habitStreak_row in Hh
    as (Eid & _ & _ & start & k & Hk & Hcase & Hrun & d & Hd & Hstop).
  rewrite Hk, Eid in *. clear Hk Eid.
  pose proof (parseISO_validDay _ _ Hp) as Hv.
  replace (Z.of_nat k + 1) with (Z.of_nat (S k)) in Hlo by lia.
  rewrite addDays_back in Hlo.
  assert (Hhi : fst (fst c) <= 9999).
  { destruct c as [[y m] dd]. apply parseISO_valid in Hp. simpl. lia. }
  destruct Hcase as [[Hdone ->]|(Hnot & Htoday & Hstart)].
  - exists 0. split; [now left|].
    pose proof (iter_prevDay_year k (S k) c ltac:(lia)) as Hy.
    destruct (walk_days db (id h) date c k d Hp ltac:(lia)
                Hrun Hd Hstop) as [Hall Hend].
    split.
    + intros j Hj. replace j with (Z.of_nat (Z.to_nat j)) by lia.
      rewrite addDays_back. apply Hall. lia.
    + replace (0 + Z.of_nat k) with (Z.of_nat k) by lia.
      now rewrite addDays_back.
  - exists 1. split; [right; auto|].
    rewrite (shiftDateStr_back _ _ Hp) in Hstart. injection Hstart as <-.
    pose proof (iter_prevDay_year 1 (S k) c ltac:(lia)) as Hy1.
    assert (Hp' : parseISO (printDate (prevDay c)) = Some (prevDay c)).
    { apply parseISO_print; [now apply prevDay_valid|].
      pose proof (prevDay_year c).
      change (Nat.iter 1 prevDay c) with (prevDay c) in Hy1. lia. }
    assert (Eshift : forall j, Nat.iter j prevDay (prevDay c)
                               = Nat.iter (S j) prevDay c)
      by (intros j; now rewrite Nat.iter_succ_r).
    destruct (walk_days db (id h) (printDate (prevDay c)) (prevDay c)
                k d Hp' ltac:(rewrite Eshift; exact Hlo) Hrun Hd Hstop)
      as [Hall Hend].
    split.
    + intros j Hj. replace j with (Z.of_nat (S (Z.to_nat (j - 1)))) by lia.
      rewrite addDays_back, <- Eshift. apply Hall. lia.
    + replace (1 + Z.of_nat k) with (Z.of_nat (S k)) by lia.
      now rewrite addDays_back, <- Eshift.
Qed.

Lemma getStreaks_counts_days_witness :
  completedOnDays weekDb "A" (2024, 1, 7) 0 7
  /\ checkCompletion weekDb "2023-12-31" "A" = false.
Proof.
  destruct (getStreaks_counts_days "2024-01-08" "2024-01-07" (2024, 1, 7)
              weekDb [mkStreakRow "A" "Run" 7; mkStreakRow "B" "Read" 7]
              (mkStreakRow "A" "Run" 7) eq_refl ltac:(simpl; tauto) eq_refl
              ltac:(vm_compute; discriminate))
    as (off & [[_ ->]|(Hnot & _)] & Hall & Hend).
  - split; [exact Hall | exact Hend].
  - vm_compute in Hnot. discriminate Hnot.
Defined.

(* ----------------------------------------------------------------- *)
(** ** What the award pass writes, on the calendar *)

(** In years of four digits the date printed for a day behind a date
    reads back as that day. *)
Lemma days_back_read (s : string) (c : Day) (j n : Z) :
  parseISO s = Some c -> 0 <= j <= n ->
  1000 <= fst (fst (addDays c (- n))) ->
  parseISO (printDate (addDays c (- j))) = Some (addDays c (- j)).
Proof.
  intros Hp Hj Hlo.
  replace j with (Z.of_nat (Z.to_nat j)) by lia.
  replace n with (Z.of_nat (Z.to_nat n)) in Hlo by lia.
  rewrite addDays_back in *.
  apply (backFrom_days s c (Z.to_nat j) Hp).
  pose proof (iter_prevDay_year (Z.to_nat j) (Z.to_nat n) c ltac:(lia)).
  lia.
Qed.

Lemma perfectDays_days (db : Db) (date : string) (c : Day) (N : Z) :
  parseISO date = Some c ->
  (perfectDays db date N <-> daysComplete db c N).
Proof.
  intros Hp. unfold perfectDays, daysComplete. split; intros H j Hj.
  - destruct (H j Hj) as (d & Hd & Hdone).
    rewrite (shiftDateStr_total _ (- j) _ Hp) in Hd. now injection Hd as <-.
  - exists (printDate (addDays c (- j))). split; [|now apply H].
    now apply shiftDateStr_total.
Qed.

(** X10 (award pass, per-habit streaks).  In years of four digits,
    after a pass for a date the row [streak_N] of a habit dated that
    date is in the table exactly when it was there before, or the habit
    is active on the date and has a completion on each of the [N] days
    of the calendar that end on it. *)
Theorem checkAchievements_habit_streak (date : string) (c : Day)
    (db db' : Db) (habitId : string) (N : Z) :
  In N [7; 14; 21] ->
  parseISO date = Some c ->
  1000 <= fst (fst (addDays c (- (N - 1)))) ->
  checkAchievements date db = Some db' ->
  let a := mkAchievement ("streak_" +++ numberToString N)
                         (Some habitId) date in
  In a (achievements db')
  <-> In a (achievements db)
      \/ (In habitId (map id (activeHabits date db))
          /\ completedOnDays db habitId c 0 N).
Proof.
  intros HN Hp Hlo Hrun a.
  assert (HN' : 7 <= N) by (simpl in HN; lia).
  apply checkAchievements_rows in Hrun as (rows & Hrows & ->).
  rewrite insertAll_In.
  pose proof (habit_streak_attempt date db rows habitId N HN Hrows) as Hrow.
  cbv zeta in Hrow. fold a in Hrow. rewrite Hrow.
  assert (Hdays : completedRun db habitId date (Z.to_nat N)
                  <-> completedOnDays db habitId c 0 N).
  { rewrite (completedRun_days db habitId date c (Z.to_nat N) Hp).
    - unfold completedOnDays. split; intros H j Hj.
      + replace j with (Z.of_nat (Z.to_nat j)) by lia.
        rewrite addDays_back. apply H. lia.
      + rewrite <- addDays_back. apply H. lia.
    - right. rewrite <- addDays_back.
      replace (Z.of_nat (Z.to_nat N - 1)) with (N - 1) by lia. exact Hlo. }
  rewrite Hdays. reflexivity.
Qed.

Lemma checkAchievements_habit_streak_witness :
  exists db',
    checkAchievements "2024-01-07" weekDb = Some db'
    /\ In (mkAchievement "streak_7" (Some "B") "2024-01-07")
          (achievements db')
    /\ completedOnDays weekDb "B" (2024, 1, 7) 0 7.
Proof.
  destruct (checkAchievements "2024-01-07" weekDb) as [db'|] eqn:Hrun;
    [|vm_compute in Hrun; discriminate Hrun].
  exists db'. split; [reflexivity|].
  assert (Hin : In (mkAchievement "streak_7" (Some "B") "2024-01-07")
                   (achievements db')).
  { vm_compute in Hrun. injection Hrun as <-. simpl. tauto. }
  split; [exact Hin|].
  assert (Hlo : 1000 <= fst (fst (addDays (2024, 1, 7) (- (7 - 1)))))
    by (vm_compute; discriminate).
  apply (checkAchievements_habit_streak
           "2024-01-07" (2024, 1, 7) weekDb db' "B" 7
           ltac:(simpl; tauto) eq_refl Hlo Hrun) in Hin.
  destruct Hin as [[]|[_ Hdone]]. exact Hdone.
Defined.

(** X11 (award pass, global streaks).  In years of four digits, a pass
    for a date with an active habit adds one global row [streak_N]
    dated that date when each of the [N] days of the calendar that end
    on it is complete, and none otherwise; the dates it reads are the
    dates of those days.  A row that was there already does not stop
    it: the global rows repeat. *)
Theorem checkAchievements_global_streak (date : string) (c : Day)
    (db db' : Db) (N : Z) :
  In N [7; 14; 21] ->
  activeHabits date db <> [] ->
  parseISO date = Some c ->
  1000 <= fst (fst (addDays c (- (N - 1)))) ->
  checkAchievements date db = Some db' ->
  let a := mkAchievement ("streak_" +++ numberToString N) None date in
  (forall j, 0 <= j < N ->
     parseISO (printDate (addDays c (- j))) = Some (addDays c (- j)))
  /\ (daysComplete db c N ->
      count_occ Achievement_eq_dec (achievements db') a
      = S (count_occ Achievement_eq_dec (achievements db) a))
  /\ (~ daysComplete db c N ->
      count_occ Achievement_eq_dec (achievements db') a
      = count_occ Achievement_eq_dec (achievements db) a).
Proof.
  intros HN Hactive Hp Hlo Hrun a.
  assert (HN' : 7 <= N) by (simpl in HN; lia).
  split.
  { intros j Hj. apply (days_back_read date c j (N - 1) Hp); [lia|exact Hlo]. }
  apply checkAchievements_rows in Hrun as (rows & Hrows & ->).
  rewrite insertAll_count_global by reflexivity.
  destruct (global_streak_attempt date db rows N HN Hactive Hrows)
    as (ok & Hok & Hcount).
  fold a in Hcount. rewrite Hcount.
  apply allStreak_perfectDays in Hok; [|lia].
  rewrite (perfectDays_days db date c N Hp) in Hok.
  split; intros Hdays.
  - apply Hok in Hdays as ->. lia.
  - destruct ok; [exfalso; now apply Hdays, Hok | lia].
Qed.

Lemma checkAchievements_global_streak_witness :
  exists db',
    checkAchievements "2024-01-07" (set_achievements weekDb weekAwards)
    = Some db'
    /\ daysComplete weekDb (2024, 1, 7) 7
    /\ count_occ Achievement_eq_dec (achievements db')
         (mkAchievement "streak_7" None "2024-01-07") = 2%nat.
Proof.
  destruct (checkAchievements "2024-01-07"
              (set_achievements weekDb weekAwards)) as [db'|] eqn:Hrun;
    [|vm_compute in Hrun; discriminate Hrun].
  exists db'. split; [reflexivity|].
  assert (Hdays : daysComplete weekDb (2024, 1, 7) 7).
  { intros j Hj.
    apply (forall_countFrom
             (fun j => dayComplete weekDb
                         (printDate (addDays (2024, 1, 7) (- j)))) 0 7);
      [vm_compute; reflexivity | lia]. }
  split; [exact Hdays|].
  assert (Hlo : 1000 <= fst (fst (addDays (2024, 1, 7) (- (7 - 1)))))
    by (vm_compute; discriminate).
  apply (checkAchievements_global_streak
           "2024-01-07" (2024, 1, 7) (set_achievements weekDb weekAwards)
           db' 7 ltac:(simpl; tauto) ltac:(discriminate) eq_refl Hlo Hrun).
  exact Hdays.
Defined.

(** The month before a date: the dates the program builds for its days
    are the dates it prints for them, and from the year 100 on the
    number of days it walks is the length of the month. *)
Lemma prevMonth_printed (y m k : Z) :
  dayOfMonthStr (prevMonthStr y m) k
  = printDate (if m =? 1 then y - 1 else y,
               if m =? 1 then 12 else m - 1, k).
Proof.
  unfold dayOfMonthStr, prevMonthStr, printDate. now rewrite !append_assoc.
Qed.

Lemma prevMonth_first (y m : Z) :
  prevMonthStr y m +++ "-01"
  = printDate (if m =? 1 then y - 1 else y,
               if m =? 1 then 12 else m - 1, 1).
Proof.
  unfold prevMonthStr, printDate. now rewrite !append_assoc.
Qed.

Lemma prevMonth_length (y m : Z) :
  1 <= m <= 12 -> 100 <= (if m =? 1 then y - 1 else y) ->
  prevMonthDays y m
  = monthLength (if m =? 1 then y - 1 else y)
                (if m =? 1 then 12 else m - 1).
Proof.
  intros Hm Hpy. unfold prevMonthDays, daysInMonth.
  set (py := if m =? 1 then y - 1 else y) in *.
  set (pm := if m =? 1 then 12 else m - 1).
  assert (Hpm : 1 <= pm <= 12).
  { unfold pm. destruct (Z.eqb_spec m 1); lia. }
  rewrite (Z.div_small (pm - 1) 12) by lia.
  rewrite (Z.mod_small (pm - 1) 12) by lia.
  replace ((0 <=? py) && (py <=? 99)) with false
    by (symmetry; apply andb_false_iff; right; apply Z.leb_gt; lia).
  rewrite Z.add_0_r. f_equal. lia.
Qed.

Lemma prevMonth_read (s : string) (y m d k : Z) :
  parseISO s = Some (y, m, d) ->
  let py := if m =? 1 then y - 1 else y in
  let pm := if m =? 1 then 12 else m - 1 in
  1000 <= py -> 1 <= k <= monthLength py pm ->
  parseISO (printDate (py, pm, k)) = Some (py, pm, k).
Proof.
  intros Hp py pm Hpy Hk. apply parseISO_valid in Hp as (Hy & Hm & _).
  apply parseISO_print.
  - split; [|exact Hk]. unfold pm. destruct (Z.eqb_spec m 1); lia.
  - cbn [fst]. unfold py in *. destruct (Z.eqb_spec m 1); lia.
Qed.

(** X12 (award pass, per-habit perfect month).  For a pass dated in a
    month whose month before lies in a year of four digits: the row
    [perfect_month] of a habit, dated the first day of the month
    before, is in the table after the pass exactly when it was there
    before, or the habit is active on the date, has a creation date
    that is not after that first day in the order of text, and has a
    completion on every day of that calendar month; the dates read are
    the dates of those days. *)
Theorem checkAchievements_habit_month (date : string) (db db' : Db)
    (y m d : Z) (habitId : string) :
  parseISO date = Some (y, m, d) ->
  let py := if m =? 1 then y - 1 else y in
  let pm := if m =? 1 then 12 else m - 1 in
  1000 <= py ->
  checkAchievements date db = Some db' ->
  let a := mkAchievement "perfect_month" (Some habitId)
                         (printDate (py, pm, 1)) in
  (forall k, 1 <= k <= monthLength py pm ->
     parseISO (printDate (py, pm, k)) = Some (py, pm, k))
  /\ (In a (achievements db')
      <-> In a (achievements db)
          \/ (In habitId (map id (activeHabits date db))
              /\ (exists row,
                     habitRow db habitId = Some row
                     /\ (printDate (py, pm, 1) <s? created_date row) = false)
              /\ habitMonthCompleted db py pm habitId)).
Proof.
  intros Hdate py pm Hpy Hrun a.
  split; [intros k Hk; now apply (prevMonth_read date y m d k Hdate)|].
  pose proof (habit_month_rows date db db' y m d habitId Hdate Hrun) as Hrow.
  cbv zeta in Hrow. rewrite prevMonth_first in Hrow.
  fold py pm in Hrow. fold a in Hrow. rewrite Hrow.
  assert (Hm : 1 <= m <= 12) by (apply parseISO_valid in Hdate; lia).
  assert (Hdays : habitMonthDone db y m habitId
                  <-> habitMonthCompleted db py pm habitId).
  { unfold habitMonthDone, habitMonthCompleted.
    rewrite (prevMonth_length y m Hm) by (fold py; lia). fold py pm.
    split; intros H k Hk.
    - specialize (H k Hk). now rewrite prevMonth_printed in H.
    - rewrite prevMonth_printed. now apply H. }
  rewrite Hdays. reflexivity.
Qed.

Lemma checkAchievements_habit_month_witness :
  exists db',
    checkAchievements "2024-02-03" januaryDb = Some db'
    /\ In (mkAchievement "perfect_month" (Some "A") "2024-01-01")
          (achievements db')
    /\ habitMonthCompleted januaryDb 2024 1 "A".
Proof.
  destruct (checkAchievements "2024-02-03" januaryDb) as [db'|] eqn:Hrun;
    [|vm_compute in Hrun; discriminate Hrun].
  exists db'. split; [reflexivity|].
  assert (Hin : In (mkAchievement "perfect_month" (Some "A") "2024-01-01")
                   (achievements db')).
  { vm_compute in Hrun. injection Hrun as <-. simpl. tauto. }
  split; [exact Hin|].
  assert (Hlo : 1000 <= (if 2 =? 1 then 2024 - 1 else 2024))
    by (vm_compute; discriminate).
  destruct (checkAchievements_habit_month
              "2024-02-03" januaryDb db' 2024 2 3 "A" eq_refl Hlo Hrun)
    as [_ Hiff].
  apply Hiff in Hin. destruct Hin as [[]|(_ & _ & Hdone)]. exact Hdone.
Defined.

(** X13 (award pass, global perfect month).  For a pass dated in a
    month whose month before lies in a year of four digits, with an
    active habit: the pass adds one global row [perfect_month], dated
    the first day of the month before, when every day of that calendar
    month is complete, and none otherwise; the dates read are the dates
    of those days. *)
Theorem checkAchievements_global_month (date : string) (db db' : Db)
    (y m d : Z) :
  parseISO date = Some (y, m, d) ->
  let py := if m =? 1 then y - 1 else y in
  let pm := if m =? 1 then 12 else m - 1 in
  1000 <= py ->
  activeHabits date db <> [] ->
  checkAchievements date db = Some db' ->
  let a := mkAchievement "perfect_month" None (printDate (py, pm, 1)) in
  (forall k, 1 <= k <= monthLength py pm ->
     parseISO (printDate (py, pm, k)) = Some (py, pm, k))
  /\ (monthDaysComplete db py pm ->
      count_occ Achievement_eq_dec (achievements db') a
      = S (count_occ Achievement_eq_dec (achievements db) a))
  /\ (~ monthDaysComplete db py pm ->
      count_occ Achievement_eq_dec (achievements db') a
      = count_occ Achievement_eq_dec (achievements db) a).
Proof.
  intros Hdate py pm Hpy Hactive Hrun a.
  split; [intros k Hk; now apply (prevMonth_read date y m d k Hdate)|].
  pose proof (global_month_rows date db db' y m d Hdate Hactive Hrun) as Hrow.
  cbv zeta in Hrow. rewrite prevMonth_first in Hrow.
  fold py pm in Hrow. fold a in Hrow.
  assert (Hm : 1 <= m <= 12) by (apply parseISO_valid in Hdate; lia).
  assert (Hdays : monthComplete db y m <-> monthDaysComplete db py pm).
  { unfold monthComplete, monthDaysComplete.
    rewrite (prevMonth_length y m Hm) by (fold py; lia). fold py pm.
    split; intros H k Hk.
    - specialize (H k Hk). now rewrite prevMonth_printed in H.
    - rewrite prevMonth_printed. now apply H. }
  rewrite Hdays in Hrow. exact Hrow.
Qed.

Lemma checkAchievements_global_month_witness :
  exists db',
    checkAchievements "2024-02-03" januaryDb = Some db'
    /\ monthDaysComplete januaryDb 2024 1
    /\ count_occ Achievement_eq_dec (achievements db')
         (mkAchievement "perfect_month" None "2024-01-01") = 1%nat.
Proof.
  destruct (checkAchievements "2024-02-03" januaryDb) as [db'|] eqn:Hrun;
    [|vm_compute in Hrun; discriminate Hrun].
  exists db'. split; [reflexivity|].
  assert (Hall : monthDaysComplete januaryDb 2024 1).
  { intros k Hk. change (monthLength 2024 1) with 31 in Hk.
    apply (forall_countFrom
             (fun k => dayComplete januaryDb (printDate (2024, 1, k))) 1 31);
      [vm_compute; reflexivity | lia]. }
  split; [exact Hall|].
  assert (Hlo : 1000 <= (if 2 =? 1 then 2024 - 1 else 2024))
    by (vm_compute; discriminate).
  destruct (checkAchievements_global_month
              "2024-02-03" januaryDb db' 2024 2 3 eq_refl Hlo
              ltac:(discriminate) Hrun) as (_ & Hyes & _).
  exact (Hyes Hall).
Defined.

(* ----------------------------------------------------------------- *)
(** ** Sample runs of [removeTodo] and [getAchievements] *)

Lemma removeTodo_effect_witness :
  fst (removeTodo "home" "t1" sampleTodos) = false
  /\ snd (removeTodo "home" "t1" sampleTodos) = sampleTodos.
Proof.
  destruct (removeTodo_effect "home" "t1" sampleTodos)
    as (_ & _ & _ & Hsame).
  split; [reflexivity | now apply Hsame].
Defined.

Lemma getAchievements_throws_witness :
  getAchievements
    (mkDb [mkHabit "toString" "Walk" "2024-01-01" false None 0] [] [])
  = None.
Proof.
  apply getAchievements_throws.
  exists (mkHabit "toString" "Walk" "2024-01-01" false None 0).
  split; [now left|]. split; [simpl; tauto | now left].
Defined.
